(** * TF-IDF document index: a shallow embedding of [pageRank.py]

    The development follows the class [PDFTextAnalyzer]:
    - [preprocess_text]           (tokenizer),
    - [calculate_term_frequency]  (term frequencies of one document),
    - [process_pdf]               (ingestion into the SQLite store),
    - [calculate_idf]             (inverse document frequencies),
    - [search]                    (TF-IDF ranking).

    Conventions of the embedding.
    - A Python [str] is a [string] of 8-bit characters, read as the code
      points U+0000..U+00FF.  Every character outside [a-zA-Z] and the
      white space class is deleted by the tokenizer before anything else
      looks at it, so terms are always plain ASCII.
    - A Python [float] is idealised as a real number ([R]); [math.log] is
      the natural logarithm [ln].
    - A [dict] is an association list in insertion order with unique keys
      (assignment to an existing key keeps its position).
    - The SQLite file is a record of its two tables, each a list of rows in
      rowid order, together with the AUTOINCREMENT counters.  A SELECT
      without ORDER BY returns its rows in the order of the index it is
      answered from: the documents by file name, the term rows of a
      document by term, the groups of a GROUP BY by the grouping column. *)

From Stdlib Require Import List String Ascii Bool Arith NArith ZArith Lia.
From Stdlib Require Import Reals Lra Permutation Sorted.
From Stdlib Require DecimalString.
Import ListNotations.

Set Implicit Arguments.

(* ================================================================= *)
(** ** Python built-ins used by the program *)

Module Py.

Local Open Scope N_scope.

(** [str.isspace] on one character: the Unicode white space of the
    first 256 code points.  [str.split] and the regular expression
    class [\s] use the same predicate. *)
Definition isspace (c : ascii) : bool :=
  let n := N_of_ascii c in
  ((9 <=? n) && (n <=? 13)) || ((28 <=? n) && (n <=? 32))
  || (n =? 133) || (n =? 160).

(** The regular expression class [a-zA-Z]. *)
Definition is_lower (c : ascii) : bool :=
  let n := N_of_ascii c in (97 <=? n) && (n <=? 122).

Definition is_upper (c : ascii) : bool :=
  let n := N_of_ascii c in (65 <=? n) && (n <=? 90).

Definition is_letter (c : ascii) : bool := is_lower c || is_upper c.

(** [str.lower] on one character: [A-Z] and the upper-case letters of
    the Latin-1 block move 32 code points up. *)
Definition lower_char (c : ascii) : ascii :=
  let n := N_of_ascii c in
  if is_upper c then ascii_of_N (n + 32)
  else if (192 <=? n) && (n <=? 222) && negb (n =? 215)
       then ascii_of_N (n + 32)
       else c.

Local Close Scope N_scope.
Local Open Scope string_scope.

Fixpoint map_str (f : ascii -> ascii) (s : string) : string :=
  match s with
  | EmptyString => EmptyString
  | String c s' => String (f c) (map_str f s')
  end.

Fixpoint filter_str (p : ascii -> bool) (s : string) : string :=
  match s with
  | EmptyString => EmptyString
  | String c s' => if p c then String c (filter_str p s') else filter_str p s'
  end.

Fixpoint forall_str (p : ascii -> bool) (s : string) : bool :=
  match s with
  | EmptyString => true
  | String c s' => p c && forall_str p s'
  end.

(** [s.lower()] *)
Definition lower (s : string) : string := map_str lower_char s.

(** [re.sub(r'[^a-zA-Z\s]', '', s)]: every character that is neither a
    letter nor white space is deleted. *)
Definition re_sub_non_letters (s : string) : string :=
  filter_str (fun c => is_letter c || isspace c) s.

(** Does [s] begin with a character of a word? *)
Definition starts_word (s : string) : bool :=
  match s with
  | EmptyString => false
  | String c _ => negb (isspace c)
  end.

(** [s.split()]: the maximal runs of characters that are not white
    space, in order; never an empty string. *)
Fixpoint split (s : string) : list string :=
  match s with
  | EmptyString => []
  | String c s' =>
      if isspace c then split s'
      else if starts_word s' then
             match split s' with
             | w :: ws => String c w :: ws
             | [] => [String c EmptyString]
             end
           else String c EmptyString :: split s'
  end.

Fixpoint lstrip (s : string) : string :=
  match s with
  | EmptyString => EmptyString
  | String c s' => if isspace c then lstrip s' else s
  end.

Fixpoint rstrip (s : string) : string :=
  match s with
  | EmptyString => EmptyString
  | String c s' =>
      match rstrip s' with
      | EmptyString => if isspace c then EmptyString else String c EmptyString
      | r => String c r
      end
  end.

(** [s.strip()] *)
Definition strip (s : string) : string := rstrip (lstrip s).

(** Truth value of a [str]: non-empty. *)
Definition truthy (s : string) : bool :=
  match s with EmptyString => false | _ => true end.

(** [sep.join(words)] *)
Definition join (sep : string) (words : list string) : string :=
  String.concat sep words.

(** [x in xs] for strings. *)
Definition mem (x : string) (xs : list string) : bool :=
  existsb (String.eqb x) xs.

(** [os.path.basename]: what follows the last slash. *)
Definition has_slash (p : string) : bool :=
  negb (forall_str (fun c => negb (Ascii.eqb c "/"%char)) p).

Fixpoint basename (p : string) : string :=
  match p with
  | EmptyString => EmptyString
  | String _ p' => if has_slash p then basename p' else p
  end.

(** *** [dict] with [str] keys, in insertion order *)
Section Dict.
Variable V : Type.

Definition dict := list (string * V).

(** [d.get(k)] *)
Fixpoint dict_get (d : dict) (k : string) : option V :=
  match d with
  | [] => None
  | (k', v) :: d' => if String.eqb k' k then Some v else dict_get d' k
  end.

(** [d[k] = v]: an existing key keeps its place, a new one goes last. *)
Fixpoint dict_set (d : dict) (k : string) (v : V) : dict :=
  match d with
  | [] => [(k, v)]
  | (k', v') :: d' =>
      if String.eqb k' k then (k', v) :: d'
      else (k', v') :: dict_set d' k v
  end.

(** [k in d] *)
Definition dict_mem (d : dict) (k : string) : bool :=
  match dict_get d k with Some _ => true | None => false end.

(** [d.items()] and [d.keys()] *)
Definition items (d : dict) : list (string * V) := d.
Definition keys (d : dict) : list string := map fst d.
End Dict.

(** [collections.Counter(words)]: a missing key counts 0. *)
Definition Counter (words : list string) : dict Z :=
  fold_left
    (fun c w =>
       dict_set c w (match dict_get c w with Some n => n + 1 | None => 1 end)%Z)
    words [].

Definition Counter_get (c : dict Z) (k : string) : Z :=
  match dict_get c k with Some n => n | None => 0%Z end.

(** [len(xs)] *)
Definition len (A : Type) (xs : list A) : Z := Z.of_nat (List.length xs).

(** [sorted(xs, key=key, reverse=True)].  Python's sort is stable and
    stays so under [reverse=True]: elements with equal keys keep their
    relative order.  An insertion sort with that behaviour stands for
    it: an element goes behind the strictly larger ones only. *)
Section Sorted.
Variable A : Type.
Variable key : A -> R.

Fixpoint insert_desc (x : A) (l : list A) : list A :=
  match l with
  | [] => [x]
  | y :: l' =>
      if Rlt_dec (key x) (key y) then y :: insert_desc x l'
      else x :: l
  end.

Definition sorted_reverse (l : list A) : list A :=
  fold_right insert_desc [] l.
End Sorted.

(** [xs[:n]]: a negative bound counts from the end. *)
Definition slice_to (A : Type) (xs : list A) (n : Z) : list A :=
  if (0 <=? n)%Z then firstn (Z.to_nat n) xs
  else firstn (Z.to_nat (len xs + n)) xs.

End Py.

(* ================================================================= *)
(** ** The tokenizer *)

Local Open Scope string_scope.

Definition stop_words : list string :=
  ["the"; "a"; "an"; "and"; "or"; "but"; "in"; "on"; "at";
   "to"; "for"; "of"; "with"; "by"; "is"; "are"; "was"; "were";
   "be"; "been"; "have"; "has"; "had"; "do"; "does"; "did";
   "will"; "would"; "could"; "should"; "may"; "might"; "must";
   "this"; "that"; "these"; "those"; "i"; "you"; "he"; "she";
   "it"; "we"; "they"; "me"; "him"; "her"; "us"; "them"].

(** The test of the last comprehension of [preprocess_text]:
    [word not in stop_words and len(word) > 2]. *)
Definition keep_word (word : string) : bool :=
  negb (Py.mem word stop_words) && (2 <? String.length word)%nat.

Definition preprocess_text (text : string) : list string :=
  let text := Py.lower text in
  let text := Py.re_sub_non_letters text in
  let words :=
    map Py.strip (filter (fun word => Py.truthy (Py.strip word)) (Py.split text)) in
  filter keep_word words.

(** The text a caller would rebuild from a token sequence. *)
Definition tokens_to_text (words : list string) : string := Py.join " " words.

(* ================================================================= *)
(** ** Term frequencies *)

(** The quotient [count / total_words] is only evaluated inside the loop
    over the counted words, hence never with [total_words = 0]. *)
Definition calculate_term_frequency (words : list string) : Py.dict R :=
  let word_count := Py.Counter words in
  let total_words := Py.len words in
  fold_left
    (fun tf_scores '(word, count) =>
       Py.dict_set tf_scores word (IZR count / IZR total_words)%R)
    (Py.items word_count) [].

(* ================================================================= *)
(** ** The SQLite store *)

Module Sqlite.

Local Open Scope Z_scope.

(** A row of [documents] and a row of [term_frequency]. *)
Record document := {
  id : Z;
  filename : string;
  content : string;
  word_count : Z }.

Record term_row := {
  tf_id : Z;
  document_id : Z;
  term : string;
  frequency : Z;
  tf_score : R }.

(** The database file: both tables in rowid order, and for each the
    largest rowid it ever held (table [sqlite_sequence]). *)
Record database := {
  documents : list document;
  documents_seq : Z;
  term_frequency : list term_row;
  term_frequency_seq : Z }.

(** [init_database] on a fresh file: two empty tables. *)
Definition init_database : database :=
  {| documents := []; documents_seq := 0;
     term_frequency := []; term_frequency_seq := 0 |}.

(** [sqlite3.Error] and its subclasses met here. *)
Inductive error := OperationalError | IntegrityError.

Inductive outcome (A : Type) :=
| Ok (a : A)
| Raise (e : error).
Arguments Raise {A} e.

Definition max_rowid : Z := 9223372036854775807.

Definition largest (ids : list Z) : Z := fold_right Z.max 0 ids.

(** [INTEGER PRIMARY KEY AUTOINCREMENT]: one more than the largest rowid
    the table ever held; the statement fails once that is exhausted. *)
Definition next_rowid (seq : Z) (ids : list Z) : outcome Z :=
  let last := Z.max seq (largest ids) in
  if last =? max_rowid then Raise OperationalError else Ok (last + 1).

(** [INSERT OR REPLACE INTO documents (filename, content, word_count)]:
    a row with the same [filename] (the UNIQUE column) is deleted, then
    the new row is inserted under a fresh rowid, which becomes
    [cursor.lastrowid]. *)
Definition insert_or_replace_document
    (fname text : string) (wc : Z) (db : database) : outcome (database * Z) :=
  match next_rowid (documents_seq db) (map id (documents db)) with
  | Raise e => Raise e
  | Ok rowid =>
      Ok ({| documents :=
               filter (fun d => negb (String.eqb (filename d) fname)) (documents db)
               ++ [{| id := rowid; filename := fname;
                      content := text; word_count := wc |}];
             documents_seq := rowid;
             term_frequency := term_frequency db;
             term_frequency_seq := term_frequency_seq db |}, rowid)
  end.

(** [DELETE FROM term_frequency WHERE document_id = ?] *)
Definition delete_term_frequency (doc_id : Z) (db : database)
  : outcome (database * unit) :=
  Ok ({| documents := documents db;
         documents_seq := documents_seq db;
         term_frequency :=
           filter (fun r => negb (document_id r =? doc_id)) (term_frequency db);
         term_frequency_seq := term_frequency_seq db |}, tt).

(** [INSERT INTO term_frequency (document_id, term, frequency, tf_score)],
    under the constraint [UNIQUE(document_id, term)]. *)
Definition insert_term_frequency
    (doc_id : Z) (t : string) (freq : Z) (score : R) (db : database)
  : outcome (database * unit) :=
  if existsb (fun r => (document_id r =? doc_id) && String.eqb (term r) t)
             (term_frequency db)
  then Raise IntegrityError
  else
    match next_rowid (term_frequency_seq db) (map tf_id (term_frequency db)) with
    | Raise e => Raise e
    | Ok rowid =>
        Ok ({| documents := documents db;
               documents_seq := documents_seq db;
               term_frequency :=
                 term_frequency db
                 ++ [{| tf_id := rowid; document_id := doc_id; term := t;
                        frequency := freq; tf_score := score |}];
               term_frequency_seq := rowid |}, tt)
    end.

(** [SELECT COUNT( * ) FROM documents] *)
Definition count_documents (db : database) : Z := Py.len (documents db).

(** *** The order of the rows of a SELECT

    Each UNIQUE constraint of the schema is kept as an index, and SQLite
    answers a statement from an index that holds every column it needs.
    The index of [UNIQUE(filename)] lists the documents by ascending
    file name (byte order) and carries the rowid; the index of
    [UNIQUE(document_id, term)] lists the term rows of one document by
    ascending term.  Grouping sorts the rows by the grouping column. *)
Fixpoint insert_by_filename (d : document) (l : list document) : list document :=
  match l with
  | [] => [d]
  | e :: l' =>
      if String.leb (filename d) (filename e) then d :: l
      else e :: insert_by_filename d l'
  end.

Definition documents_by_filename (db : database) : list document :=
  fold_right insert_by_filename [] (documents db).

Fixpoint insert_by_term (r : term_row) (l : list term_row) : list term_row :=
  match l with
  | [] => [r]
  | e :: l' =>
      if String.leb (term r) (term e) then r :: l
      else e :: insert_by_term r l'
  end.

Definition term_frequency_by_term (db : database) : list term_row :=
  fold_right insert_by_term [] (term_frequency db).

(** [SELECT term, COUNT(DISTINCT document_id) FROM term_frequency
     GROUP BY term]: one row per distinct term, the groups in ascending
    order of the term. *)
Definition distinct_document_ids (t : string) (db : database) : list Z :=
  nodup Z.eq_dec
    (map document_id
         (filter (fun r => String.eqb (term r) t) (term_frequency db))).

Definition doc_freq (db : database) : list (string * Z) :=
  map (fun t => (t, Py.len (distinct_document_ids t db)))
      (nodup string_dec (map term (term_frequency_by_term db))).

(** [SELECT id, filename FROM documents]: both columns are in the index
    of [UNIQUE(filename)], so the rows come in the order of that index,
    by ascending file name, whatever their rowids. *)
Definition select_documents (db : database) : list (Z * string) :=
  map (fun d => (id d, filename d)) (documents_by_filename db).

(** [SELECT tf_score FROM term_frequency WHERE document_id = ? AND
     term = ?] followed by [fetchone()]. *)
Definition select_tf_score (db : database) (doc_id : Z) (t : string)
  : option R :=
  option_map tf_score
    (find (fun r => (document_id r =? doc_id) && String.eqb (term r) t)
          (term_frequency db)).

(** *** Connections and transactions

    A connection sees the file and, once it has written, its own open
    transaction (module [sqlite3] begins one before the first INSERT or
    DELETE).  [commit] publishes the transaction, [rollback] and [close]
    drop it.  [requests] numbers what the connection asked of the
    storage; the oracle [io_error] tells which requests fail. *)
Record connection := {
  file : database;
  transaction : option database;
  requests : nat }.

Definition connect (db : database) : connection :=
  {| file := db; transaction := None; requests := 0 |}.

Definition view (c : connection) : database :=
  match transaction c with Some db => db | None => file c end.

Definition rollback (c : connection) : connection :=
  {| file := file c; transaction := None; requests := requests c |}.

Definition close (c : connection) : database := file c.

Section Storage.
Variable io_error : nat -> bool.

Definition Sql (A : Type) : Type := connection -> outcome A * connection.

Definition ret (A : Type) (a : A) : Sql A := fun c => (Ok a, c).

Definition bind (A B : Type) (m : Sql A) (k : A -> Sql B) : Sql B :=
  fun c =>
    match m c with
    | (Ok a, c') => k a c'
    | (Raise e, c') => (Raise e, c')
    end.

(** [cursor.execute] of a writing statement.  A statement that fails
    changes nothing (SQLite undoes it), the transaction stays open. *)
Definition execute (A : Type) (stmt : database -> outcome (database * A))
  : Sql A :=
  fun c =>
    let n := requests c in
    let db := view c in
    if io_error n
    then (Raise OperationalError,
          {| file := file c; transaction := Some db; requests := S n |})
    else
      match stmt db with
      | Ok (db', a) =>
          (Ok a, {| file := file c; transaction := Some db'; requests := S n |})
      | Raise e =>
          (Raise e, {| file := file c; transaction := Some db; requests := S n |})
      end.

(** [conn.commit()] *)
Definition commit : Sql unit :=
  fun c =>
    let n := requests c in
    if io_error n
    then (Raise OperationalError,
          {| file := file c; transaction := transaction c; requests := S n |})
    else (Ok tt, {| file := view c; transaction := None; requests := S n |}).

(** A [for] loop whose body talks to the database. *)
Fixpoint for_each (A : Type) (xs : list A) (body : A -> Sql unit) : Sql unit :=
  match xs with
  | [] => ret tt
  | x :: xs' => bind (body x) (fun _ => for_each xs' body)
  end.
End Storage.

End Sqlite.

Import Sqlite.

Notation "x <- m ;; k" := (Sqlite.bind m (fun x => k))
  (at level 61, m at next level, right associativity).

(* ================================================================= *)
(** ** Ingestion *)

(** What [PyPDF2] finds at a path: a file it cannot read, or the text of
    each page.  A path is bound iff [os.path.exists] holds for it. *)
Inductive pdf :=
| Unreadable
| Pages (pages : list string).

Definition filesystem := string -> option pdf.

Definition newline : string := String (ascii_of_nat 10) EmptyString.

(** Any exception of the reader is caught and yields the empty text. *)
Definition extract_text_from_pdf (f : pdf) : string :=
  match f with
  | Unreadable => ""
  | Pages pages =>
      Py.strip (fold_left (fun text page => text ++ page ++ newline) pages "")
  end.

Section Ingestion.
Variable fs : filesystem.
Variable io_error : nat -> bool.

(** The body of the [try] block of [process_pdf]. *)
Definition store_document
    (fname text : string) (words : list string) (tf_scores : Py.dict R)
  : Sql unit :=
  document_id <-
    execute io_error (insert_or_replace_document fname text (Py.len words)) ;;
  _ <- execute io_error (delete_term_frequency document_id) ;;
  _ <- for_each (Py.items tf_scores)
         (fun '(term, tf_score) =>
            let frequency := Py.Counter_get (Py.Counter words) term in
            execute io_error
              (insert_term_frequency document_id term frequency tf_score)) ;;
  commit io_error.

(** [process_pdf]: the returned flag, and the database file once the
    connection is closed. *)
Definition process_pdf (pdf_path : string) (db : database) : bool * database :=
  match fs pdf_path with
  | None => (false, db)
  | Some f =>
      let fname := Py.basename pdf_path in
      let text := extract_text_from_pdf f in
      if negb (Py.truthy text) then (false, db)
      else
        let words := preprocess_text text in
        match words with
        | [] => (false, db)
        | _ =>
            let tf_scores := calculate_term_frequency words in
            let conn := connect db in
            match store_document fname text words tf_scores conn with
            | (Ok _, conn') => (true, close conn')
            | (Raise _, conn') => (false, close (rollback conn'))
            end
        end
  end.
End Ingestion.

(* ================================================================= *)
(** ** Queries *)

(** What a query does besides returning: the statements it runs and the
    divisions it evaluates, in order. *)
Inductive event :=
| Select_count_documents
| Select_doc_freq
| Select_documents
| Select_tf_score (doc_id : Z) (t : string)
| Divide (n d : Z).

Definition traced (A : Type) : Type := list event * A.

Definition emit (A : Type) (e : event) (a : A) : traced A := ([e], a).
Definition pure (A : Type) (a : A) : traced A := ([], a).
Definition and_then (A B : Type) (m : traced A) (k : A -> traced B) : traced B :=
  let (t1, a) := m in let (t2, b) := k a in ((t1 ++ t2)%list, b).

Notation "x <~ m ;; k" := (and_then m (fun x => k))
  (at level 61, m at next level, right associativity).

(** A [for] loop that updates one variable. *)
Fixpoint for_loop (A S : Type) (xs : list A) (body : S -> A -> traced S) (s : S)
  : traced S :=
  match xs with
  | [] => pure s
  | x :: xs' => s' <~ body s x ;; for_loop xs' body s'
  end.

Definition calculate_idf (db : database) : traced (Py.dict R) :=
  total_docs <~ emit Select_count_documents (count_documents db) ;;
  if (total_docs =? 0)%Z then pure []
  else
    rows <~ emit Select_doc_freq (doc_freq db) ;;
    for_loop rows
      (fun idf_scores '(term, doc_freq) =>
         ratio <~ emit (Divide total_docs doc_freq)
                       (IZR total_docs / IZR doc_freq)%R ;;
         pure (Py.dict_set idf_scores term (ln ratio)))
      [].

(** The inner loop of [search]: the score of one document. *)
Definition document_score
    (db : database) (idf_scores : Py.dict R) (query_words : list string)
    (doc_id : Z) : traced R :=
  for_loop query_words
    (fun score term =>
       result <~ emit (Select_tf_score doc_id term)
                      (select_tf_score db doc_id term) ;;
       pure (match result, Py.dict_get idf_scores term with
             | Some tf_score, Some idf_score => score + tf_score * idf_score
             | _, _ => score
             end)%R)
    0%R.

Definition search (db : database) (query : string) (top_n : Z)
  : traced (list (string * R)) :=
  let query_words := preprocess_text query in
  match query_words with
  | [] => pure []
  | _ =>
      idf_scores <~ calculate_idf db ;;
      documents <~ emit Select_documents (select_documents db) ;;
      doc_scores <~
        for_loop documents
          (fun doc_scores '(doc_id, filename) =>
             score <~ document_score db idf_scores query_words doc_id ;;
             pure (if Rlt_dec 0 score
                   then Py.dict_set doc_scores filename score
                   else doc_scores))
          [] ;;
      let sorted_results := Py.sorted_reverse snd (Py.items doc_scores) in
      pure (Py.slice_to sorted_results top_n)
  end.

(** [top_n] defaults to 10. *)
Definition search_default (db : database) (query : string) :=
  search db query 10.

(* ================================================================= *)
(** ** Reports *)

(** [str(n)] for an [int], as an f-string prints it. *)
Definition str_of_int (n : Z) : string :=
  DecimalString.NilZero.string_of_int (Z.to_int n).

(** [SELECT filename, word_count FROM documents ORDER BY filename]:
    ascending in the byte order of the names.  File names are unique, so
    the order of the rows is determined. *)
Definition select_documents_by_filename (db : database) : list (string * Z) :=
  map (fun d => (filename d, word_count d))
      (fold_right insert_by_filename [] (documents db)).

Definition rule (n : nat) : string := String.concat "" (repeat "-" n).

(** [list_documents]: the lines it prints, one per call of [print]. *)
Definition list_documents (db : database) : list string :=
  match select_documents_by_filename db with
  | [] => ["No documents in database"]
  | documents =>
      (newline ++ "Documents in database:")
        :: rule 50
        :: map (fun '(fname, wc) => fname ++ " (" ++ str_of_int wc ++ " words)")
               documents
  end.

(** What [get_document_stats] reports about a document: the numbers of
    its header, the preview [content[:200]], and the rows of the list of
    most frequent terms (term, frequency, TF score). *)
Record document_stats := {
  total_words : Z;
  unique_terms : Z;
  content_preview : string;
  top_terms : list (string * Z * R) }.

(** The rows of [term_frequency] joined to the documents of a file
    name ([JOIN documents d ON tf.document_id = d.id WHERE d.filename = ?]). *)
Definition term_rows_of (db : database) (fname : string) : list term_row :=
  filter
    (fun r =>
       existsb (fun d => String.eqb (filename d) fname && (id d =? document_id r)%Z)
               (documents db))
    (term_frequency_by_term db).

(** [ORDER BY frequency DESC]: rows of equal frequency come in the order
    the engine finds them, the order of the index, by ascending term. *)
Fixpoint insert_by_frequency (r : term_row) (l : list term_row) : list term_row :=
  match l with
  | [] => [r]
  | e :: l' =>
      if (frequency r <? frequency e)%Z then e :: insert_by_frequency r l'
      else r :: l
  end.

(** [get_document_stats]: [None] stands for the message that the
    document is not in the database. *)
Definition get_document_stats (db : database) (fname : string)
  : option document_stats :=
  match find (fun d => String.eqb (filename d) fname) (documents db) with
  | None => None
  | Some d =>
      Some {| total_words := word_count d;
              unique_terms :=
                Py.len (filter (fun r => (document_id r =? id d)%Z)
                               (term_frequency db));
              content_preview := substring 0 200 (content d);
              top_terms :=
                map (fun r => (term r, frequency r, tf_score r))
                    (firstn 10
                       (fold_right insert_by_frequency []
                                   (term_rows_of db fname))) |}
  end.

(* ================================================================= *)
(** ** Vocabulary of the properties *)

(** A word: not empty and free of white space. *)
Definition is_word (w : string) : Prop :=
  w <> "" /\ Py.forall_str (fun c => negb (Py.isspace c)) w = true.

(** The characters of a normalised text: lower-case letters and white
    space. *)
Definition plain (c : ascii) : bool := Py.is_lower c || Py.isspace c.

(** A token: a run of lower-case letters that passes the stop-word and
    length test. *)
Definition is_token (w : string) : Prop :=
  Py.forall_str Py.is_lower w = true /\ keep_word w = true.

Definition occurrences (words : list string) (t : string) : nat :=
  count_occ string_dec words t.

(** One step of [Counter(words)]. *)
Definition counter_step (c : Py.dict Z) (w : string) : Py.dict Z :=
  Py.dict_set c w (match Py.dict_get c w with Some n => n + 1 | None => 1 end)%Z.

(** [c] counts the words of [seen]. *)
Definition counts (c : Py.dict Z) (seen : list string) : Prop :=
  NoDup (Py.keys c) /\
  forall t, Py.dict_get c t
            = if Nat.eqb (occurrences seen t) 0 then None
              else Some (Z.of_nat (occurrences seen t)).

(** One storage request: the file is untouched, the request counter
    moves by one, and success means the storage did not fail. *)
Definition one_request (io_error : nat -> bool) (A : Type) (m : Sql A) : Prop :=
  forall c r c',
    m c = (r, c') ->
    file c' = file c
    /\ requests c' = S (requests c)
    /\ (forall a, r = Ok a -> io_error (requests c) = false).

(** The number of storage requests of one ingestion: the document row,
    the DELETE, one INSERT per term, the commit. *)
Definition write_requests (tf_scores : Py.dict R) : nat :=
  3 + List.length tf_scores.

(** The rows a loop of INSERTs leaves behind. *)
Definition appended (doc_id : Z) (entries : Py.dict R) (db db' : database)
  : Prop :=
  documents db' = documents db
  /\ documents_seq db' = documents_seq db
  /\ exists rows,
      term_frequency db' = (term_frequency db ++ rows)%list
      /\ map (fun r => (term r, tf_score r)) rows = entries
      /\ Forall (fun r => document_id r = doc_id) rows.

(** [process_pdf] returned [True]: the new document row replaces the one
    of the same name under a fresh rowid [document_id], the DELETE ran
    for [document_id], and one row per term was appended. *)
Definition ingested (fname text : string) (words : list string)
           (db db' : database) : Prop :=
  exists document_id,
    next_rowid (documents_seq db) (map id (documents db)) = Ok document_id
    /\ documents db'
       = (filter (fun d => negb (String.eqb (filename d) fname)) (documents db)
          ++ [{| id := document_id; filename := fname;
                 content := text; word_count := Py.len words |}])%list
    /\ documents_seq db' = document_id
    /\ exists rows,
        term_frequency db'
        = (filter (fun r => negb (Z.eqb (Sqlite.document_id r) document_id))
                  (term_frequency db) ++ rows)%list
        /\ map (fun r => (term r, tf_score r)) rows
           = calculate_term_frequency words
        /\ Forall (fun r => Sqlite.document_id r = document_id) rows.

(** What the schema and the rowid allocation guarantee in every state
    reached from [init_database]: file names and rowids are unique, no
    row carries a rowid that was never handed out, and stored term
    frequencies are positive. *)
Record consistent (db : database) : Prop := {
  unique_filenames : NoDup (map filename (documents db));
  unique_ids : NoDup (map id (documents db));
  ids_allocated : Forall (fun d => (id d <= documents_seq db)%Z) (documents db);
  refs_allocated :
    Forall (fun r => (document_id r <= documents_seq db)%Z) (term_frequency db);
  scores_positive :
    Forall (fun r => (0 < tf_score r)%R) (term_frequency db) }.

(** The states of the store: a fresh database, and whatever a call of
    [process_pdf] leaves, under any file system and any failures. *)
Inductive reachable : database -> Prop :=
| reachable_init : reachable init_database
| reachable_step fs io_error pdf_path db :
    reachable db -> reachable (snd (process_pdf fs io_error pdf_path db)).

(** Every term row belongs to a current document. *)
Definition referential (db : database) : Prop :=
  Forall (fun r => In (document_id r) (map id (documents db))) (term_frequency db).

Definition contains (db : database) (t : string) (d : document) : bool :=
  existsb (fun r => (document_id r =? id d)%Z && String.eqb (term r) t)
          (term_frequency db).

Definition documents_containing (t : string) (db : database) : list document :=
  filter (contains db t) (documents db).

(** The value parts of the query functions. *)
Definition idf_scores_of (db : database) : Py.dict R := snd (calculate_idf db).

(** What one occurrence of [t] in the query adds to the score of the
    document with rowid [doc_id]. *)
Definition tfidf (db : database) (doc_id : Z) (t : string) : R :=
  match select_tf_score db doc_id t, Py.dict_get (idf_scores_of db) t with
  | Some tf_score, Some idf_score => tf_score * idf_score
  | _, _ => 0
  end.

(** The test [if result and term in idf_scores] of the inner loop of
    [search]: the lookup found a row and the word has a weight. *)
Definition counted (db : database) (doc_id : Z) (t : string) : bool :=
  match select_tf_score db doc_id t with
  | Some _ => Py.dict_mem (idf_scores_of db) t
  | None => false
  end.

Definition score_of (db : database) (query_words : list string) (doc_id : Z) : R :=
  snd (document_score db (idf_scores_of db) query_words doc_id).

Definition doc_scores_of (db : database) (query_words : list string) : Py.dict R :=
  fold_left
    (fun doc_scores '(doc_id, fname) =>
       if Rlt_dec 0 (score_of db query_words doc_id)
       then Py.dict_set doc_scores fname (score_of db query_words doc_id)
       else doc_scores)
    (select_documents db) [].

Definition total (xs : list R) : R := fold_right Rplus 0%R xs.

Definition positive_score (db : database) (query_words : list string)
           (d : document) : bool :=
  if Rlt_dec 0 (score_of db query_words (id d)) then true else false.

(** The order of a ranking: larger key first, and for equal keys the
    element that came [earlier] in the list handed to [sorted]. *)
Definition score_then_position
    (A : Type) (key : A -> R) (earlier : A -> A -> Prop) (a b : A) : Prop :=
  (key b < key a)%R \/ (key a = key b /\ earlier a b).

(** Position of a file name in the rows of [SELECT id, filename FROM
    documents], the order in which [search] visits the documents. *)
Fixpoint index_of (x : string) (l : list string) : nat :=
  match l with
  | [] => 0
  | y :: l' => if String.eqb y x then 0 else S (index_of x l')
  end.

Definition position (db : database) (fname : string) : nat :=
  index_of fname (map snd (select_documents db)).

(** Enough rowids are left for one more document and [terms] more term
    rows ([AUTOINCREMENT] stops at [max_rowid]). *)
Definition rowids_left (db : database) (terms : nat) : Prop :=
  (Z.max (documents_seq db) (largest (map id (documents db))) < max_rowid)%Z
  /\ (Z.max (term_frequency_seq db) (largest (map tf_id (term_frequency db)))
      + Z.of_nat terms <= max_rowid)%Z.

(* ================================================================= *)
(** ** Example stores *)

Module Scenario.

(** A storage that never fails. *)
Definition reliable : nat -> bool := fun _ => false.

(** Two files with three terms each, sharing two of them. *)
Definition fs_two : filesystem :=
  fun path =>
    if String.eqb path "A.pdf" then Some (Pages ["machine learning data"])
    else if String.eqb path "B.pdf" then Some (Pages ["machine learning science"])
    else None.

Definition db_a : database :=
  snd (process_pdf fs_two reliable "A.pdf" init_database).

Definition db_ab : database :=
  snd (process_pdf fs_two reliable "B.pdf" db_a).

(** The same two files, [B.pdf] first: [A.pdf] has the larger rowid and
    the smaller name. *)
Definition db_ba : database :=
  snd (process_pdf fs_two reliable "A.pdf"
         (snd (process_pdf fs_two reliable "B.pdf" init_database))).

(** [A.pdf] is ingested a second time, unchanged. *)
Definition db_aa : database :=
  snd (process_pdf fs_two reliable "A.pdf" db_a).

(** [A.pdf] is ingested a second time with new content. *)
Definition fs_revised : filesystem :=
  fun path =>
    if String.eqb path "A.pdf" then Some (Pages ["deep networks"])
    else None.

Definition db_a_revised : database :=
  snd (process_pdf fs_revised reliable "A.pdf" db_a).

(** [A.pdf] about neural networks, [B.pdf], then a revision of
    [A.pdf]. *)
Definition fs_first : filesystem :=
  fun path =>
    if String.eqb path "A.pdf" then Some (Pages ["neural networks"])
    else if String.eqb path "B.pdf" then Some (Pages ["neural systems"])
    else None.

Definition fs_second : filesystem :=
  fun path =>
    if String.eqb path "A.pdf" then Some (Pages ["graph neural"])
    else None.

Definition db_graph : database :=
  snd (process_pdf fs_second reliable "A.pdf"
         (snd (process_pdf fs_first reliable "B.pdf"
                 (snd (process_pdf fs_first reliable "A.pdf" init_database))))).

End Scenario.

(* ================================================================= *)
(** * Properties *)

(** ** The tokenizer *)

Section TokenizerFacts.
Import Py.

Lemma lower_char_not_upper c : is_upper (lower_char c) = false.
Proof. destruct c as [[] [] [] [] [] [] [] []]; reflexivity. Qed.

Lemma lower_char_fixes_lower c : is_lower c = true -> lower_char c = c.
Proof. destruct c as [[] [] [] [] [] [] [] []]; intro H; try reflexivity; discriminate H. Qed.

Lemma lower_char_fixes_space c : isspace c = true -> lower_char c = c.
Proof. destruct c as [[] [] [] [] [] [] [] []]; intro H; try reflexivity; discriminate H. Qed.

Lemma lower_not_space c : is_lower c = true -> isspace c = false.
Proof. destruct c as [[] [] [] [] [] [] [] []]; intro H; try reflexivity; discriminate H. Qed.

Lemma forall_str_impl (p q : ascii -> bool) s :
  (forall c, p c = true -> q c = true) ->
  forall_str p s = true -> forall_str q s = true.
Proof.
  intros Hpq; induction s as [|c s IH]; simpl; [reflexivity|].
  rewrite !andb_true_iff; intros [Hc Hs]; auto.
Qed.

Lemma forall_str_app p s t :
  forall_str p (s ++ t) = forall_str p s && forall_str p t.
Proof.
  induction s as [|c s IH]; simpl; [reflexivity|].
  now rewrite IH, andb_assoc.
Qed.

Lemma forall_str_map p f s :
  (forall c, p (f c) = true) -> forall_str p (map_str f s) = true.
Proof.
  intros Hf; induction s as [|c s IH]; simpl; [reflexivity|].
  now rewrite Hf, IH.
Qed.

Lemma forall_str_filter p s : forall_str p (filter_str p s) = true.
Proof.
  induction s as [|c s IH]; simpl; [reflexivity|].
  destruct (p c) eqn:E; simpl; [now rewrite E|assumption].
Qed.

Lemma forall_str_filter_keeps p q s :
  forall_str p s = true -> forall_str p (filter_str q s) = true.
Proof.
  induction s as [|c s IH]; simpl; [reflexivity|].
  rewrite andb_true_iff; intros [Hc Hs].
  destruct (q c); simpl; [rewrite Hc|]; auto.
Qed.

Lemma filter_str_id p s : forall_str p s = true -> filter_str p s = s.
Proof.
  induction s as [|c s IH]; simpl; [reflexivity|].
  rewrite andb_true_iff; intros [Hc Hs].
  now rewrite Hc, IH.
Qed.

Lemma map_str_id p f s :
  (forall c, p c = true -> f c = c) ->
  forall_str p s = true -> map_str f s = s.
Proof.
  intros Hf; induction s as [|c s IH]; simpl; [reflexivity|].
  rewrite andb_true_iff; intros [Hc Hs].
  now rewrite (Hf _ Hc), IH.
Qed.

Lemma lower_re_sub_plain s :
  forall_str plain (re_sub_non_letters (lower s)) = true.
Proof.
  unfold re_sub_non_letters, lower.
  assert (H1 : forall_str (fun c => negb (is_upper c))
                 (filter_str (fun c => is_letter c || isspace c)
                             (map_str lower_char s)) = true).
  { apply forall_str_filter_keeps, forall_str_map.
    intro c; now rewrite lower_char_not_upper. }
  pose proof (forall_str_filter (fun c => is_letter c || isspace c)
                (map_str lower_char s)) as H2.
  revert H1 H2.
  generalize (filter_str (fun c => is_letter c || isspace c)
                         (map_str lower_char s)) as t.
  induction t as [|c t IH]; simpl; [reflexivity|].
  rewrite !andb_true_iff; intros [Hu Ht] [Hl Ht'].
  split; [|auto].
  unfold plain, is_letter in *.
  destruct (is_upper c); [discriminate|].
  now rewrite orb_false_r in Hl.
Qed.

(** [split] returns words, and words made of the characters it was
    given. *)
Lemma split_words p s :
  forall_str p s = true ->
  Forall (fun w => is_word w /\ forall_str p w = true) (split s).
Proof.
  induction s as [|c s IH]; simpl; [constructor|].
  rewrite andb_true_iff; intros [Hc Hs]. specialize (IH Hs).
  destruct (isspace c) eqn:Ec; [assumption|].
  assert (Hone : is_word (String c "") /\ forall_str p (String c "") = true).
  { repeat split; simpl; [discriminate|now rewrite Ec|now rewrite Hc]. }
  destruct (starts_word s).
  - destruct (split s) as [|w ws]; [constructor; [exact Hone|constructor]|].
    inversion IH as [|? ? [[Hne Hw] Hp] Hws]; subst.
    constructor; [|assumption].
    repeat split; simpl; [discriminate|now rewrite Ec, Hw|now rewrite Hc, Hp].
  - constructor; assumption.
Qed.

Lemma lstrip_word w : is_word w -> lstrip w = w.
Proof.
  intros [Hne Hw]; destruct w as [|c w]; [reflexivity|].
  simpl in *. apply andb_true_iff in Hw as [Hc _].
  now apply negb_true_iff in Hc; rewrite Hc.
Qed.

Lemma rstrip_word w :
  forall_str (fun c => negb (isspace c)) w = true -> rstrip w = w.
Proof.
  induction w as [|c w IH]; simpl; [reflexivity|].
  rewrite andb_true_iff; intros [Hc Hw]. rewrite (IH Hw).
  apply negb_true_iff in Hc; rewrite Hc. now destruct w.
Qed.

Lemma strip_word w : is_word w -> strip w = w.
Proof.
  intros H; unfold strip. rewrite (lstrip_word H). apply rstrip_word, H.
Qed.

(** On the output of [split] the comprehension
    [[word.strip() for word in ... if word.strip()]] changes nothing. *)
Lemma strip_comprehension_id ws :
  Forall is_word ws ->
  map strip (filter (fun word => truthy (strip word)) ws) = ws.
Proof.
  induction 1 as [|w ws Hw _ IH]; simpl; [reflexivity|].
  rewrite (strip_word Hw).
  destruct w as [|c w]; [now destruct Hw|]. simpl truthy. cbv iota.
  simpl. now rewrite (strip_word Hw), IH.
Qed.

Lemma preprocess_text_unfold text :
  preprocess_text text
  = filter keep_word (split (re_sub_non_letters (lower text))).
Proof.
  unfold preprocess_text. f_equal. apply strip_comprehension_id.
  pose proof (split_words plain _ (lower_re_sub_plain text)) as H.
  eapply Forall_impl; [|exact H]. now intros w [Hw _].
Qed.

(** Every token is a non-empty run of lower-case letters that passes
    the stop-word and length test. *)
Lemma preprocess_text_tokens text : Forall is_token (preprocess_text text).
Proof.
  rewrite preprocess_text_unfold.
  pose proof (split_words plain _ (lower_re_sub_plain text)) as H.
  apply Forall_forall; intros w Hin.
  apply filter_In in Hin as [Hin Hk].
  rewrite Forall_forall in H. destruct (H w Hin) as [[_ Hns] Hp].
  split; [|assumption].
  clear - Hns Hp. induction w as [|c w IH]; simpl in *; [reflexivity|].
  apply andb_true_iff in Hns as [Hc Hns], Hp as [Hpc Hp].
  rewrite (IH Hns Hp), andb_true_r.
  unfold plain in Hpc. apply negb_true_iff in Hc.
  now rewrite Hc, orb_false_r in Hpc.
Qed.

Lemma token_is_word w : is_token w -> is_word w.
Proof.
  intros [Hl Hk]; split.
  - intros ->. discriminate Hk.
  - eapply forall_str_impl; [|exact Hl].
    intros c Hc. now rewrite (lower_not_space c Hc).
Qed.

Lemma token_plain w : is_token w -> forall_str plain w = true.
Proof.
  intros [Hl _]. eapply forall_str_impl; [|exact Hl].
  intros c Hc. unfold plain. now rewrite Hc.
Qed.

Lemma join_plain ws :
  Forall is_token ws -> forall_str plain (join " " ws) = true.
Proof.
  unfold join.
  induction 1 as [|w ws Hw Hws IH]; [reflexivity|].
  destruct ws as [|w' ws']; simpl String.concat.
  - now apply token_plain.
  - rewrite forall_str_app, (token_plain Hw). simpl. exact IH.
Qed.

Lemma split_word_then w rest :
  is_word w -> starts_word rest = false ->
  split (w ++ rest) = w :: split rest.
Proof.
  intros [Hne Hw] Hrest. induction w as [|c w IH]; [now elim Hne|].
  simpl in Hw. apply andb_true_iff in Hw as [Hc Hw].
  apply negb_true_iff in Hc. simpl. rewrite Hc.
  destruct w as [|d w].
  - simpl. now rewrite Hrest.
  - assert (Hd : starts_word (String d w ++ rest) = true).
    { simpl in Hw |- *. now apply andb_true_iff in Hw as [Hd _]. }
    rewrite Hd, IH; [reflexivity|discriminate|assumption].
Qed.

Lemma split_join ws : Forall is_word ws -> split (join " " ws) = ws.
Proof.
  unfold join.
  induction 1 as [|w ws Hw Hws IH]; [reflexivity|].
  destruct ws as [|w' ws']; simpl String.concat.
  - assert (E : w ++ "" = w).
    { clear. induction w as [|c w IH]; simpl; [reflexivity|now rewrite IH]. }
    rewrite <- E at 1. exact (split_word_then "" Hw eq_refl).
  - change (" " ++ String.concat " " (w' :: ws'))
      with (String " " (String.concat " " (w' :: ws'))).
    rewrite (split_word_then _ Hw); [|reflexivity].
    f_equal. exact IH.
Qed.

Lemma filter_all (A : Type) (f : A -> bool) l :
  Forall (fun x => f x = true) l -> filter f l = l.
Proof.
  induction 1 as [|x l Hx _ IH]; simpl; [reflexivity|]. now rewrite Hx, IH.
Qed.

Lemma preprocess_text_of_tokens ws :
  Forall is_token ws -> preprocess_text (tokens_to_text ws) = ws.
Proof.
  intros H. rewrite preprocess_text_unfold. unfold tokens_to_text.
  pose proof (join_plain H) as Hp.
  unfold lower. rewrite map_str_id with (p := plain); [|
    intros c Hc; apply orb_true_iff in Hc as [Hc|Hc];
    [now apply lower_char_fixes_lower|now apply lower_char_fixes_space] | exact Hp].
  unfold re_sub_non_letters. rewrite filter_str_id.
  - rewrite split_join.
    + apply filter_all. eapply Forall_impl; [|exact H]. now intros w [_ Hk].
    + eapply Forall_impl; [|exact H]. exact token_is_word.
  - eapply forall_str_impl; [|exact Hp].
    intros c Hc. unfold plain, is_letter in *.
    apply orb_true_iff in Hc as [Hc|Hc]; rewrite Hc; [reflexivity|apply orb_true_r].
Qed.
End TokenizerFacts.

(** C8. The tokenizer is idempotent after one pass: tokenizing the
    white-space-joined output of [preprocess_text s] gives back exactly
    [preprocess_text s], for every text [s]. *)
Theorem preprocess_text_idempotent (s : string) :
  preprocess_text (tokens_to_text (preprocess_text s)) = preprocess_text s.
Proof. apply preprocess_text_of_tokens, preprocess_text_tokens. Qed.

(** ** Dictionaries and counters *)

Section DictFacts.
Import Py.
Variable V : Type.
Implicit Types (d : dict V) (k : string) (v : V).

Lemma dict_get_set d k v k' :
  dict_get (dict_set d k v) k'
  = if String.eqb k k' then Some v else dict_get d k'.
Proof.
  induction d as [|[k0 v0] d IH]; simpl.
  - reflexivity.
  - destruct (String.eqb k0 k) eqn:E0; simpl.
    + apply String.eqb_eq in E0; subst k0.
      now destruct (String.eqb k k').
    + rewrite IH. destruct (String.eqb k0 k') eqn:E1; [|reflexivity].
      apply String.eqb_eq in E1; subst k0.
      rewrite String.eqb_sym in E0. now rewrite E0.
Qed.

Lemma dict_get_None d k : dict_get d k = None <-> ~ In k (keys d).
Proof.
  unfold keys. induction d as [|[k0 v0] d IH]; simpl; [tauto|].
  destruct (String.eqb k0 k) eqn:E.
  - apply String.eqb_eq in E. split; [discriminate|]. intros H; elim H; auto.
  - apply String.eqb_neq in E. rewrite IH. tauto.
Qed.

Lemma dict_get_Some_In d k v : dict_get d k = Some v -> In (k, v) d.
Proof.
  induction d as [|[k0 v0] d IH]; simpl; [discriminate|].
  destruct (String.eqb k0 k) eqn:E.
  - apply String.eqb_eq in E. intros [= ->]. left. now subst.
  - auto.
Qed.

Lemma In_dict_get d k v :
  NoDup (keys d) -> In (k, v) d -> dict_get d k = Some v.
Proof.
  unfold keys. induction d as [|[k0 v0] d IH]; simpl; [tauto|].
  intros Hnd [E|Hin].
  - injection E as -> ->. now rewrite String.eqb_refl.
  - inversion Hnd as [|? ? Hk0 Hnd']; subst.
    destruct (String.eqb k0 k) eqn:E; [|auto].
    apply String.eqb_eq in E; subst k0.
    elim Hk0. apply in_map_iff. now exists (k, v).
Qed.

(** Assigning to a new key appends; the keys already there stay. *)
Lemma dict_set_fresh d k v :
  ~ In k (keys d) -> dict_set d k v = (d ++ [(k, v)])%list.
Proof.
  unfold keys. induction d as [|[k0 v0] d IH]; simpl; [reflexivity|].
  intros H. destruct (String.eqb k0 k) eqn:E.
  - apply String.eqb_eq in E. elim H; auto.
  - rewrite IH; [reflexivity|tauto].
Qed.

Lemma keys_dict_set d k v :
  keys (dict_set d k v)
  = if dict_mem d k then keys d else (keys d ++ [k])%list.
Proof.
  unfold dict_mem, keys. induction d as [|[k0 v0] d IH]; simpl; [reflexivity|].
  destruct (String.eqb k0 k) eqn:E; simpl; [reflexivity|].
  rewrite IH. now destruct (dict_get d k).
Qed.

Lemma dict_mem_In d k : dict_mem d k = true <-> In k (keys d).
Proof.
  unfold dict_mem. pose proof (dict_get_None d k) as H.
  destruct (dict_get d k).
  - split; [intros _|reflexivity].
    destruct (in_dec string_dec k (keys d)) as [Hi|Hn]; [assumption|].
    apply H in Hn; discriminate.
  - split; [discriminate|]. intros Hi. now apply H in Hi.
Qed.

Lemma In_keys_dict_set d k v k' :
  In k' (keys (dict_set d k v)) <-> k' = k \/ In k' (keys d).
Proof.
  rewrite keys_dict_set. destruct (dict_mem d k) eqn:E.
  - apply dict_mem_In in E. split; [tauto|]. intros [->|H]; assumption.
  - rewrite in_app_iff. simpl. intuition.
Qed.

Lemma NoDup_keys_dict_set d k v :
  NoDup (keys d) -> NoDup (keys (dict_set d k v)).
Proof.
  intros H. rewrite keys_dict_set. destruct (dict_mem d k) eqn:E; [assumption|].
  assert (Hn : ~ In k (keys d)).
  { intros Hi. apply dict_mem_In in Hi. congruence. }
  apply NoDup_app; [assumption|repeat constructor; simpl; tauto|].
  intros x Hx [<-|[]]. contradiction.
Qed.
End DictFacts.

Section CounterFacts.
Import Py.

Lemma occurrences_snoc seen w t :
  occurrences (seen ++ [w]) t
  = (occurrences seen t + if String.eqb w t then 1 else 0)%nat.
Proof.
  unfold occurrences. rewrite count_occ_app. simpl.
  destruct (string_dec w t) as [->|Hn].
  - now rewrite String.eqb_refl.
  - apply String.eqb_neq in Hn. now rewrite Hn.
Qed.

Lemma counts_step c seen w :
  counts c seen -> counts (counter_step c w) (seen ++ [w]).
Proof.
  intros [Hnd Hc]. split; [now apply NoDup_keys_dict_set|].
  intros t. unfold counter_step.
  rewrite dict_get_set, occurrences_snoc.
  destruct (String.eqb w t) eqn:E.
  - apply String.eqb_eq in E; subst t. rewrite Hc.
    destruct (occurrences seen w) as [|n]; simpl.
    + reflexivity.
    + rewrite Nat.add_1_r. simpl Nat.eqb. cbv iota. f_equal. lia.
  - rewrite Nat.add_0_r. apply Hc.
Qed.

Lemma counts_fold words : forall c seen,
  counts c seen ->
  counts (fold_left counter_step words c) (seen ++ words).
Proof.
  induction words as [|w words IH]; intros c seen H; simpl.
  - now rewrite app_nil_r.
  - replace (seen ++ w :: words)%list with ((seen ++ [w]) ++ words)%list
      by (now rewrite <- app_assoc).
    apply IH, counts_step, H.
Qed.

Lemma Counter_counts words : counts (Counter words) words.
Proof.
  apply (counts_fold words (c := []) (seen := [])).
  split; [constructor|reflexivity].
Qed.

Lemma In_keys_Counter words t : In t (keys (Counter words)) <-> In t words.
Proof.
  destruct (Counter_counts words) as [_ H]. specialize (H t).
  unfold occurrences in H.
  rewrite (count_occ_In string_dec words t).
  split.
  - intros Hi. destruct (count_occ string_dec words t); [|lia].
    simpl in H. apply dict_get_None in H. contradiction.
  - intros Hpos. destruct (in_dec string_dec t (keys (Counter words))) as [|Hn];
      [assumption|].
    apply dict_get_None in Hn. rewrite Hn in H.
    destruct (count_occ string_dec words t); [lia|discriminate].
Qed.

(** Filling a dictionary from the items of another one with distinct
    keys maps the values and keeps the order. *)
Lemma fold_dict_set_map (A B : Type) (f : A -> B) (src : dict A) :
  forall acc : dict B,
    NoDup (keys acc ++ keys src) ->
    fold_left (fun d '(k, v) => dict_set d k (f v)) src acc
    = (acc ++ map (fun '(k, v) => (k, f v)) src)%list.
Proof.
  unfold keys. induction src as [|[k v] src IH]; intros acc H; simpl.
  - now rewrite app_nil_r.
  - simpl in H. rewrite dict_set_fresh.
    + rewrite IH.
      * now rewrite <- app_assoc.
      * rewrite map_app. simpl. rewrite <- app_assoc. exact H.
    + apply NoDup_remove_2 in H. unfold keys. rewrite in_app_iff in H. tauto.
Qed.

Lemma calculate_term_frequency_map words :
  calculate_term_frequency words
  = map (fun '(w, count) => (w, (IZR count / IZR (len words))%R))
        (Counter words).
Proof.
  unfold calculate_term_frequency, items.
  rewrite (fold_dict_set_map (fun count => (IZR count / IZR (len words))%R)).
  - reflexivity.
  - apply Counter_counts.
Qed.

Lemma keys_calculate_term_frequency words :
  keys (calculate_term_frequency words) = keys (Counter words).
Proof.
  rewrite calculate_term_frequency_map. unfold keys. rewrite map_map.
  apply map_ext. now intros [w c].
Qed.

Lemma dict_get_map (A B : Type) (f : A -> B) (d : dict A) k :
  dict_get (map (fun '(k, v) => (k, f v)) d) k = option_map f (dict_get d k).
Proof.
  induction d as [|[k0 v0] d IH]; simpl; [reflexivity|].
  now destruct (String.eqb k0 k).
Qed.

Lemma calculate_term_frequency_get words t :
  dict_get (calculate_term_frequency words) t
  = if Nat.eqb (occurrences words t) 0 then None
    else Some (INR (occurrences words t) / INR (List.length words))%R.
Proof.
  rewrite calculate_term_frequency_map.
  rewrite (dict_get_map (fun count => (IZR count / IZR (len words))%R)).
  destruct (Counter_counts words) as [_ H]. rewrite H.
  destruct (Nat.eqb (occurrences words t) 0); [reflexivity|].
  simpl. unfold len. now rewrite <- !INR_IZR_INZ.
Qed.
End CounterFacts.

(** C2. For a non-empty token sequence of length [L] in which a term
    occurs exactly [k] times ([k >= 1]), [calculate_term_frequency] maps
    the term to exactly [k / L]; the keys of its result are exactly the
    distinct terms of the sequence, each once. *)
Theorem calculate_term_frequency_exact
    (words : list string) (t : string) (k L : nat) :
  words <> [] ->
  List.length words = L ->
  count_occ string_dec words t = k ->
  (0 < k)%nat ->
  Py.dict_get (calculate_term_frequency words) t = Some (INR k / INR L)%R
  /\ (forall u, In u (Py.keys (calculate_term_frequency words)) <-> In u words)
  /\ NoDup (Py.keys (calculate_term_frequency words)).
Proof.
  intros _ HL Hk Hpos. split; [|split].
  - rewrite calculate_term_frequency_get. unfold occurrences.
    rewrite Hk, HL. destruct k; [lia|reflexivity].
  - intros u. rewrite keys_calculate_term_frequency. apply In_keys_Counter.
  - rewrite keys_calculate_term_frequency. apply Counter_counts.
Qed.

Lemma calculate_term_frequency_exact_witness :
  Py.dict_get (calculate_term_frequency ["data"; "machine"; "data"]) "data"
  = Some (INR 2 / INR 3)%R
  /\ (forall u, In u (Py.keys (calculate_term_frequency ["data"; "machine"; "data"]))
                <-> In u ["data"; "machine"; "data"])
  /\ NoDup (Py.keys (calculate_term_frequency ["data"; "machine"; "data"])).
Proof.
  apply (@calculate_term_frequency_exact ["data"; "machine"; "data"] "data" 2 3).
  - discriminate.
  - reflexivity.
  - reflexivity.
  - lia.
Defined.

(** ** Transactions *)

Section TransactionFacts.
Variable io_error : nat -> bool.

Lemma execute_one_request (A : Type) (stmt : database -> outcome (database * A)) :
  one_request io_error (execute io_error stmt).
Proof.
  intros c r c'. unfold execute.
  destruct (io_error (requests c)) eqn:E.
  - intros [= <- <-]. repeat split. discriminate.
  - destruct (stmt (view c)) as [[db' a]|e]; intros [= <- <-];
      repeat split.
Qed.

Lemma for_each_requests (A : Type) (body : A -> Sql unit) (xs : list A) :
  (forall x, one_request io_error (body x)) ->
  forall c r c',
    for_each xs body c = (r, c') ->
    file c' = file c
    /\ (forall u, r = Ok u ->
        requests c' = (requests c + List.length xs)%nat
        /\ forall n, (requests c <= n < requests c + List.length xs)%nat ->
                     io_error n = false).
Proof.
  intros Hbody. induction xs as [|x xs IH]; intros c r c'; simpl.
  - unfold ret. intros [= <- <-]. split; [reflexivity|].
    intros _ _. split; [lia|]. intros n Hn. lia.
  - unfold bind. destruct (body x c) as [[[]|e] c1] eqn:E1.
    + destruct (Hbody x c _ _ E1) as (Hf & Hr & Hok).
      intros E2. destruct (IH _ _ _ E2) as [Hf2 Hok2].
      split; [congruence|].
      intros u ->. destruct (Hok2 _ eq_refl) as [Hr2 Hn2].
      split; [lia|]. intros n Hn.
      destruct (Nat.eq_dec n (requests c)) as [->|Hne].
      * now apply (Hok tt).
      * apply Hn2. lia.
    + intros [= <- <-]. destruct (Hbody x c _ _ E1) as (Hf & _).
      split; [assumption|]. discriminate.
Qed.

Lemma commit_requests c r c' :
  commit io_error c = (r, c') ->
  (forall e, r = Raise e -> file c' = file c)
  /\ (forall u, r = Ok u -> io_error (requests c) = false /\ file c' = view c).
Proof.
  unfold commit. destruct (io_error (requests c)) eqn:E; intros [= <- <-].
  - split; [reflexivity|discriminate].
  - split; [discriminate|]. intros _ _. now split.
Qed.

Lemma store_document_requests fname text words tf_scores c r c' :
  store_document io_error fname text words tf_scores c = (r, c') ->
  (forall e, r = Raise e -> file c' = file c)
  /\ (forall u, r = Ok u ->
      forall n, (requests c <= n < requests c + write_requests tf_scores)%nat ->
                io_error n = false).
Proof.
  unfold store_document, write_requests, bind at 1.
  destruct (execute io_error (insert_or_replace_document fname text (Py.len words)) c)
    as [[doc_id|e] c1] eqn:E1;
    destruct (execute_one_request _ _ E1) as (Hf1 & Hr1 & Hok1).
  2:{ intros [= <- <-]. split; [now intros|discriminate]. }
  unfold bind at 1.
  destruct (execute io_error (delete_term_frequency doc_id) c1)
    as [[[]|e] c2] eqn:E2;
    destruct (execute_one_request _ _ E2) as (Hf2 & Hr2 & Hok2).
  2:{ intros [= <- <-]. split; [intros; congruence|discriminate]. }
  unfold bind at 1.
  match goal with
  | |- context [for_each ?xs ?body c2] =>
      destruct (for_each xs body c2) as [[[]|e] c3] eqn:E3;
      assert (H3 := for_each_requests body xs)
  end.
  all: match type of H3 with
       | ?P -> _ =>
           assert (Hb : P) by (intros [t s]; apply execute_one_request);
           destruct (H3 Hb _ _ _ E3) as (Hf3 & Hok3); clear H3 Hb
       end.
  2:{ intros [= <- <-]. split; [intros; congruence|discriminate]. }
  destruct (Hok3 _ eq_refl) as [Hr3 Hn3]. unfold Py.items in *.
  intros E4. destruct (commit_requests _ E4) as [Hraise Hok4].
  split.
  - intros e ->. rewrite (Hraise _ eq_refl). congruence.
  - intros u ->. destruct (Hok4 _ eq_refl) as [Hc _].
    intros n Hn.
    destruct (Nat.eq_dec n (requests c)) as [->|N1]; [now apply (Hok1 doc_id)|].
    destruct (Nat.eq_dec n (requests c1)) as [->|N2]; [now apply (Hok2 tt)|].
    destruct (Nat.eq_dec n (requests c3)) as [->|N3]; [assumption|].
    apply Hn3. lia.
Qed.
End TransactionFacts.

(** C9. If the storage fails on any request of the write phase of
    [process_pdf] (the document row, the DELETE, one of the term rows, or
    the commit), the transaction is rolled back: [process_pdf] returns
    [False] and the database file is exactly what it was, the previous
    version of a re-ingested document included. *)
Theorem process_pdf_rollback
    (fs : filesystem) (io_error : nat -> bool) (pdf_path : string)
    (db : database) (f : pdf) (n : nat) :
  fs pdf_path = Some f ->
  (n < write_requests
         (calculate_term_frequency (preprocess_text (extract_text_from_pdf f))))%nat ->
  io_error n = true ->
  process_pdf fs io_error pdf_path db = (false, db).
Proof.
  intros Hfs Hn Herr. unfold process_pdf. rewrite Hfs.
  destruct (negb (Py.truthy (extract_text_from_pdf f))); [reflexivity|].
  destruct (preprocess_text (extract_text_from_pdf f)) as [|w ws] eqn:Ew;
    [reflexivity|].
  match goal with
  | |- context [store_document ?io ?a ?b ?c ?d ?e] =>
      destruct (store_document io a b c d e) as [[u|e'] c'] eqn:E;
      destruct (@store_document_requests io_error _ _ _ _ _ _ _ E) as [Hraise Hok]
  end.
  - specialize (Hok u eq_refl n). simpl in Hok.
    rewrite Hok in Herr; [discriminate|]. simpl in Hn. lia.
  - unfold close, rollback. simpl. now rewrite (Hraise e' eq_refl).
Qed.

(** ** What a successful ingestion writes *)

Section CommitFacts.
Variable io_error : nat -> bool.

Lemma execute_ok_view (A : Type) (stmt : database -> outcome (database * A))
      c a c' :
  execute io_error stmt c = (Ok a, c') -> stmt (view c) = Ok (view c', a).
Proof.
  unfold execute. destruct (io_error (requests c)); [discriminate|].
  destruct (stmt (view c)) as [[db' a']|e]; [|discriminate].
  now intros [= <- <-].
Qed.

Lemma insert_loop_appends doc_id (freq : string -> Z) entries :
  forall c c',
    for_each entries
      (fun '(t, s) =>
         execute io_error (insert_term_frequency doc_id t (freq t) s)) c
    = (Ok tt, c') ->
    appended doc_id entries (view c) (view c').
Proof.
  induction entries as [|[t s] entries IH]; intros c c'; simpl.
  - unfold ret. intros [= <-]. repeat split. exists []. rewrite app_nil_r.
    repeat split. constructor.
  - unfold bind.
    destruct (execute io_error (insert_term_frequency doc_id t (freq t) s) c)
      as [[[]|e] c1] eqn:E1; [|discriminate].
    intros E2. apply execute_ok_view in E1.
    destruct (IH _ _ E2) as (Hd & Hs & rows & Hr & Hm & Hall).
    unfold insert_term_frequency in E1.
    destruct (existsb _ _); [discriminate|].
    destruct (next_rowid _ _) as [rowid|e]; [|discriminate].
    injection E1 as E1. rewrite <- E1 in Hd, Hs, Hr. simpl in Hd, Hs, Hr.
    repeat split; [assumption..|].
    eexists (_ :: rows). repeat split.
    + rewrite Hr, <- app_assoc. reflexivity.
    + simpl. now rewrite Hm.
    + constructor; [reflexivity|assumption].
Qed.

Lemma store_document_commits fname text words db c' :
  store_document io_error fname text words
                 (calculate_term_frequency words) (connect db) = (Ok tt, c') ->
  ingested fname text words db (close c').
Proof.
  unfold store_document, bind at 1.
  destruct (execute io_error
              (insert_or_replace_document fname text (Py.len words)) (connect db))
    as [[doc_id|e] c1] eqn:E1; [|discriminate].
  apply execute_ok_view in E1. unfold bind at 1.
  destruct (execute io_error (delete_term_frequency doc_id) c1)
    as [[[]|e] c2] eqn:E2; [|discriminate].
  apply execute_ok_view in E2. unfold bind at 1.
  match goal with
  | |- context [for_each ?xs ?body c2] =>
      destruct (for_each xs body c2) as [[[]|e] c3] eqn:E3; [|discriminate]
  end.
  apply (insert_loop_appends doc_id
           (fun t => Py.Counter_get (Py.Counter words) t)) in E3.
  destruct E3 as (Hd & Hs & rows & Hr & Hm & Hall).
  intros E4. destruct (commit_requests _ _ E4) as [_ Hok].
  destruct (Hok tt eq_refl) as [_ Hfile]. unfold close. rewrite Hfile.
  unfold insert_or_replace_document in E1.
  change (view (connect db)) with db in E1.
  destruct (next_rowid (documents_seq db) (map id (documents db)))
    as [rowid|e] eqn:En; [|discriminate].
  injection E1 as E1 <-.
  unfold delete_term_frequency in E2. injection E2 as E2.
  rewrite <- E2 in Hd, Hs, Hr. simpl in Hd, Hs, Hr.
  rewrite <- E1 in Hd, Hs, Hr. simpl in Hd, Hs, Hr.
  exists rowid. repeat split; [assumption..|].
  exists rows. repeat split; assumption.
Qed.
End CommitFacts.

Lemma process_pdf_true fs io_error pdf_path db db' :
  process_pdf fs io_error pdf_path db = (true, db') ->
  exists f,
    fs pdf_path = Some f
    /\ preprocess_text (extract_text_from_pdf f) <> []
    /\ ingested (Py.basename pdf_path) (extract_text_from_pdf f)
                (preprocess_text (extract_text_from_pdf f)) db db'.
Proof.
  unfold process_pdf. destruct (fs pdf_path) as [f|]; [|discriminate].
  destruct (negb (Py.truthy (extract_text_from_pdf f))); [discriminate|].
  destruct (preprocess_text (extract_text_from_pdf f)) as [|w ws] eqn:Ew;
    [discriminate|].
  match goal with
  | |- context [store_document ?io ?a ?b ?c ?d ?e] =>
      destruct (store_document io a b c d e) as [[[]|e'] c'] eqn:E;
        [|discriminate]
  end.
  intros [= <-]. exists f. repeat split; [rewrite Ew; discriminate|].
  rewrite Ew. eapply store_document_commits, E.
Qed.

(** ** Invariants of the store *)

Lemma calculate_term_frequency_positive words :
  Forall (fun e => (0 < snd e)%R) (calculate_term_frequency words).
Proof.
  apply Forall_forall. intros [w v] Hin. simpl.
  assert (Hnd : NoDup (Py.keys (calculate_term_frequency words))).
  { rewrite keys_calculate_term_frequency. apply Counter_counts. }
  apply (@In_dict_get _ _ _ _ Hnd) in Hin.
  rewrite calculate_term_frequency_get in Hin.
  destruct (Nat.eqb (occurrences words w) 0) eqn:E; [discriminate|].
  injection Hin as <-. apply Nat.eqb_neq in E.
  pose proof (count_occ_bound string_dec w words) as Hb.
  unfold occurrences in *.
  apply Rdiv_lt_0_compat; apply lt_0_INR; lia.
Qed.

Lemma largest_bound ids (m : Z) :
  Forall (fun i => (i <= m)%Z) ids -> (0 <= m)%Z -> (largest ids <= m)%Z.
Proof. induction 1; simpl; intros; [assumption|]. apply Z.max_lub; auto. Qed.

Lemma next_rowid_fresh seq ids rowid :
  next_rowid seq ids = Ok rowid ->
  (seq < rowid)%Z /\ Forall (fun i => (i < rowid)%Z) ids.
Proof.
  unfold next_rowid. destruct (Z.eqb _ _); [discriminate|].
  intros [= <-]. split; [lia|].
  induction ids as [|i ids IH]; constructor; simpl in *.
  - lia.
  - eapply Forall_impl; [|exact IH]. simpl. intros; lia.
Qed.

Lemma NoDup_map_filter (A B : Type) (keep : A -> bool) (g : A -> B) rows :
  NoDup (map g rows) -> NoDup (map g (filter keep rows)).
Proof.
  induction rows as [|x rows IH]; simpl; [auto|].
  intros H. inversion H as [|? ? Hx Hl]; subst.
  destruct (keep x); simpl; [|auto].
  constructor; [|auto]. intros Hin. apply Hx.
  apply in_map_iff in Hin as (y & Hy & Hin). apply filter_In in Hin as [Hin _].
  apply in_map_iff. now exists y.
Qed.

Lemma ingested_consistent fname text words db db' :
  consistent db -> ingested fname text words db db' -> consistent db'.
Proof.
  intros [Hfn Hid Hids Hrefs Hpos]
         (rowid & Hnext & Hdocs & Hseq & rows & Hrows & Hmap & Hall).
  destruct (next_rowid_fresh _ _ Hnext) as [Hlt Hfresh].
  constructor.
  - rewrite Hdocs, map_app. simpl.
    apply NoDup_app; [now apply NoDup_map_filter|repeat constructor; simpl; tauto|].
    intros x Hx [<-|[]].
    apply in_map_iff in Hx as (d & Hd & Hin). apply filter_In in Hin as [_ Hne].
    apply negb_true_iff, String.eqb_neq in Hne. congruence.
  - rewrite Hdocs, map_app. simpl.
    apply NoDup_app; [now apply NoDup_map_filter|repeat constructor; simpl; tauto|].
    intros x Hx [<-|[]].
    apply in_map_iff in Hx as (d & Hd & Hin). apply filter_In in Hin as [Hin _].
    rewrite Forall_forall in Hfresh.
    assert (id d < rowid)%Z by (apply Hfresh, in_map, Hin). lia.
  - rewrite Hdocs, Hseq. apply Forall_app. split.
    + apply Forall_forall. intros d Hin. apply filter_In in Hin as [Hin _].
      rewrite Forall_forall in Hids. specialize (Hids d Hin). lia.
    + repeat constructor. simpl. lia.
  - rewrite Hrows, Hseq. apply Forall_app. split.
    + apply Forall_forall. intros r Hin. apply filter_In in Hin as [Hin _].
      rewrite Forall_forall in Hrefs. specialize (Hrefs r Hin). lia.
    + eapply Forall_impl; [|exact Hall]. simpl. intros r ->. lia.
  - rewrite Hrows. apply Forall_app. split.
    + apply Forall_forall. intros r Hin. apply filter_In in Hin as [Hin _].
      rewrite Forall_forall in Hpos. auto.
    + pose proof (calculate_term_frequency_positive words) as Hp.
      rewrite <- Hmap in Hp. rewrite Forall_forall in Hp.
      apply Forall_forall. intros r Hin.
      apply (Hp (term r, tf_score r)), in_map_iff. now exists r.
Qed.

Lemma init_database_consistent : consistent init_database.
Proof. constructor; simpl; constructor. Qed.

(** [process_pdf] keeps the store consistent, whatever it returns. *)
Lemma process_pdf_consistent fs io_error pdf_path db :
  consistent db -> consistent (snd (process_pdf fs io_error pdf_path db)).
Proof.
  intros H. destruct (process_pdf fs io_error pdf_path db) as [[] db'] eqn:E.
  - apply process_pdf_true in E as (f & _ & _ & Hing). simpl.
    eapply ingested_consistent; eassumption.
  - simpl. revert E. unfold process_pdf.
    destruct (fs pdf_path) as [f|]; [|now intros [= <-]].
    destruct (negb _); [now intros [= <-]|].
    destruct (preprocess_text _); [now intros [= <-]|].
    match goal with
    | |- context [store_document ?io ?a ?b ?c ?d ?e] =>
        destruct (store_document io a b c d e) as [[[]|e'] c'] eqn:E
    end; [discriminate|].
    intros [= <-]. unfold close, rollback. simpl.
    destruct (@store_document_requests io_error _ _ _ _ _ _ _ E) as [Hraise _].
    now rewrite (Hraise e' eq_refl).
Qed.

(** A call that returns [False] leaves the database file as it was,
    whatever made it fail. *)
Lemma process_pdf_false_unchanged fs io_error pdf_path db db' :
  process_pdf fs io_error pdf_path db = (false, db') -> db' = db.
Proof.
  unfold process_pdf.
  destruct (fs pdf_path) as [f|]; [|now intros [= <-]].
  destruct (negb _); [now intros [= <-]|].
  destruct (preprocess_text _); [now intros [= <-]|].
  match goal with
  | |- context [store_document ?io ?a ?b ?c ?d ?e] =>
      destruct (store_document io a b c d e) as [[[]|e'] c'] eqn:E
  end; [discriminate|].
  intros [= <-]. unfold close, rollback. simpl.
  destruct (@store_document_requests io_error _ _ _ _ _ _ _ E) as [Hraise _].
  exact (Hraise e' eq_refl).
Qed.

(** In a consistent store the DELETE of [process_pdf] finds nothing to
    delete: it runs for the rowid just handed out.  So an ingestion never
    removes a term row, also not those of the document it replaces. *)
Lemma process_pdf_keeps_term_rows fs io_error pdf_path db db' :
  consistent db ->
  process_pdf fs io_error pdf_path db = (true, db') ->
  exists rows, term_frequency db' = (term_frequency db ++ rows)%list.
Proof.
  intros Hc E. apply process_pdf_true in E as (f & _ & _ & Hing).
  destruct Hing as (rowid & Hnext & _ & _ & rows & Hrows & _).
  exists rows. rewrite Hrows. f_equal. apply filter_all.
  destruct (next_rowid_fresh _ _ Hnext) as [Hlt _].
  eapply Forall_impl; [|exact (refs_allocated Hc)]. simpl.
  intros r Hr. apply negb_true_iff, Z.eqb_neq. lia.
Qed.

(** Every reachable store is consistent. *)
Lemma reachable_consistent db : reachable db -> consistent db.
Proof.
  induction 1; [apply init_database_consistent|now apply process_pdf_consistent].
Qed.

(** ** The order of the rows *)

(** An index lists the rows of its table, each once. *)
Section OrderFacts.

Lemma Permutation_insert_by_filename d l :
  Permutation (insert_by_filename d l) (d :: l).
Proof.
  induction l as [|e l IH]; simpl; [reflexivity|].
  destruct (String.leb (filename d) (filename e)); [reflexivity|].
  rewrite IH. apply perm_swap.
Qed.

Lemma Permutation_order_by_filename l :
  Permutation (fold_right insert_by_filename [] l) l.
Proof.
  induction l as [|d l IH]; simpl; [reflexivity|].
  rewrite Permutation_insert_by_filename. now constructor.
Qed.

Lemma Permutation_documents_by_filename db :
  Permutation (documents_by_filename db) (documents db).
Proof. apply Permutation_order_by_filename. Qed.

Lemma In_documents_by_filename db d :
  In d (documents_by_filename db) <-> In d (documents db).
Proof.
  split; apply Permutation_in;
    [|symmetry]; apply Permutation_documents_by_filename.
Qed.

Lemma NoDup_documents_by_filename db :
  NoDup (map filename (documents db)) ->
  NoDup (map filename (documents_by_filename db)).
Proof.
  apply Permutation_NoDup, Permutation_map. symmetry.
  apply Permutation_documents_by_filename.
Qed.

Lemma map_snd_select_documents db :
  map snd (select_documents db) = map filename (documents_by_filename db).
Proof. unfold select_documents. rewrite map_map. reflexivity. Qed.

Lemma Permutation_insert_by_term r l :
  Permutation (insert_by_term r l) (r :: l).
Proof.
  induction l as [|e l IH]; simpl; [reflexivity|].
  destruct (String.leb (term r) (term e)); [reflexivity|].
  rewrite IH. apply perm_swap.
Qed.

Lemma Permutation_term_frequency_by_term db :
  Permutation (term_frequency_by_term db) (term_frequency db).
Proof.
  unfold term_frequency_by_term.
  induction (term_frequency db) as [|r l IH]; simpl; [reflexivity|].
  rewrite Permutation_insert_by_term. now constructor.
Qed.

Lemma In_terms_by_term db t :
  In t (map term (term_frequency_by_term db))
  <-> In t (map term (term_frequency db)).
Proof.
  split; apply Permutation_in, Permutation_map;
    [|symmetry]; apply Permutation_term_frequency_by_term.
Qed.

Lemma Permutation_filter_keeps (A : Type) (p : A -> bool) (l l' : list A) :
  Permutation l l' -> Permutation (filter p l) (filter p l').
Proof.
  induction 1 as [|x l l' _ IH|x y l|l l' l'' _ IH1 _ IH2]; simpl.
  - reflexivity.
  - destruct (p x); [now constructor|assumption].
  - destruct (p x), (p y); try reflexivity. apply perm_swap.
  - now transitivity (filter p l').
Qed.

End OrderFacts.

(** ** Queries: values and traces *)

Section TracedFacts.
Lemma fold_left_ext (A S : Type) (f g : S -> A -> S) (xs : list A) :
  (forall s x, f s x = g s x) ->
  forall s, fold_left f xs s = fold_left g xs s.
Proof.
  intros H. induction xs as [|x xs IH]; intros s; simpl; [reflexivity|].
  now rewrite H, IH.
Qed.

Lemma snd_and_then (A B : Type) (m : traced A) (k : A -> traced B) :
  snd (and_then m k) = snd (k (snd m)).
Proof. unfold and_then. destruct m as [t1 a]. simpl. now destruct (k a). Qed.

Lemma fst_and_then (A B : Type) (m : traced A) (k : A -> traced B) :
  fst (and_then m k) = (fst m ++ fst (k (snd m)))%list.
Proof. unfold and_then. destruct m as [t1 a]. simpl. now destruct (k a). Qed.

Lemma snd_emit (A : Type) (e : event) (a : A) : snd (emit e a) = a.
Proof. reflexivity. Qed.

Lemma snd_for_loop (A S : Type) (body : S -> A -> traced S) (xs : list A) :
  forall s,
    snd (for_loop xs body s) = fold_left (fun s x => snd (body s x)) xs s.
Proof.
  induction xs as [|x xs IH]; intros s; simpl; [reflexivity|].
  now rewrite snd_and_then, IH.
Qed.
End TracedFacts.

Section QueryFacts.
Local Open Scope R_scope.

Lemma doc_freq_keys_NoDup db : NoDup (Py.keys (doc_freq db)).
Proof.
  unfold doc_freq, Py.keys. rewrite map_map. simpl. rewrite map_id.
  apply NoDup_nodup.
Qed.

Lemma calculate_idf_value db :
  idf_scores_of db
  = if (count_documents db =? 0)%Z then []
    else map (fun '(t, df) => (t, ln (IZR (count_documents db) / IZR df)))
             (doc_freq db).
Proof.
  unfold idf_scores_of, calculate_idf. rewrite snd_and_then, snd_emit.
  destruct (count_documents db =? 0)%Z; [reflexivity|].
  rewrite snd_and_then, snd_emit, snd_for_loop.
  transitivity
    (fold_left
       (fun d '(k, v) =>
          Py.dict_set d k (ln (IZR (count_documents db) / IZR v)))
       (doc_freq db) []).
  - apply fold_left_ext. intros d [t df]. reflexivity.
  - exact (fold_dict_set_map
             (fun df => ln (IZR (count_documents db) / IZR df))
             (doc_freq db) [] (doc_freq_keys_NoDup db)).
Qed.

Lemma dict_get_doc_freq db t :
  Py.dict_get (doc_freq db) t
  = if in_dec string_dec t (map term (term_frequency db))
    then Some (Py.len (distinct_document_ids t db)) else None.
Proof.
  unfold doc_freq.
  assert (H : forall l,
             Py.dict_get
               (map (fun t0 => (t0, Py.len (distinct_document_ids t0 db))) l) t
             = if in_dec string_dec t l
               then Some (Py.len (distinct_document_ids t db)) else None).
  { induction l as [|u l IH]; simpl; [reflexivity|].
    destruct (String.eqb u t) eqn:E.
    - apply String.eqb_eq in E; subst u.
      destruct (string_dec t t); [|congruence].
      reflexivity.
    - apply String.eqb_neq in E. rewrite IH.
      destruct (string_dec u t); [congruence|].
      now destruct (in_dec string_dec t l). }
  rewrite H.
  destruct (in_dec string_dec t
              (nodup string_dec (map term (term_frequency_by_term db))))
    as [Hi|Hn];
    destruct (in_dec string_dec t (map term (term_frequency db))) as [Hi'|Hn'];
    try reflexivity.
  - apply nodup_In, In_terms_by_term in Hi. contradiction.
  - elim Hn. now apply nodup_In, In_terms_by_term.
Qed.

(** The weight of a term, as the code computes it. *)
Lemma calculate_idf_get db t :
  documents db <> [] ->
  In t (map term (term_frequency db)) ->
  Py.dict_get (idf_scores_of db) t
  = Some (ln (IZR (count_documents db)
              / IZR (Py.len (distinct_document_ids t db)))).
Proof.
  intros Hne Hin. rewrite calculate_idf_value.
  assert (E : (count_documents db =? 0)%Z = false).
  { apply Z.eqb_neq. unfold count_documents, Py.len.
    destruct (documents db); [congruence|]. simpl. lia. }
  rewrite E.
  rewrite (dict_get_map (fun df => ln (IZR (count_documents db) / IZR df))).
  rewrite dict_get_doc_freq.
  destruct (in_dec string_dec t (map term (term_frequency db)));
    [reflexivity|contradiction].
Qed.

Lemma fold_left_plus (A : Type) (c : A -> R) (xs : list A) :
  forall a, fold_left (fun s x => s + c x) xs a = a + total (map c xs).
Proof.
  induction xs as [|x xs IH]; intros a; simpl; [lra|].
  rewrite IH. lra.
Qed.

Lemma score_of_total db query_words doc_id :
  score_of db query_words doc_id = total (map (tfidf db doc_id) query_words).
Proof.
  unfold score_of, document_score. rewrite snd_for_loop.
  rewrite <- (Rplus_0_l (total _)), <- fold_left_plus.
  apply fold_left_ext. intros s t. rewrite snd_and_then, snd_emit.
  unfold tfidf, pure, snd.
  destruct (select_tf_score db doc_id t);
    destruct (Py.dict_get (idf_scores_of db) t); lra.
Qed.

Lemma search_value db query top_n :
  snd (search db query top_n)
  = match preprocess_text query with
    | [] => []
    | query_words =>
        Py.slice_to (Py.sorted_reverse snd (doc_scores_of db query_words)) top_n
    end.
Proof.
  unfold search. destruct (preprocess_text query) as [|w ws]; [reflexivity|].
  rewrite !snd_and_then, snd_emit, snd_for_loop.
  unfold doc_scores_of, Py.items, pure, snd at 1. do 2 f_equal.
  apply fold_left_ext. intros ds [doc_id fname].
  rewrite snd_and_then. reflexivity.
Qed.
End QueryFacts.

(** ** Sorting and slicing *)

Section SortFacts.
Variable A : Type.
Variable key : A -> R.

Lemma In_insert_desc x y l :
  In y (Py.insert_desc key x l) <-> y = x \/ In y l.
Proof.
  induction l as [|z l IH]; simpl.
  - intuition.
  - destruct (Rlt_dec (key x) (key z)); simpl; [rewrite IH|]; intuition.
Qed.

Lemma In_sorted_reverse y l : In y (Py.sorted_reverse key l) <-> In y l.
Proof.
  induction l as [|x l IH]; simpl; [tauto|].
  rewrite In_insert_desc, IH. intuition.
Qed.

(** [earlier a b]: [a] stands before [b] in the list handed to
    [sorted]. *)
Variable earlier : A -> A -> Prop.

Lemma insert_desc_ordered x l :
  Forall (earlier x) l ->
  StronglySorted (score_then_position key earlier) l ->
  StronglySorted (score_then_position key earlier) (Py.insert_desc key x l).
Proof.
  intros Hx Hl. induction Hl as [|z l Hl IH Hz]; simpl.
  - repeat constructor.
  - inversion Hx as [|? ? Hxz Hxl]; subst.
    destruct (Rlt_dec (key x) (key z)) as [Hlt|Hge].
    + constructor; [auto|].
      apply Forall_forall. intros y Hy. apply In_insert_desc in Hy as [->|Hy].
      * now left.
      * rewrite Forall_forall in Hz. auto.
    + constructor; [now constructor|].
      constructor.
      * destruct (Rle_lt_or_eq_dec _ _ (Rnot_lt_le _ _ Hge)) as [Hlt|Heq];
          [now left|right; auto].
      * apply Forall_forall. intros y Hy.
        rewrite Forall_forall in Hz, Hxl.
        destruct (Hz y Hy) as [Hlt|[Heq Hzy]].
        -- left. lra.
        -- destruct (Rle_lt_or_eq_dec _ _ (Rnot_lt_le _ _ Hge)) as [Hlt|Heq'].
           ++ left. lra.
           ++ right. split; [congruence|auto].
Qed.

(** [sorted(..., reverse=True)] is a stable descending sort. *)
Lemma sorted_reverse_ordered l :
  StronglySorted earlier l ->
  StronglySorted (score_then_position key earlier) (Py.sorted_reverse key l).
Proof.
  induction 1 as [|x l Hl IH Hx]; simpl; [constructor|].
  apply insert_desc_ordered; [|assumption].
  apply Forall_forall. intros y Hy.
  apply (proj1 (In_sorted_reverse y l)) in Hy.
  rewrite Forall_forall in Hx. exact (Hx y Hy).
Qed.

Lemma StronglySorted_firstn (R : A -> A -> Prop) n l :
  StronglySorted R l -> StronglySorted R (firstn n l).
Proof.
  intros H. revert n. induction H as [|x l Hl IH Hx]; intros [|n]; simpl;
    try constructor; [apply IH|].
  apply Forall_forall. intros y Hy.
  rewrite Forall_forall in Hx. apply Hx.
  rewrite <- (firstn_skipn n l). apply in_or_app. now left.
Qed.

Lemma StronglySorted_weaken (R R' : A -> A -> Prop) l :
  (forall a b, R a b -> R' a b) -> StronglySorted R l -> StronglySorted R' l.
Proof.
  intros H. induction 1 as [|x l Hl IH Hx]; constructor; [assumption|].
  eapply Forall_impl; [|exact Hx]. intros; auto.
Qed.

Lemma StronglySorted_any (l : list A) : StronglySorted (fun _ _ => True) l.
Proof.
  induction l as [|x l IH]; constructor; [assumption|].
  apply Forall_forall. intros; exact I.
Qed.

Lemma In_slice_to (x : A) l n : In x (Py.slice_to l n) -> In x l.
Proof.
  unfold Py.slice_to. destruct (0 <=? n)%Z; intros H;
    match type of H with
    | In _ (firstn ?k _) =>
        rewrite <- (firstn_skipn k l); apply in_or_app; now left
    end.
Qed.

Lemma slice_to_length (l : list A) n :
  (0 <= n)%Z -> (Py.len (Py.slice_to l n) <= n)%Z.
Proof.
  intros Hn. unfold Py.slice_to, Py.len.
  apply Z.leb_le in Hn as Hb. rewrite Hb.
  pose proof (firstn_le_length (Z.to_nat n) l). lia.
Qed.
End SortFacts.

(** ** The ranking *)

Section RankingFacts.
Local Open Scope R_scope.

Lemma Forall_dict_set (V : Type) (P : V -> Prop) (d : Py.dict V) k v :
  Forall (fun e => P (snd e)) d -> P v ->
  Forall (fun e => P (snd e)) (Py.dict_set d k v).
Proof.
  intros Hd Hv. induction Hd as [|[k0 v0] d H0 Hd IH]; simpl.
  - now repeat constructor.
  - destruct (String.eqb k0 k); constructor; auto.
Qed.

(** Only positive scores enter [doc_scores]. *)
Lemma doc_scores_positive db query_words :
  Forall (fun e => 0 < snd e) (doc_scores_of db query_words).
Proof.
  unfold doc_scores_of.
  assert (H : forall docs acc,
             Forall (fun e : string * R => 0 < snd e) acc ->
             Forall (fun e : string * R => 0 < snd e)
               (fold_left
                  (fun doc_scores '(doc_id, fname) =>
                     if Rlt_dec 0 (score_of db query_words doc_id)
                     then Py.dict_set doc_scores fname
                                      (score_of db query_words doc_id)
                     else doc_scores) docs acc)).
  { induction docs as [|[doc_id fname] docs IH]; intros acc Hacc; simpl;
      [assumption|].
    apply IH. destruct (Rlt_dec 0 (score_of db query_words doc_id));
      [now apply Forall_dict_set|assumption]. }
  apply H. constructor.
Qed.

(** With unique file names no assignment to [doc_scores] overwrites
    another: the dictionary lists the documents of positive score in
    the order in which the store enumerates them. *)
Lemma doc_scores_of_unique db query_words :
  NoDup (map filename (documents db)) ->
  doc_scores_of db query_words
  = map (fun d => (filename d, score_of db query_words (id d)))
        (filter (positive_score db query_words) (documents_by_filename db)).
Proof.
  unfold doc_scores_of, select_documents.
  assert (H : forall docs acc,
             NoDup (Py.keys acc ++ map filename docs) ->
             fold_left
               (fun doc_scores '(doc_id, fname) =>
                  if Rlt_dec 0 (score_of db query_words doc_id)
                  then Py.dict_set doc_scores fname
                                   (score_of db query_words doc_id)
                  else doc_scores)
               (map (fun d => (id d, filename d)) docs) acc
             = (acc ++ map (fun d => (filename d, score_of db query_words (id d)))
                           (filter (positive_score db query_words) docs))%list).
  { induction docs as [|d docs IH]; intros acc Hnd; simpl.
    - now rewrite app_nil_r.
    - unfold positive_score at 1.
      destruct (Rlt_dec 0 (score_of db query_words (id d))).
      + rewrite dict_set_fresh.
        * rewrite IH; [now rewrite <- app_assoc|].
          unfold Py.keys in *. rewrite map_app. simpl.
          now rewrite <- app_assoc.
        * apply NoDup_remove_2 in Hnd. rewrite in_app_iff in Hnd. tauto.
      + apply IH. now apply NoDup_remove_1 in Hnd. }
  intros Hnd. apply (H (documents_by_filename db) []).
  now apply NoDup_documents_by_filename.
Qed.

Lemma index_of_lt_cons x y l :
  x <> y -> In y l -> (index_of x (x :: l) < index_of y (x :: l))%nat.
Proof.
  intros Hne _. simpl. rewrite String.eqb_refl.
  apply String.eqb_neq in Hne. rewrite Hne. lia.
Qed.

(** A duplicate-free list is strictly increasing in [index_of]. *)
Lemma NoDup_index_of_sorted l :
  NoDup l ->
  StronglySorted (fun a b => (index_of a l < index_of b l)%nat) l.
Proof.
  induction 1 as [|x l Hx Hl IH]; constructor.
  - assert (Hin : forall a, In a l -> (x =? a)%string = false).
    { intros a Ha. apply String.eqb_neq. intros ->. contradiction. }
    clear - IH Hin.
    assert (G : forall l0,
               (forall a, In a l0 -> In a l) ->
               StronglySorted (fun a b => (index_of a l < index_of b l)%nat) l0 ->
               StronglySorted
                 (fun a b => (index_of a (x :: l) < index_of b (x :: l))%nat) l0).
    { induction l0 as [|a l0 IH0]; intros Hsub Hs; constructor;
        inversion Hs as [|? ? Hs' Ha]; subst.
      - apply IH0; [intros; apply Hsub; now right|assumption].
      - apply Forall_forall. intros b Hb.
        rewrite Forall_forall in Ha. specialize (Ha b Hb). simpl.
        rewrite (Hin a), (Hin b); [lia|apply Hsub; now right|apply Hsub; now left]. }
    apply G; auto.
  - apply Forall_forall. intros y Hy. apply index_of_lt_cons; [|assumption].
    intros ->. contradiction.
Qed.

Lemma StronglySorted_map_filter (A B : Type) (f : A -> B) (p : A -> bool)
      (R : B -> B -> Prop) (l : list A) :
  StronglySorted R (map f l) ->
  StronglySorted (fun a b => R (f a) (f b)) (filter p l).
Proof.
  induction l as [|x l IH]; simpl; intros H; [constructor|].
  inversion H as [|? ? Hs Hx]; subst.
  destruct (p x); [|auto]. constructor; [auto|].
  apply Forall_forall. intros y Hy. apply filter_In in Hy as [Hy _].
  rewrite Forall_forall in Hx. apply Hx. now apply in_map.
Qed.

Lemma StronglySorted_map (A B : Type) (f : A -> B)
      (R : B -> B -> Prop) (l : list A) :
  StronglySorted (fun a b => R (f a) (f b)) l -> StronglySorted R (map f l).
Proof.
  induction 1 as [|x l Hs IH Hx]; simpl; constructor; [assumption|].
  apply Forall_forall. intros y Hy. apply in_map_iff in Hy as (a & <- & Ha).
  rewrite Forall_forall in Hx. auto.
Qed.

(** The ranking before truncation: by score, ties in the order in which
    the store enumerates the documents. *)
Lemma ranking_ordered db query_words :
  NoDup (map filename (documents db)) ->
  StronglySorted
    (score_then_position snd
       (fun a b => (position db (fst a) < position db (fst b))%nat))
    (Py.sorted_reverse snd (doc_scores_of db query_words)).
Proof.
  intros Hnd. apply sorted_reverse_ordered.
  rewrite (doc_scores_of_unique db query_words Hnd).
  apply StronglySorted_map
    with (f := fun d => (filename d, score_of db query_words (id d)))
         (R := fun a b : string * R =>
                 (position db (fst a) < position db (fst b))%nat).
  simpl.
  apply (@StronglySorted_map_filter _ _ filename
           (positive_score db query_words)
           (fun a b => (position db a < position db b)%nat)).
  unfold position. rewrite map_snd_select_documents.
  now apply NoDup_index_of_sorted, NoDup_documents_by_filename.
Qed.
End RankingFacts.

(** ** Logarithms *)

Section LnFacts.
Local Open Scope R_scope.

Lemma ln_nonpos x : 0 < x <= 1 -> ln x <= 0.
Proof.
  intros [H0 H1]. destruct (Rle_lt_or_eq_dec _ _ H1) as [Hlt| ->].
  - left. rewrite <- ln_1. now apply ln_increasing.
  - right. apply ln_1.
Qed.

Lemma ln_nonneg x : 1 <= x -> 0 <= ln x.
Proof.
  intros H1. destruct (Rle_lt_or_eq_dec _ _ H1) as [Hlt| <-].
  - left. rewrite <- ln_1. apply ln_increasing; lra.
  - right. symmetry. apply ln_1.
Qed.

Lemma ln_neg x : 0 < x < 1 -> ln x < 0.
Proof. intros [H0 H1]. rewrite <- ln_1. now apply ln_increasing. Qed.

Lemma ln_pos x : 1 < x -> 0 < ln x.
Proof. intros H1. rewrite <- ln_1. apply ln_increasing; lra. Qed.
End LnFacts.

(** ** Scores *)

Section ScoreFacts.
Local Open Scope R_scope.

Lemma select_tf_score_Some db doc_id t tf :
  select_tf_score db doc_id t = Some tf ->
  exists r, In r (term_frequency db)
            /\ document_id r = doc_id /\ term r = t /\ tf_score r = tf.
Proof.
  unfold select_tf_score.
  destruct (find _ _) as [r|] eqn:E; [|discriminate].
  intros [= <-]. apply find_some in E as [Hin Hb].
  apply andb_true_iff in Hb as [Hd Ht].
  apply Z.eqb_eq in Hd. apply String.eqb_eq in Ht. now exists r.
Qed.

Lemma In_distinct_document_ids db r :
  In r (term_frequency db) ->
  In (document_id r) (distinct_document_ids (term r) db).
Proof.
  intros Hin. unfold distinct_document_ids. apply nodup_In, in_map, filter_In.
  split; [assumption|apply String.eqb_refl].
Qed.

Lemma tfidf_absent db doc_id t :
  select_tf_score db doc_id t = None -> tfidf db doc_id t = 0.
Proof. unfold tfidf. now intros ->. Qed.

Lemma tfidf_present db doc_id t tf df :
  select_tf_score db doc_id t = Some tf ->
  count_documents db <> 0%Z ->
  Py.dict_get (doc_freq db) t = Some df ->
  tfidf db doc_id t = tf * ln (IZR (count_documents db) / IZR df).
Proof.
  intros Hs Hn Hdf. unfold tfidf. rewrite Hs, calculate_idf_value.
  apply Z.eqb_neq in Hn. rewrite Hn.
  rewrite (dict_get_map (fun df => ln (IZR (count_documents db) / IZR df))).
  now rewrite Hdf.
Qed.

Lemma score_of_cons db w ws doc_id :
  score_of db (w :: ws) doc_id = tfidf db doc_id w + score_of db ws doc_id.
Proof. now rewrite !score_of_total. Qed.

Lemma score_of_nil db doc_id : score_of db [] doc_id = 0.
Proof. now rewrite score_of_total. Qed.

Lemma score_of_app db ws1 ws2 doc_id :
  score_of db (ws1 ++ ws2) doc_id
  = score_of db ws1 doc_id + score_of db ws2 doc_id.
Proof.
  induction ws1 as [|w ws1 IH]; simpl.
  - rewrite score_of_nil. lra.
  - rewrite !score_of_cons, IH. lra.
Qed.

(** The score separates into the [k] occurrences of a term and the
    other words of the query. *)
Lemma score_of_occurrences db ws t doc_id :
  score_of db ws doc_id
  = INR (count_occ string_dec ws t) * tfidf db doc_id t
    + score_of db (remove string_dec t ws) doc_id.
Proof.
  induction ws as [|w ws IH].
  - simpl. rewrite score_of_nil. lra.
  - rewrite score_of_cons, IH. simpl remove. simpl count_occ.
    destruct (string_dec w t) as [->|Hne].
    + destruct (string_dec t t) as [_|N]; [|congruence].
      rewrite S_INR. lra.
    + destruct (string_dec t w) as [E|_]; [congruence|].
      rewrite score_of_cons. lra.
Qed.

Lemma score_of_repeat db t k doc_id :
  score_of db (repeat t k) doc_id = INR k * tfidf db doc_id t.
Proof.
  induction k as [|k IH].
  - simpl. rewrite score_of_nil. lra.
  - simpl repeat. rewrite score_of_cons, IH, S_INR. lra.
Qed.

Lemma total_nonpos xs : Forall (fun x => x <= 0) xs -> total xs <= 0.
Proof. induction 1; simpl; lra. Qed.

Lemma total_nonneg xs : Forall (fun x => 0 <= x) xs -> 0 <= total xs.
Proof. induction 1; simpl; lra. Qed.

Lemma two_members (l : list Z) a b :
  NoDup l -> In a l -> In b l -> a <> b -> (2 <= List.length l)%nat.
Proof.
  intros Hnd Ha Hb Hab.
  assert (H : NoDup [a; b]).
  { constructor; [simpl; intros [E|[]]; congruence|].
    constructor; [simpl; tauto|constructor]. }
  apply (NoDup_incl_length H). intros x [<-|[<-|[]]]; assumption.
Qed.

Lemma NoDup_map_injective (A B : Type) (f : A -> B) (l : list A) a b :
  NoDup (map f l) -> In a l -> In b l -> f a = f b -> a = b.
Proof.
  induction l as [|x l IH]; simpl; [tauto|].
  intros Hnd Ha Hb Hf. inversion Hnd as [|? ? Hx Hl]; subst.
  destruct Ha as [->|Ha], Hb as [->|Hb]; auto.
  - elim Hx. rewrite Hf. now apply in_map.
  - elim Hx. rewrite <- Hf. now apply in_map.
Qed.

(** A term stored for two different documents of a corpus of two has a
    weight that is not positive, and with positive stored frequencies
    it adds nothing positive to any score. *)
Lemma shared_term_weight db d1 d2 t :
  consistent db ->
  documents db = [d1; d2] ->
  select_tf_score db (id d1) t <> None ->
  select_tf_score db (id d2) t <> None ->
  forall doc_id, tfidf db doc_id t <= 0.
Proof.
  intros Hc Hdocs H1 H2 doc_id.
  destruct (select_tf_score db (id d1) t) as [tf1|] eqn:E1; [|congruence].
  destruct (select_tf_score db (id d2) t) as [tf2|] eqn:E2; [|congruence].
  apply select_tf_score_Some in E1 as (r1 & Hin1 & Hd1 & Ht1 & _).
  apply select_tf_score_Some in E2 as (r2 & Hin2 & Hd2 & Ht2 & _).
  assert (Hne : id d1 <> id d2).
  { pose proof (unique_ids Hc) as Hu. rewrite Hdocs in Hu. simpl in Hu.
    inversion Hu as [|? ? Hx _]; subst.
    intros E. apply Hx. left. now symmetry. }
  assert (Hdf : (2 <= List.length (distinct_document_ids t db))%nat).
  { apply two_members with (a := id d1) (b := id d2).
    - apply NoDup_nodup.
    - rewrite <- Hd1, <- Ht1. now apply In_distinct_document_ids.
    - rewrite <- Hd2, <- Ht2. now apply In_distinct_document_ids.
    - assumption. }
  destruct (select_tf_score db doc_id t) as [tf|] eqn:E;
    [|rewrite (tfidf_absent _ _ _ E); lra].
  assert (Hcount : count_documents db = 2%Z).
  { unfold count_documents. now rewrite Hdocs. }
  rewrite (tfidf_present (df := Py.len (distinct_document_ids t db)) _ _ _ E).
  - rewrite Hcount.
    apply select_tf_score_Some in E as (r & Hin & _ & _ & <-).
    pose proof (scores_positive Hc) as Hp. rewrite Forall_forall in Hp.
    specialize (Hp r Hin). simpl in Hp.
    assert (Hln : ln (2 / IZR (Py.len (distinct_document_ids t db))) <= 0).
    { apply ln_nonpos. unfold Py.len. rewrite <- INR_IZR_INZ.
      assert (2 <= INR (List.length (distinct_document_ids t db))).
      { change 2 with (INR 2). now apply le_INR. }
      split.
      - apply Rdiv_lt_0_compat; lra.
      - apply Rmult_le_reg_r
          with (r := INR (List.length (distinct_document_ids t db))); [lra|].
        unfold Rdiv. rewrite Rmult_assoc, Rinv_l; lra. }
    nra.
  - rewrite Hcount. discriminate.
  - rewrite dict_get_doc_freq.
    destruct (in_dec string_dec t (map term (term_frequency db))) as [|Hn];
      [reflexivity|].
    elim Hn. rewrite <- Ht1. now apply in_map.
Qed.

Lemma search_nothing_positive db query top_n :
  NoDup (map filename (documents db)) ->
  (forall d, In d (documents db) ->
             score_of db (preprocess_text query) (id d) <= 0) ->
  snd (search db query top_n) = [].
Proof.
  intros Hnd Hall. rewrite search_value.
  destruct (preprocess_text query) as [|w ws] eqn:Eq; [reflexivity|].
  rewrite (doc_scores_of_unique db (w :: ws) Hnd).
  assert (E : filter (positive_score db (w :: ws)) (documents_by_filename db)
              = []).
  { assert (Hall' : forall d, In d (documents_by_filename db) ->
                              score_of db (w :: ws) (id d) <= 0)
      by (intros d Hd; now apply Hall, In_documents_by_filename).
    clear Hall. revert Hall'. generalize (documents_by_filename db) as docs.
    induction docs as [|d docs IH]; intros Hall; simpl; [reflexivity|].
    unfold positive_score at 1.
    destruct (Rlt_dec 0 (score_of db (w :: ws) (id d))) as [Hlt|_].
    - specialize (Hall d (or_introl eq_refl)). lra.
    - apply IH. intros d' Hd'. apply Hall. now right. }
  rewrite E. simpl. unfold Py.slice_to.
  destruct (0 <=? top_n)%Z; now rewrite firstn_nil.
Qed.
End ScoreFacts.

(** ** The claims about queries *)

(** C4. With no document in the store [calculate_idf] returns the empty
    mapping after the one counting query: it evaluates no division, so
    none with a total of zero. *)
Theorem calculate_idf_no_documents (db : database) :
  documents db = [] ->
  calculate_idf db = ([Select_count_documents], [])
  /\ forall n d, ~ In (Divide n d) (fst (calculate_idf db)).
Proof.
  intros H.
  assert (E : calculate_idf db = ([Select_count_documents], [])).
  { unfold calculate_idf, count_documents. rewrite H. reflexivity. }
  split; [exact E|].
  intros n d. rewrite E. simpl. intros [Hd|[]]. discriminate Hd.
Qed.

Lemma calculate_idf_no_documents_witness :
  calculate_idf init_database = ([Select_count_documents], [])
  /\ forall n d, ~ In (Divide n d) (fst (calculate_idf init_database)).
Proof. apply (calculate_idf_no_documents init_database). reflexivity. Defined.

(** C6. A query whose tokenization is empty (empty text, or only stop
    words and short tokens) makes [search] return the empty sequence at
    once: no statement is run, so no IDF is computed and no score read. *)
Theorem search_no_valid_terms (db : database) (query : string) (top_n : Z) :
  preprocess_text query = [] ->
  search db query top_n = ([], []).
Proof. intros H. unfold search. now rewrite H. Qed.

Lemma search_no_valid_terms_witness :
  search Scenario.db_ab "The and OF it, by us: 42!" 10 = ([], []).
Proof. apply search_no_valid_terms. vm_compute. reflexivity. Defined.

(** C5. [search] keeps only documents whose score is strictly positive:
    every returned score is [> 0], a document whose accumulated score is
    exactly 0 is not returned, and in a corpus of two documents that both
    contain the sole query term the result is empty. *)
Theorem search_strict_positive_filter
    (db : database) (query : string) (top_n : Z) :
  consistent db ->
  (forall fname score,
      In (fname, score) (snd (search db query top_n)) -> (0 < score)%R)
  /\ (forall d,
         In d (documents db) ->
         score_of db (preprocess_text query) (id d) = 0%R ->
         ~ In (filename d) (map fst (snd (search db query top_n))))
  /\ (forall d1 d2 t,
         documents db = [d1; d2] ->
         select_tf_score db (id d1) t <> None ->
         select_tf_score db (id d2) t <> None ->
         (forall w, In w (preprocess_text query) -> w = t) ->
         snd (search db query top_n) = []).
Proof.
  intros Hc. pose proof (unique_filenames Hc) as Hnd. split; [|split].
  - intros fname score. rewrite search_value.
    destruct (preprocess_text query) as [|w ws]; [intros []|].
    intros Hin. apply In_slice_to, In_sorted_reverse in Hin.
    pose proof (doc_scores_positive db (w :: ws)) as Hp.
    rewrite Forall_forall in Hp. exact (Hp _ Hin).
  - intros d Hd Hzero. rewrite search_value.
    destruct (preprocess_text query) as [|w ws]; [intros []|].
    intros Hin. apply in_map_iff in Hin as ([fname score] & Hf & Hin).
    simpl in Hf. subst fname.
    apply In_slice_to, In_sorted_reverse in Hin.
    rewrite (doc_scores_of_unique db (w :: ws) Hnd) in Hin.
    apply in_map_iff in Hin as (d' & Heq & Hin).
    apply filter_In in Hin as [Hd' Hpos].
    apply In_documents_by_filename in Hd'.
    injection Heq as Hname _.
    assert (d' = d) by (eapply NoDup_map_injective; eassumption).
    subst d'. unfold positive_score in Hpos.
    destruct (Rlt_dec 0 (score_of db (w :: ws) (id d))); [lra|discriminate].
  - intros d1 d2 t Hdocs H1 H2 Hall.
    apply search_nothing_positive; [assumption|].
    intros d _. rewrite score_of_total. apply total_nonpos.
    apply Forall_forall. intros x Hx.
    apply in_map_iff in Hx as (w & <- & Hw). rewrite (Hall w Hw).
    eapply shared_term_weight; eassumption.
Qed.

Lemma search_strict_positive_filter_witness :
  consistent Scenario.db_ab /\ snd (search Scenario.db_ab "machine" 10) = [].
Proof.
  assert (Hc : consistent Scenario.db_ab).
  { apply process_pdf_consistent, process_pdf_consistent,
      init_database_consistent. }
  split; [exact Hc|].
  destruct (search_strict_positive_filter "machine" 10 Hc) as (_ & _ & H).
  apply (H {| id := 1; filename := "A.pdf";
              content := "machine learning data"; word_count := 3 |}
           {| id := 2; filename := "B.pdf";
              content := "machine learning science"; word_count := 3 |}
           "machine").
  - vm_compute. reflexivity.
  - vm_compute. discriminate.
  - vm_compute. discriminate.
  - intros w Hw. vm_compute in Hw. destruct Hw as [<-|[]]. reflexivity.
Defined.

(** C7 (as amended: the bound on the length for [top_n >= 0] only).
    For every query and every [top_n], [search] returns its entries in
    descending order of score, and entries of equal score in the order in
    which the store enumerates their documents, the rows of [SELECT id,
    filename FROM documents] (file names are unique in every store the
    schema admits); for [top_n >= 0] it returns at most [top_n] entries,
    and without a bound at most 10. *)
Theorem search_top_n_sorted_stable
    (db : database) (query : string) (top_n : Z) :
  ((0 <= top_n)%Z -> (Py.len (snd (search db query top_n)) <= top_n)%Z)
  /\ StronglySorted (fun a b => (snd b <= snd a)%R) (snd (search db query top_n))
  /\ (NoDup (map filename (documents db)) ->
      StronglySorted
        (fun a b => snd a = snd b ->
                    (position db (fst a) < position db (fst b))%nat)
        (snd (search db query top_n)))
  /\ (Py.len (snd (search_default db query)) <= 10)%Z.
Proof.
  assert (Hlen : forall n, (0 <= n)%Z -> (Py.len (snd (search db query n)) <= n)%Z).
  { intros n Hn'. rewrite search_value.
    destruct (preprocess_text query); [exact Hn'|]. now apply slice_to_length. }
  split; [exact (Hlen top_n)|]. split; [|split].
  - rewrite search_value.
    destruct (preprocess_text query) as [|w ws]; [constructor|].
    assert (Hs : StronglySorted (fun a b : string * R => (snd b <= snd a)%R)
                   (Py.sorted_reverse snd (doc_scores_of db (w :: ws)))).
    { eapply StronglySorted_weaken;
        [|apply (@sorted_reverse_ordered _ snd (fun _ _ => True)),
            StronglySorted_any].
      intros a b [Hlt|[Heq _]]; [now apply Rlt_le|now apply Req_le]. }
    unfold Py.slice_to. destruct (0 <=? top_n)%Z;
      now apply StronglySorted_firstn.
  - intros Hnd. rewrite search_value.
    destruct (preprocess_text query) as [|w ws]; [constructor|].
    assert (Hs : StronglySorted
                   (fun a b : string * R =>
                      snd a = snd b ->
                      (position db (fst a) < position db (fst b))%nat)
                   (Py.sorted_reverse snd (doc_scores_of db (w :: ws)))).
    { eapply StronglySorted_weaken; [|apply ranking_ordered, Hnd].
      intros a b [Hlt|[_ Hpos]] Heq; [|assumption].
      rewrite Heq in Hlt. now apply Rlt_irrefl in Hlt. }
    unfold Py.slice_to. destruct (0 <=? top_n)%Z;
      now apply StronglySorted_firstn.
  - unfold search_default. now apply Hlen.
Qed.

Lemma search_top_n_sorted_stable_witness :
  (Py.len (snd (search Scenario.db_ba "data science" 2)) <= 2)%Z
  /\ StronglySorted (fun a b => (snd b <= snd a)%R)
       (snd (search Scenario.db_ba "data science" 2))
  /\ StronglySorted
       (fun a b => snd a = snd b ->
                   (position Scenario.db_ba (fst a)
                    < position Scenario.db_ba (fst b))%nat)
       (snd (search Scenario.db_ba "data science" 2))
  /\ (Py.len (snd (search_default Scenario.db_ba "data science")) <= 10)%Z.
Proof.
  destruct (@search_top_n_sorted_stable Scenario.db_ba "data science" 2)
    as (Hlen & Hscore & Hties & Hdefault).
  split; [apply Hlen; lia|]. split; [exact Hscore|]. split; [|exact Hdefault].
  apply Hties. vm_compute. constructor; [|constructor; [|constructor]].
  - intros [E|[]]. discriminate E.
  - intros [].
Defined.

(** ** Evaluating the example stores *)

Section Evaluation.
Import Scenario.
Local Open Scope R_scope.

Lemma db_ab_consistent : consistent db_ab.
Proof.
  apply process_pdf_consistent, process_pdf_consistent,
    init_database_consistent.
Qed.

Lemma db_ab_documents :
  documents db_ab
  = [{| id := 1; filename := "A.pdf";
        content := "machine learning data"; word_count := 3 |};
     {| id := 2; filename := "B.pdf";
        content := "machine learning science"; word_count := 3 |}].
Proof. vm_compute. reflexivity. Qed.

Lemma db_ab_enumeration :
  documents_by_filename db_ab
  = [{| id := 1; filename := "A.pdf";
        content := "machine learning data"; word_count := 3 |};
     {| id := 2; filename := "B.pdf";
        content := "machine learning science"; word_count := 3 |}].
Proof. vm_compute. reflexivity. Qed.

Lemma db_ab_score_A :
  score_of db_ab ["data"; "science"] 1 = 1 / 3 * ln 2.
Proof.
  rewrite !score_of_cons, score_of_nil.
  rewrite (@tfidf_present db_ab 1 "data" (1 / 3) 1);
    [|vm_compute; reflexivity|vm_compute; discriminate|vm_compute; reflexivity].
  rewrite (@tfidf_absent db_ab 1 "science"); [|vm_compute; reflexivity].
  replace (count_documents db_ab) with 2%Z by (vm_compute; reflexivity).
  replace (2 / 1) with 2 by lra. lra.
Qed.

Lemma db_ab_score_B :
  score_of db_ab ["data"; "science"] 2 = 1 / 3 * ln 2.
Proof.
  rewrite !score_of_cons, score_of_nil.
  rewrite (@tfidf_absent db_ab 2 "data"); [|vm_compute; reflexivity].
  rewrite (@tfidf_present db_ab 2 "science" (1 / 3) 1);
    [|vm_compute; reflexivity|vm_compute; discriminate|vm_compute; reflexivity].
  replace (count_documents db_ab) with 2%Z by (vm_compute; reflexivity).
  replace (2 / 1) with 2 by lra. lra.
Qed.

(** Both documents match one query word each, with the same score:
    the tie is listed in the order of the enumeration. *)
Lemma db_ab_ranking :
  Py.sorted_reverse snd (doc_scores_of db_ab ["data"; "science"])
  = [("A.pdf", 1 / 3 * ln 2); ("B.pdf", 1 / 3 * ln 2)].
Proof.
  assert (Hpos : 0 < 1 / 3 * ln 2).
  { assert (0 < ln 2) by (apply ln_pos; lra). lra. }
  rewrite (doc_scores_of_unique db_ab _ (unique_filenames db_ab_consistent)).
  rewrite db_ab_enumeration. cbn [filter]. unfold positive_score. cbn [id].
  rewrite db_ab_score_A, db_ab_score_B.
  destruct (Rlt_dec 0 (1 / 3 * ln 2)) as [_|N]; [|contradiction].
  cbn [map filename id]. rewrite db_ab_score_A, db_ab_score_B.
  unfold Py.sorted_reverse. cbn [fold_right Py.insert_desc snd].
  destruct (Rlt_dec (1 / 3 * ln 2) (1 / 3 * ln 2)) as [Hlt|_]; [lra|].
  reflexivity.
Qed.

(** The same files ingested in the other order: [B.pdf] has rowid 1 and
    [A.pdf] rowid 2, and the enumeration still starts with [A.pdf]. *)
Lemma db_ba_consistent : consistent db_ba.
Proof.
  apply process_pdf_consistent, process_pdf_consistent,
    init_database_consistent.
Qed.

Lemma db_ba_documents :
  documents db_ba
  = [{| id := 1; filename := "B.pdf";
        content := "machine learning science"; word_count := 3 |};
     {| id := 2; filename := "A.pdf";
        content := "machine learning data"; word_count := 3 |}].
Proof. vm_compute. reflexivity. Qed.

Lemma db_ba_enumeration :
  select_documents db_ba = [(2%Z, "A.pdf"); (1%Z, "B.pdf")].
Proof. vm_compute. reflexivity. Qed.

Lemma db_ba_score_A :
  score_of db_ba ["data"; "science"] 2 = 1 / 3 * ln 2.
Proof.
  rewrite !score_of_cons, score_of_nil.
  rewrite (@tfidf_present db_ba 2 "data" (1 / 3) 1);
    [|vm_compute; reflexivity|vm_compute; discriminate|vm_compute; reflexivity].
  rewrite (@tfidf_absent db_ba 2 "science"); [|vm_compute; reflexivity].
  replace (count_documents db_ba) with 2%Z by (vm_compute; reflexivity).
  replace (2 / 1) with 2 by lra. lra.
Qed.

Lemma db_ba_score_B :
  score_of db_ba ["data"; "science"] 1 = 1 / 3 * ln 2.
Proof.
  rewrite !score_of_cons, score_of_nil.
  rewrite (@tfidf_absent db_ba 1 "data"); [|vm_compute; reflexivity].
  rewrite (@tfidf_present db_ba 1 "science" (1 / 3) 1);
    [|vm_compute; reflexivity|vm_compute; discriminate|vm_compute; reflexivity].
  replace (count_documents db_ba) with 2%Z by (vm_compute; reflexivity).
  replace (2 / 1) with 2 by lra. lra.
Qed.

(** The tie of the two documents is listed by file name, the document
    of rowid 2 before the document of rowid 1. *)
Lemma db_ba_ranking :
  snd (search db_ba "data science" 10)
  = [("A.pdf", 1 / 3 * ln 2); ("B.pdf", 1 / 3 * ln 2)].
Proof.
  assert (Hpos : 0 < 1 / 3 * ln 2).
  { assert (0 < ln 2) by (apply ln_pos; lra). lra. }
  rewrite search_value.
  replace (preprocess_text "data science") with ["data"; "science"]
    by (vm_compute; reflexivity).
  cbv iota.
  rewrite (doc_scores_of_unique db_ba _ (unique_filenames db_ba_consistent)).
  replace (documents_by_filename db_ba)
    with [{| id := 2; filename := "A.pdf";
             content := "machine learning data"; word_count := 3 |};
          {| id := 1; filename := "B.pdf";
             content := "machine learning science"; word_count := 3 |}]
    by (vm_compute; reflexivity).
  cbn [filter]. unfold positive_score. cbn [id].
  rewrite db_ba_score_A, db_ba_score_B.
  destruct (Rlt_dec 0 (1 / 3 * ln 2)) as [_|N]; [|contradiction].
  cbn [map filename id]. rewrite db_ba_score_A, db_ba_score_B.
  unfold Py.sorted_reverse. cbn [fold_right Py.insert_desc snd].
  destruct (Rlt_dec (1 / 3 * ln 2) (1 / 3 * ln 2)) as [Hlt|_]; [lra|].
  reflexivity.
Qed.

Lemma db_ab_search_all_but_last :
  snd (search db_ab "data science" (-1)) = [("A.pdf", 1 / 3 * ln 2)].
Proof.
  rewrite search_value.
  replace (preprocess_text "data science") with ["data"; "science"]
    by (vm_compute; reflexivity).
  cbv iota. rewrite db_ab_ranking. reflexivity.
Qed.
End Evaluation.

(** Counterexample to C7 as stated ("for every topN"): with [top_n = -1]
    the slice [[:-1]] drops the last of two results and returns one
    entry, more than [top_n]. *)
Lemma search_negative_top_n :
  Py.len (snd (search Scenario.db_ab "data science" (-1))) = 1%Z
  /\ ~ (Py.len (snd (search Scenario.db_ab "data science" (-1))) <= -1)%Z.
Proof.
  rewrite db_ab_search_all_but_last. split; [reflexivity|].
  unfold Py.len. simpl. lia.
Qed.

Lemma process_pdf_rollback_witness :
  process_pdf Scenario.fs_two (fun n => Nat.eqb n 3) "A.pdf" Scenario.db_a
  = (false, Scenario.db_a).
Proof.
  apply (@process_pdf_rollback Scenario.fs_two (fun n => Nat.eqb n 3) "A.pdf"
           Scenario.db_a (Pages ["machine learning data"]) 3).
  - reflexivity.
  - vm_compute. lia.
  - reflexivity.
Defined.

(** ** Re-ingestion *)

Section Reingestion.
Import Scenario.
Local Open Scope R_scope.

Lemma db_graph_consistent : consistent db_graph.
Proof.
  apply process_pdf_consistent, process_pdf_consistent,
    process_pdf_consistent, init_database_consistent.
Qed.

Lemma db_graph_documents :
  documents db_graph
  = [{| id := 2; filename := "B.pdf";
        content := "neural systems"; word_count := 2 |};
     {| id := 3; filename := "A.pdf";
        content := "graph neural"; word_count := 2 |}].
Proof. vm_compute. reflexivity. Qed.

Lemma db_graph_enumeration :
  documents_by_filename db_graph
  = [{| id := 3; filename := "A.pdf";
        content := "graph neural"; word_count := 2 |};
     {| id := 2; filename := "B.pdf";
        content := "neural systems"; word_count := 2 |}].
Proof. vm_compute. reflexivity. Qed.

Lemma db_graph_tfidf_graph_A : tfidf db_graph 3 "graph" = 1 / 2 * ln 2.
Proof.
  rewrite (@tfidf_present db_graph 3 "graph" (1 / 2) 1);
    [|vm_compute; reflexivity|vm_compute; discriminate|vm_compute; reflexivity].
  replace (count_documents db_graph) with 2%Z by (vm_compute; reflexivity).
  now replace (2 / 1) with 2 by lra.
Qed.

Lemma db_graph_tfidf_graph_B : tfidf db_graph 2 "graph" = 0.
Proof. apply tfidf_absent. vm_compute. reflexivity. Qed.

(** Three rowids carry "neural" (1, 2 and 3) while two documents
    exist: the weight of the term is negative. *)
Lemma db_graph_tfidf_neural doc_id :
  doc_id = 2%Z \/ doc_id = 3%Z ->
  tfidf db_graph doc_id "neural" = 1 / 2 * ln (2 / 3).
Proof.
  intros [->| ->].
  - rewrite (@tfidf_present db_graph 2 "neural" (1 / 2) 3);
      [|vm_compute; reflexivity|vm_compute; discriminate|vm_compute; reflexivity].
    now replace (count_documents db_graph) with 2%Z by (vm_compute; reflexivity).
  - rewrite (@tfidf_present db_graph 3 "neural" (1 / 2) 3);
      [|vm_compute; reflexivity|vm_compute; discriminate|vm_compute; reflexivity].
    now replace (count_documents db_graph) with 2%Z by (vm_compute; reflexivity).
Qed.

Lemma ln_2_plus_ln_two_thirds : 0 < ln 2 + ln (2 / 3).
Proof.
  rewrite <- ln_mult by lra. apply ln_pos. lra.
Qed.

Lemma ln_2_plus_twice_ln_two_thirds : ln 2 + ln (2 / 3) + ln (2 / 3) < 0.
Proof.
  rewrite <- !ln_mult by lra. apply ln_neg. lra.
Qed.

Lemma ln_two_thirds_negative : ln (2 / 3) < 0.
Proof. apply ln_neg. lra. Qed.

Lemma db_graph_search_once :
  map fst (snd (search db_graph "graph neural" 10)) = ["A.pdf"].
Proof.
  rewrite search_value.
  replace (preprocess_text "graph neural") with ["graph"; "neural"]
    by (vm_compute; reflexivity).
  cbv iota.
  rewrite (doc_scores_of_unique db_graph _ (unique_filenames db_graph_consistent)).
  rewrite db_graph_enumeration. cbn [filter]. unfold positive_score. cbn [id].
  rewrite !score_of_cons, !score_of_nil.
  rewrite db_graph_tfidf_graph_A, db_graph_tfidf_graph_B.
  rewrite !db_graph_tfidf_neural by auto.
  pose proof ln_2_plus_ln_two_thirds. pose proof ln_two_thirds_negative.
  destruct (Rlt_dec 0 (0 + (1 / 2 * ln (2 / 3) + 0))) as [P|_]; [lra|].
  destruct (Rlt_dec 0 (1 / 2 * ln 2 + (1 / 2 * ln (2 / 3) + 0))) as [_|N]; [|lra].
  reflexivity.
Qed.

Lemma db_graph_search_twice :
  snd (search db_graph "graph neural neural" 10) = [].
Proof.
  apply search_nothing_positive; [exact (unique_filenames db_graph_consistent)|].
  replace (preprocess_text "graph neural neural")
    with ["graph"; "neural"; "neural"] by (vm_compute; reflexivity).
  rewrite db_graph_documents.
  pose proof ln_2_plus_twice_ln_two_thirds. pose proof ln_two_thirds_negative.
  intros d [<-|[<-|[]]]; cbn [id]; rewrite !score_of_cons, !score_of_nil.
  - rewrite db_graph_tfidf_graph_B, !db_graph_tfidf_neural by auto. lra.
  - rewrite db_graph_tfidf_graph_A, !db_graph_tfidf_neural by auto. lra.
Qed.
End Reingestion.

(** C1 (violated by the code).  [A.pdf] is ingested, then ingested again
    with new content.  The second [process_pdf] commits and returns
    [True]; the document now has rowid 2, the DELETE ran for rowid 2, and
    the three term rows of the old content are still in [term_frequency]
    under rowid 1.  A term unique to the old content is absent only
    when looked up under the new rowid: its row keeps the stale score
    under the old rowid, and [calculate_idf] still gives it a weight. *)
Theorem process_pdf_keeps_stale_terms :
  fst (process_pdf Scenario.fs_revised Scenario.reliable "A.pdf" Scenario.db_a) = true
  /\ map (fun d => (id d, filename d)) (documents Scenario.db_a_revised)
     = [(2%Z, "A.pdf")]
  /\ map (fun r => (document_id r, term r)) (term_frequency Scenario.db_a_revised)
     = [(1%Z, "machine"); (1%Z, "learning"); (1%Z, "data");
        (2%Z, "deep"); (2%Z, "networks")]
  /\ select_tf_score Scenario.db_a_revised 1 "data" = Some (1 / 3)%R
  /\ select_tf_score Scenario.db_a_revised 2 "data" = None
  /\ Py.dict_mem (idf_scores_of Scenario.db_a_revised) "data" = true.
Proof.
  repeat split; try (vm_compute; reflexivity).
Qed.

(** C3 (violated by the code).  [A.pdf] is ingested twice.  The store
    holds one document, which contains "machine"; the term is in all
    [N = 1] documents and in exactly one of them, so its weight should be
    [ln (1/1) = 0].  [calculate_idf] counts the stale rowid as well and
    returns [ln (1/2)], which is negative. *)
Theorem calculate_idf_counts_stale_rows :
  map (fun d => (id d, filename d)) (documents Scenario.db_aa) = [(2%Z, "A.pdf")]
  /\ select_tf_score Scenario.db_aa 2 "machine" = Some (1 / 3)%R
  /\ Py.dict_get (idf_scores_of Scenario.db_aa) "machine" = Some (ln (1 / 2))
  /\ (ln (1 / 2) < 0)%R.
Proof.
  split; [vm_compute; reflexivity|].
  split; [vm_compute; reflexivity|].
  split.
  - rewrite calculate_idf_get.
    + replace (count_documents Scenario.db_aa) with 1%Z by (vm_compute; reflexivity).
      now replace (Py.len (distinct_document_ids "machine" Scenario.db_aa))
        with 2%Z by (vm_compute; reflexivity).
    + vm_compute. discriminate.
    + vm_compute. tauto.
  - apply ln_neg. lra.
Qed.

(** C10 (violated by the code in its last part).  In a store where
    [A.pdf] was re-ingested, "graph neural" finds [A.pdf], and the same
    query with "neural" repeated finds nothing: the stale rows make the
    weight of "neural" negative, and counting it twice turns the score of
    [A.pdf] negative. *)
Theorem search_duplicate_word_changes_matches :
  map fst (snd (search Scenario.db_graph "graph neural" 10)) = ["A.pdf"]
  /\ snd (search Scenario.db_graph "graph neural neural" 10) = [].
Proof. split; [apply db_graph_search_once|apply db_graph_search_twice]. Qed.

(** ** Stores without stale rows

    In a store where every term row belongs to a current document (none
    has been ingested twice) the document frequency is the number of
    documents containing the term, weights are not negative, and
    repeating a query word keeps the set of matching documents. *)

Section ReferentialFacts.
Local Open Scope R_scope.
Variable db : database.
Hypothesis Hc : consistent db.
Hypothesis Href : referential db.

Lemma In_distinct_document_ids_iff t x :
  In x (distinct_document_ids t db)
  <-> exists r, In r (term_frequency db) /\ term r = t /\ document_id r = x.
Proof.
  unfold distinct_document_ids. rewrite nodup_In, in_map_iff. split.
  - intros (r & Hx & Hin). apply filter_In in Hin as [Hin Ht].
    apply String.eqb_eq in Ht. now exists r.
  - intros (r & Hin & Ht & Hx). exists r. split; [assumption|].
    apply filter_In. split; [assumption|now apply String.eqb_eq].
Qed.

Lemma document_frequency_exact t :
  Py.len (distinct_document_ids t db) = Py.len (documents_containing t db).
Proof.
  unfold Py.len. f_equal.
  rewrite <- (length_map id (documents_containing t db)).
  apply Permutation_length, NoDup_Permutation.
  - apply NoDup_nodup.
  - apply NoDup_map_filter, (unique_ids Hc).
  - intros x. rewrite In_distinct_document_ids_iff, in_map_iff. split.
    + intros (r & Hin & Ht & Hx).
      unfold referential in Href. rewrite Forall_forall in Href.
      specialize (Href r Hin). rewrite Hx in Href.
      apply in_map_iff in Href as (d & Hd & Hdin).
      exists d. split; [assumption|].
      apply filter_In. split; [assumption|].
      apply existsb_exists. exists r. split; [assumption|].
      apply andb_true_iff. split; [apply Z.eqb_eq; congruence|].
      now apply String.eqb_eq.
    + intros (d & Hd & Hin). apply filter_In in Hin as [_ Hcon].
      apply existsb_exists in Hcon as (r & Hin & Hb).
      apply andb_true_iff in Hb as [Hid Ht].
      apply Z.eqb_eq in Hid. apply String.eqb_eq in Ht.
      exists r. repeat split; [assumption..|congruence].
Qed.

(** The weight of a term is [ln (N / documentFrequency)]: 0 for a term
    of every document, [ln N] for a term of exactly one. *)
Lemma calculate_idf_formula t :
  documents db <> [] ->
  In t (map term (term_frequency db)) ->
  Py.dict_get (idf_scores_of db) t
  = Some (ln (IZR (count_documents db)
              / IZR (Py.len (documents_containing t db))))
  /\ (documents_containing t db = documents db ->
      Py.dict_get (idf_scores_of db) t = Some 0)
  /\ (Py.len (documents_containing t db) = 1%Z ->
      Py.dict_get (idf_scores_of db) t = Some (ln (IZR (count_documents db)))).
Proof.
  intros Hne Hin.
  assert (E : Py.dict_get (idf_scores_of db) t
              = Some (ln (IZR (count_documents db)
                          / IZR (Py.len (documents_containing t db))))).
  { rewrite calculate_idf_get by assumption. now rewrite document_frequency_exact. }
  split; [exact E|split].
  - intros Hall. rewrite E, Hall. unfold count_documents. do 2 f_equal.
    rewrite <- ln_1. f_equal. unfold Rdiv. apply Rinv_r.
    unfold Py.len. apply not_0_IZR.
    destruct (documents db); [congruence|simpl; lia].
  - intros Hone. rewrite E, Hone. do 2 f_equal. lra.
Qed.

Lemma document_frequency_bounds t :
  In t (map term (term_frequency db)) ->
  (1 <= Py.len (distinct_document_ids t db) <= count_documents db)%Z.
Proof.
  intros Hin. unfold Py.len, count_documents. split.
  - apply in_map_iff in Hin as (r & Ht & Hin).
    assert (H : In (document_id r) (distinct_document_ids t db)).
    { apply In_distinct_document_ids_iff. now exists r. }
    destruct (distinct_document_ids t db); [destruct H|simpl; lia].
  - unfold Py.len. apply inj_le.
    rewrite <- (length_map id (documents db)).
    apply NoDup_incl_length; [apply NoDup_nodup|].
    intros x Hx. apply In_distinct_document_ids_iff in Hx as (r & Hr & _ & <-).
    unfold referential in Href. rewrite Forall_forall in Href. auto.
Qed.

Lemma tfidf_nonneg doc_id t : 0 <= tfidf db doc_id t.
Proof.
  unfold tfidf.
  destruct (select_tf_score db doc_id t) as [tf|] eqn:Es; [|lra].
  destruct (Py.dict_get (idf_scores_of db) t) as [idf|] eqn:Ei; [|lra].
  apply select_tf_score_Some in Es as (r & Hin & _ & Ht & <-).
  pose proof (scores_positive Hc) as Hp. rewrite Forall_forall in Hp.
  specialize (Hp r Hin). simpl in Hp.
  assert (Hterm : In t (map term (term_frequency db))).
  { rewrite <- Ht. now apply in_map. }
  destruct (document_frequency_bounds t Hterm) as [H1 HN].
  rewrite calculate_idf_get in Ei;
    [|intros E; unfold count_documents in HN; rewrite E in HN;
      unfold Py.len in HN at 2; simpl in HN; lia
     |assumption].
  injection Ei as <-.
  apply IZR_le in H1, HN.
  assert (0 <= ln (IZR (count_documents db)
                   / IZR (Py.len (distinct_document_ids t db)))).
  { apply ln_nonneg.
    apply Rmult_le_reg_r with (r := IZR (Py.len (distinct_document_ids t db)));
      [lra|].
    unfold Rdiv. rewrite Rmult_assoc, Rinv_l; lra. }
  nra.
Qed.

Lemma total_ge_member xs x :
  Forall (fun y => 0 <= y) xs -> In x xs -> x <= total xs.
Proof.
  induction 1 as [|y xs Hy Hxs IH]; simpl; [tauto|].
  pose proof (total_nonneg Hxs).
  intros [->|Hin]; [lra|]. specialize (IH Hin). lra.
Qed.

(** Repeating a word of the query does not change which documents
    have a positive score. *)
Lemma duplicate_keeps_matches w ws doc_id :
  In w ws ->
  0 < score_of db (w :: ws) doc_id <-> 0 < score_of db ws doc_id.
Proof.
  intros Hin. rewrite score_of_cons, score_of_total.
  pose proof (tfidf_nonneg doc_id w) as Hw.
  assert (Hall : Forall (fun y => 0 <= y) (map (tfidf db doc_id) ws)).
  { apply Forall_forall. intros y Hy. apply in_map_iff in Hy as (u & <- & _).
    apply tfidf_nonneg. }
  pose proof (@total_ge_member (map (tfidf db doc_id) ws) (tfidf db doc_id w)
                Hall (in_map (tfidf db doc_id) ws w Hin)).
  split; lra.
Qed.
End ReferentialFacts.

(* ================================================================= *)
(** * Further properties *)

(** ** More on the tokenizer *)

Section TokenizerMore.
Import Py.

Lemma lower_char_idempotent c : lower_char (lower_char c) = lower_char c.
Proof. destruct c as [[] [] [] [] [] [] [] []]; reflexivity. Qed.

Lemma map_str_app f s t : map_str f (s ++ t) = map_str f s ++ map_str f t.
Proof. induction s as [|c s IH]; simpl; [reflexivity|now rewrite IH]. Qed.

Lemma filter_str_app p s t :
  filter_str p (s ++ t) = filter_str p s ++ filter_str p t.
Proof.
  induction s as [|c s IH]; simpl; [reflexivity|].
  destruct (p c); simpl; now rewrite IH.
Qed.

Lemma append_empty_r s : s ++ "" = s.
Proof. induction s as [|c s IH]; simpl; [reflexivity|now rewrite IH]. Qed.

Lemma append_assoc s t u : (s ++ t) ++ u = s ++ t ++ u.
Proof. induction s as [|c s IH]; simpl; [reflexivity|now rewrite IH]. Qed.

Lemma starts_word_split s : starts_word s = true -> split s <> [].
Proof.
  destruct s as [|c s]; simpl; [discriminate|].
  intros H. apply negb_true_iff in H. rewrite H.
  destruct (starts_word s); [destruct (split s)|]; discriminate.
Qed.

Lemma starts_word_app_space s c t :
  isspace c = true -> starts_word (s ++ String c t) = starts_word s.
Proof. intros Hc. destruct s; simpl; [now rewrite Hc|reflexivity]. Qed.

(** White space separates: the words on its two sides are found
    independently. *)
Lemma split_app_space s c t :
  isspace c = true -> split (s ++ String c t) = (split s ++ split t)%list.
Proof.
  intros Hc. induction s as [|x s IH]; simpl.
  - now rewrite Hc.
  - destruct (isspace x); [exact IH|].
    rewrite (starts_word_app_space s c t Hc), IH.
    destruct (starts_word s) eqn:Es; [|reflexivity].
    apply starts_word_split in Es. now destruct (split s).
Qed.

Lemma split_spaces ws : forall_str isspace ws = true -> split ws = [].
Proof.
  induction ws as [|c ws IH]; simpl; [reflexivity|].
  rewrite andb_true_iff. intros [Hc Hws]. now rewrite Hc, IH.
Qed.

Lemma split_spaces_app ws t :
  forall_str isspace ws = true -> split (ws ++ t) = split t.
Proof.
  induction ws as [|c ws IH]; simpl; [reflexivity|].
  rewrite andb_true_iff. intros [Hc Hws]. now rewrite Hc, IH.
Qed.

Lemma split_app_spaces t ws :
  forall_str isspace ws = true -> split (t ++ ws) = split t.
Proof.
  destruct ws as [|c ws]; simpl.
  - now rewrite append_empty_r.
  - rewrite andb_true_iff. intros [Hc Hws].
    now rewrite (split_app_space t c ws Hc), (split_spaces ws Hws), app_nil_r.
Qed.

(** The text as [split] sees it in [preprocess_text]. *)
Lemma normalise_app s t :
  re_sub_non_letters (lower (s ++ t))
  = re_sub_non_letters (lower s) ++ re_sub_non_letters (lower t).
Proof.
  unfold re_sub_non_letters, lower. now rewrite map_str_app, filter_str_app.
Qed.

Lemma normalise_spaces ws :
  forall_str isspace ws = true ->
  forall_str isspace (re_sub_non_letters (lower ws)) = true.
Proof.
  unfold re_sub_non_letters, lower.
  induction ws as [|c ws IH]; simpl; [reflexivity|].
  rewrite andb_true_iff. intros [Hc Hws].
  rewrite (lower_char_fixes_space c Hc), Hc, orb_true_r. simpl.
  now rewrite Hc, IH.
Qed.

Lemma lstrip_decompose s :
  exists ws, forall_str isspace ws = true /\ s = ws ++ lstrip s.
Proof.
  induction s as [|c s (ws & Hws & E)]; simpl.
  - now exists "".
  - destruct (isspace c) eqn:Ec.
    + exists (String c ws). simpl. rewrite Ec, Hws. split; [reflexivity|].
      f_equal. exact E.
    + now exists "".
Qed.

Lemma rstrip_decompose s :
  exists ws, forall_str isspace ws = true /\ s = rstrip s ++ ws.
Proof.
  induction s as [|c s (ws & Hws & E)]; simpl.
  - now exists "".
  - destruct (rstrip s) as [|d r] eqn:Er.
    + destruct (isspace c) eqn:Ec.
      * exists (String c ws). simpl. rewrite Ec, Hws. split; [reflexivity|].
        f_equal. exact E.
      * exists ws. split; [assumption|]. simpl. f_equal. exact E.
    + exists ws. split; [assumption|]. simpl. f_equal. exact E.
Qed.

Lemma preprocess_text_strip s : preprocess_text (strip s) = preprocess_text s.
Proof.
  rewrite !preprocess_text_unfold. f_equal. unfold strip.
  destruct (lstrip_decompose s) as (w1 & Hw1 & E1).
  destruct (rstrip_decompose (lstrip s)) as (w2 & Hw2 & E2).
  rewrite E1 at 2. rewrite E2 at 2.
  rewrite !normalise_app.
  rewrite (split_spaces_app _ _ (normalise_spaces _ Hw1)).
  now rewrite (split_app_spaces _ _ (normalise_spaces _ Hw2)).
Qed.

Lemma preprocess_text_empty : preprocess_text "" = [].
Proof. reflexivity. Qed.
End TokenizerMore.

(** X1. Every token is a run of lower-case ASCII letters, at least three
    characters long, and is not a stop word. *)
Theorem preprocess_text_token_shape (text w : string) :
  In w (preprocess_text text) ->
  Py.forall_str Py.is_lower w = true
  /\ (3 <= String.length w)%nat
  /\ ~ In w stop_words.
Proof.
  intros Hin.
  pose proof (preprocess_text_tokens text) as H. rewrite Forall_forall in H.
  destruct (H w Hin) as [Hl Hk]. split; [assumption|].
  unfold keep_word in Hk. apply andb_true_iff in Hk as [Hs Hlen].
  split.
  - apply Nat.ltb_lt in Hlen. lia.
  - intros Hstop. apply negb_true_iff in Hs. unfold Py.mem in Hs.
    assert (E : existsb (String.eqb w) stop_words = true).
    { apply existsb_exists. exists w. split; [assumption|apply String.eqb_refl]. }
    congruence.
Qed.

Lemma preprocess_text_token_shape_witness :
  Py.forall_str Py.is_lower "level" = true
  /\ (3 <= String.length "level")%nat
  /\ ~ In "level" stop_words.
Proof.
  apply (@preprocess_text_token_shape "The CO2 Level, in 2024!" "level").
  vm_compute. tauto.
Defined.

(** X2. Upper and lower case are not distinguished: lower-casing a text
    first changes neither its tokens nor what [search] does with it as a
    query. *)
Theorem preprocess_text_ignores_case (text : string) :
  preprocess_text (Py.lower text) = preprocess_text text
  /\ forall db top_n, search db (Py.lower text) top_n = search db text top_n.
Proof.
  assert (E : preprocess_text (Py.lower text) = preprocess_text text).
  { assert (H : Py.lower (Py.lower text) = Py.lower text).
    { unfold Py.lower. induction text as [|c s IH]; simpl; [reflexivity|].
      now rewrite lower_char_idempotent, IH. }
    unfold preprocess_text. now rewrite H. }
  split; [exact E|].
  intros db top_n. unfold search. now rewrite E.
Qed.

Lemma preprocess_text_app_space (s1 s2 : string) (c : ascii) :
  Py.isspace c = true ->
  preprocess_text (s1 ++ String c s2)
  = (preprocess_text s1 ++ preprocess_text s2)%list.
Proof.
  intros Hc. rewrite !preprocess_text_unfold, normalise_app.
  assert (E : Py.re_sub_non_letters (Py.lower (String c s2))
              = String c (Py.re_sub_non_letters (Py.lower s2))).
  { unfold Py.re_sub_non_letters, Py.lower. simpl.
    now rewrite (lower_char_fixes_space c Hc), Hc, orb_true_r. }
  rewrite E, (split_app_space _ c _ Hc). apply filter_app.
Qed.

(** X3. White space separates tokens: the tokens of two texts joined by
    a white space character are the tokens of the first followed by the
    tokens of the second. *)
Theorem preprocess_text_app (s1 s2 : string) (c : ascii) :
  Py.isspace c = true ->
  preprocess_text (s1 ++ String c s2)
  = (preprocess_text s1 ++ preprocess_text s2)%list.
Proof. apply preprocess_text_app_space. Qed.

Lemma preprocess_text_app_witness :
  preprocess_text ("Machine learning" ++ String " " "for data science")
  = (preprocess_text "Machine learning" ++ preprocess_text "for data science")%list.
Proof. apply preprocess_text_app. reflexivity. Defined.

(** X4. The tokens of a readable PDF are the tokens of its pages, page
    after page: the page break never joins two words, and stripping the
    text loses none. *)
Theorem extract_text_tokens (pages : list string) :
  preprocess_text (extract_text_from_pdf (Pages pages))
  = flat_map preprocess_text pages.
Proof.
  unfold extract_text_from_pdf. rewrite preprocess_text_strip.
  assert (Hnl : Py.isspace (ascii_of_nat 10) = true) by reflexivity.
  assert (H : forall rest acc,
             preprocess_text
               (fold_left (fun text page => text ++ page ++ newline) rest
                          (acc ++ newline))
             = (preprocess_text acc ++ flat_map preprocess_text rest)%list).
  { induction rest as [|p ps IH]; intros acc; simpl.
    - unfold newline. rewrite (preprocess_text_app_space acc "" _ Hnl).
      now rewrite preprocess_text_empty.
    - rewrite <- append_assoc, IH. unfold newline.
      rewrite append_assoc. simpl append.
      rewrite (preprocess_text_app_space acc p _ Hnl). now rewrite <- app_assoc. }
  destruct pages as [|p ps]; [reflexivity|]. simpl.
  change ("" ++ p ++ newline) with (p ++ newline). apply H.
Qed.

(** ** More on term frequencies *)

Section TermFrequencyMore.
Import Py.

Lemma sum_dict_set (d : dict Z) k v :
  fold_right Z.add 0%Z (map snd (dict_set d k v))
  = (fold_right Z.add 0%Z (map snd d) - Counter_get d k + v)%Z.
Proof.
  unfold Counter_get. induction d as [|[k0 v0] d IH]; simpl.
  - lia.
  - destruct (String.eqb k0 k); simpl; [lia|]. rewrite IH. lia.
Qed.

Lemma sum_counter_step c w :
  fold_right Z.add 0%Z (map snd (counter_step c w))
  = (fold_right Z.add 0%Z (map snd c) + 1)%Z.
Proof.
  unfold counter_step. rewrite sum_dict_set. unfold Counter_get.
  destruct (dict_get c w); lia.
Qed.

(** The counts of a [Counter] add up to the number of words counted. *)
Lemma sum_Counter words :
  fold_right Z.add 0%Z (map snd (Counter words)) = len words.
Proof.
  assert (H : forall c,
             fold_right Z.add 0%Z (map snd (fold_left counter_step words c))
             = (fold_right Z.add 0%Z (map snd c) + len words)%Z).
  { unfold len. induction words as [|w ws IH]; intros c; simpl List.length.
    - simpl. lia.
    - simpl fold_left. rewrite IH, sum_counter_step. lia. }
  exact (H []).
Qed.
End TermFrequencyMore.

(** X6. Every term frequency is positive and at most 1. *)
Theorem calculate_term_frequency_bounds
    (words : list string) (t : string) (score : R) :
  In (t, score) (calculate_term_frequency words) ->
  (0 < score <= 1)%R.
Proof.
  intros Hin. split.
  - pose proof (calculate_term_frequency_positive words) as Hp.
    rewrite Forall_forall in Hp. exact (Hp _ Hin).
  - assert (Hnd : NoDup (Py.keys (calculate_term_frequency words))).
    { rewrite keys_calculate_term_frequency. apply Counter_counts. }
    apply (@In_dict_get _ _ _ _ Hnd) in Hin.
    rewrite calculate_term_frequency_get in Hin.
    destruct (Nat.eqb (occurrences words t) 0) eqn:E; [discriminate|].
    injection Hin as <-. apply Nat.eqb_neq in E.
    pose proof (count_occ_bound string_dec t words) as Hb.
    unfold occurrences in *.
    assert (H0 : (0 < INR (List.length words))%R) by (apply lt_0_INR; lia).
    apply le_INR in Hb.
    apply Rmult_le_reg_r with (r := INR (List.length words)); [assumption|].
    unfold Rdiv. rewrite Rmult_assoc, Rinv_l; lra.
Qed.

Lemma calculate_term_frequency_bounds_witness :
  (0 < INR 2 / INR 3 <= 1)%R.
Proof.
  apply (@calculate_term_frequency_bounds ["data"; "machine"; "data"] "data").
  apply dict_get_Some_In. rewrite calculate_term_frequency_get. reflexivity.
Defined.

(** ** More on ingestion *)

Section IngestionMore.
Variable io_error : nat -> bool.
Hypothesis reliable_storage : forall n, io_error n = false.

Lemma largest_snoc ids x : largest (ids ++ [x]) = Z.max (largest ids) x.
Proof.
  induction ids as [|i ids IH]; simpl; [lia|]. rewrite IH. lia.
Qed.

Lemma largest_filter (A : Type) (f : A -> Z) (p : A -> bool) l :
  (largest (map f (filter p l)) <= largest (map f l))%Z.
Proof.
  induction l as [|x l IH]; simpl; [lia|].
  destruct (p x); simpl; lia.
Qed.

Lemma execute_reliable (A : Type) (stmt : database -> outcome (database * A))
      c db' a :
  stmt (view c) = Ok (db', a) ->
  exists c', execute io_error stmt c = (Ok a, c') /\ view c' = db'.
Proof.
  intros E. unfold execute. rewrite reliable_storage, E.
  eexists. split; reflexivity.
Qed.

(** The loop of INSERTs succeeds when no row of the document carries one
    of the terms yet and the rowids suffice. *)
Lemma insert_loop_succeeds doc_id (freq : string -> Z) entries :
  forall c,
    NoDup (Py.keys entries) ->
    (forall r, In r (term_frequency (view c)) ->
               document_id r = doc_id -> ~ In (term r) (Py.keys entries)) ->
    (Z.max (term_frequency_seq (view c))
           (largest (map tf_id (term_frequency (view c))))
     + Z.of_nat (List.length entries) <= max_rowid)%Z ->
    exists c',
      for_each entries
        (fun '(t, s) =>
           execute io_error (insert_term_frequency doc_id t (freq t) s)) c
      = (Ok tt, c').
Proof.
  unfold Py.keys.
  induction entries as [|[t s] entries IH]; intros c Hnd Hfree Hroom.
  - eexists. reflexivity.
  - simpl for_each. unfold bind.
    simpl in Hnd, Hroom. inversion Hnd as [|? ? Ht Hnd']; subst.
    assert (Hins : exists db',
               insert_term_frequency doc_id t (freq t) s (view c) = Ok (db', tt)
               /\ term_frequency db'
                  = (term_frequency (view c)
                     ++ [{| tf_id := Z.max (term_frequency_seq (view c))
                                       (largest (map tf_id (term_frequency (view c))))
                                     + 1;
                            document_id := doc_id; term := t;
                            frequency := freq t; tf_score := s |}])%list
               /\ term_frequency_seq db'
                  = (Z.max (term_frequency_seq (view c))
                       (largest (map tf_id (term_frequency (view c)))) + 1)%Z).
    { unfold insert_term_frequency.
      destruct (existsb _ (term_frequency (view c))) eqn:Ex.
      - apply existsb_exists in Ex as (r & Hr & Hb).
        apply andb_true_iff in Hb as [Hd Hterm].
        apply Z.eqb_eq in Hd. apply String.eqb_eq in Hterm.
        elim (Hfree r Hr Hd). left. now symmetry.
      - unfold next_rowid.
        destruct (Z.eqb_spec
                    (Z.max (term_frequency_seq (view c))
                       (largest (map tf_id (term_frequency (view c)))))
                    max_rowid) as [E|_]; [lia|].
        eexists. repeat split. }
    destruct Hins as (db' & Hins & Hrows & Hseq).
    destruct (execute_reliable _ c Hins) as (c1 & E1 & Hview).
    rewrite E1. apply IH; [assumption| |].
    + rewrite Hview, Hrows. intros r Hr Hd Hin.
      apply in_app_or in Hr as [Hr|[<-|[]]].
      * apply (Hfree r Hr Hd). now right.
      * simpl in Hin. contradiction.
    + rewrite Hview, Hrows, Hseq, map_app. cbn [map tf_id].
      rewrite largest_snoc. simpl List.length in Hroom. lia.
Qed.

Lemma store_document_succeeds fname text words db :
  rowids_left db (List.length (calculate_term_frequency words)) ->
  exists c',
    store_document io_error fname text words
                   (calculate_term_frequency words) (connect db) = (Ok tt, c').
Proof.
  intros [Hdoc Hterm]. unfold store_document, bind at 1.
  assert (H1 : exists db1 rowid,
             insert_or_replace_document fname text (Py.len words) (view (connect db))
             = Ok (db1, rowid)
             /\ term_frequency db1 = term_frequency db
             /\ term_frequency_seq db1 = term_frequency_seq db).
  { unfold insert_or_replace_document, next_rowid.
    change (view (connect db)) with db.
    destruct (Z.eqb_spec
                (Z.max (documents_seq db) (largest (map id (documents db))))
                max_rowid) as [E|_]; [lia|].
    eexists. eexists. repeat split. }
  destruct H1 as (db1 & rowid & H1 & Hrows1 & Hseq1).
  destruct (execute_reliable _ _ H1) as (c1 & E1 & Hview1). rewrite E1.
  unfold bind at 1.
  destruct (execute_reliable (delete_term_frequency rowid) c1 eq_refl)
    as (c2 & E2 & Hview2).
  rewrite E2. unfold bind at 1.
  destruct (@insert_loop_succeeds rowid
              (fun t => Py.Counter_get (Py.Counter words) t)
              (Py.items (calculate_term_frequency words)) c2) as (c3 & E3).
  - unfold Py.items. rewrite keys_calculate_term_frequency. apply Counter_counts.
  - rewrite Hview2. simpl. intros r Hr Hd. apply filter_In in Hr as [_ Hne].
    apply negb_true_iff, Z.eqb_neq in Hne. contradiction.
  - rewrite Hview2. simpl. rewrite Hview1, Hrows1, Hseq1. unfold Py.items.
    pose proof (largest_filter tf_id
                  (fun r => negb (document_id r =? rowid)%Z) (term_frequency db)).
    lia.
  - rewrite E3. unfold commit. rewrite reliable_storage. eexists. reflexivity.
Qed.
End IngestionMore.

Section StoredRows.
(** Looking a term up among the rows written for one document is looking
    it up in the dictionary they were written from. *)
Lemma find_written_row rowid t rows :
  Forall (fun r => document_id r = rowid) rows ->
  option_map tf_score
    (find (fun r => (document_id r =? rowid)%Z && String.eqb (term r) t) rows)
  = Py.dict_get (map (fun r => (term r, tf_score r)) rows) t.
Proof.
  induction 1 as [|r rows Hr _ IH]; simpl; [reflexivity|].
  rewrite Hr, Z.eqb_refl. simpl.
  destruct (String.eqb (term r) t); [reflexivity|exact IH].
Qed.

Lemma find_app_none (A : Type) (p : A -> bool) l1 l2 :
  Forall (fun x => p x = false) l1 -> find p (l1 ++ l2) = find p l2.
Proof.
  induction 1 as [|x l1 Hx _ IH]; simpl; [reflexivity|]. now rewrite Hx.
Qed.

Lemma filter_length_unique fname docs :
  NoDup (map filename docs) ->
  List.length (filter (fun d => negb (String.eqb (filename d) fname)) docs)
  = (List.length docs
     - if existsb (fun d => String.eqb (filename d) fname) docs then 1 else 0)%nat.
Proof.
  induction docs as [|d docs IH]; simpl; [reflexivity|].
  intros Hnd. inversion Hnd as [|? ? Hd Hnd']; subst.
  destruct (String.eqb (filename d) fname) eqn:E; simpl.
  - apply String.eqb_eq in E. rewrite Nat.sub_0_r.
    f_equal. apply filter_all. apply Forall_forall. intros e He.
    apply negb_true_iff, String.eqb_neq. intros Heq. apply Hd.
    rewrite E, <- Heq. now apply in_map.
  - rewrite (IH Hnd').
    destruct (existsb (fun d0 => String.eqb (filename d0) fname) docs) eqn:Ex;
      [|lia].
    apply existsb_exists in Ex as (e & He & _).
    destruct docs; [destruct He|simpl; lia].
Qed.
End StoredRows.

(** X7. All or nothing: when [process_pdf] returns [False], for whatever
    reason (missing file, no text, no valid word, any database error),
    the database file is exactly what it was. *)
Theorem process_pdf_all_or_nothing
    (fs : filesystem) (io_error : nat -> bool) (pdf_path : string)
    (db : database) :
  fst (process_pdf fs io_error pdf_path db) = false ->
  snd (process_pdf fs io_error pdf_path db) = db.
Proof.
  destruct (process_pdf fs io_error pdf_path db) as [[] db'] eqn:E; simpl;
    [discriminate|].
  intros _. eapply process_pdf_false_unchanged, E.
Qed.

Lemma process_pdf_all_or_nothing_witness :
  snd (process_pdf Scenario.fs_two Scenario.reliable "C.pdf" Scenario.db_ab)
  = Scenario.db_ab.
Proof. apply process_pdf_all_or_nothing. reflexivity. Defined.

(** X8. With a storage that does not fail and rowids left, [process_pdf]
    on an existing file returns [True] exactly when the extracted text
    holds at least one valid word. *)
Theorem process_pdf_success
    (fs : filesystem) (io_error : nat -> bool) (pdf_path : string)
    (db : database) (f : pdf) :
  fs pdf_path = Some f ->
  (forall n, io_error n = false) ->
  rowids_left db
    (List.length
       (calculate_term_frequency (preprocess_text (extract_text_from_pdf f)))) ->
  fst (process_pdf fs io_error pdf_path db) = true
  <-> preprocess_text (extract_text_from_pdf f) <> [].
Proof.
  intros Hfs Hrel Hroom. split.
  - intros Htrue.
    destruct (process_pdf fs io_error pdf_path db) as [b db'] eqn:E.
    simpl in Htrue. subst b.
    apply process_pdf_true in E as (f' & Hfs' & Hne & _).
    congruence.
  - intros Hne. unfold process_pdf. rewrite Hfs.
    destruct (Py.truthy (extract_text_from_pdf f)) eqn:Et.
    + simpl negb. cbv iota.
      destruct (preprocess_text (extract_text_from_pdf f)) as [|w ws] eqn:Ew;
        [congruence|].
      destruct (store_document_succeeds io_error Hrel (Py.basename pdf_path)
                  (extract_text_from_pdf f) (w :: ws) Hroom) as (c' & E).
      now rewrite E.
    + destruct (extract_text_from_pdf f); [|discriminate].
      elim Hne. reflexivity.
Qed.

Lemma process_pdf_success_witness :
  fst (process_pdf Scenario.fs_two Scenario.reliable "B.pdf" Scenario.db_a) = true
  <-> preprocess_text (extract_text_from_pdf (Pages ["machine learning science"]))
      <> [].
Proof.
  apply (@process_pdf_success Scenario.fs_two Scenario.reliable "B.pdf"
           Scenario.db_a (Pages ["machine learning science"])).
  - reflexivity.
  - reflexivity.
  - vm_compute. split; [reflexivity|discriminate].
Defined.

(** X9. After a successful [process_pdf] exactly one document carries
    the base name of the path; it holds the extracted text and the
    number of its tokens, and the stored TF score of every term under its
    rowid is the one [calculate_term_frequency] computed (absent for a
    term that is not a token). *)
Theorem process_pdf_stores_document
    (fs : filesystem) (io_error : nat -> bool) (pdf_path : string)
    (db db' : database) :
  process_pdf fs io_error pdf_path db = (true, db') ->
  exists f d,
    fs pdf_path = Some f
    /\ filter (fun e => String.eqb (filename e) (Py.basename pdf_path))
              (documents db') = [d]
    /\ content d = extract_text_from_pdf f
    /\ word_count d = Py.len (preprocess_text (extract_text_from_pdf f))
    /\ forall t,
        select_tf_score db' (id d) t
        = Py.dict_get
            (calculate_term_frequency
               (preprocess_text (extract_text_from_pdf f))) t.
Proof.
  intros E. apply process_pdf_true in E as (f & Hfs & _ & Hing).
  destruct Hing as (rowid & _ & Hdocs & _ & rows & Hrows & Hmap & Hall).
  exists f. eexists. split; [exact Hfs|]. split; [|split; [|split]].
  - rewrite Hdocs, filter_app. simpl. rewrite String.eqb_refl.
    match goal with
    | |- (?l ++ _)%list = _ => assert (El : l = [])
    end.
    { clear. induction (documents db) as [|e docs IH]; simpl; [reflexivity|].
      destruct (String.eqb (filename e) (Py.basename pdf_path)) eqn:Ee; simpl;
        [exact IH|]. now rewrite Ee. }
    rewrite El. reflexivity.
  - reflexivity.
  - reflexivity.
  - intros t. unfold select_tf_score. rewrite Hrows. simpl id.
    rewrite find_app_none.
    + rewrite <- Hmap. now apply find_written_row.
    + apply Forall_forall. intros r Hr. apply filter_In in Hr as [_ Hne].
      apply negb_true_iff in Hne. now rewrite Hne.
Qed.

Lemma process_pdf_stores_document_witness :
  exists f d,
    Scenario.fs_two "B.pdf" = Some f
    /\ filter (fun e => String.eqb (filename e) (Py.basename "B.pdf"))
              (documents Scenario.db_ab) = [d]
    /\ content d = extract_text_from_pdf f
    /\ word_count d = Py.len (preprocess_text (extract_text_from_pdf f))
    /\ forall t,
        select_tf_score Scenario.db_ab (id d) t
        = Py.dict_get
            (calculate_term_frequency
               (preprocess_text (extract_text_from_pdf f))) t.
Proof.
  apply (@process_pdf_stores_document Scenario.fs_two Scenario.reliable "B.pdf"
           Scenario.db_a Scenario.db_ab).
  vm_compute. reflexivity.
Defined.

(** X10. With unique file names a successful [process_pdf] adds one
    document when the base name is new and keeps the number of documents
    when it replaces one. *)
Theorem process_pdf_document_count
    (fs : filesystem) (io_error : nat -> bool) (pdf_path : string)
    (db db' : database) :
  NoDup (map filename (documents db)) ->
  process_pdf fs io_error pdf_path db = (true, db') ->
  count_documents db'
  = if existsb (fun d => String.eqb (filename d) (Py.basename pdf_path))
               (documents db)
    then count_documents db
    else (count_documents db + 1)%Z.
Proof.
  intros Hnd E. apply process_pdf_true in E as (f & _ & _ & Hing).
  destruct Hing as (rowid & _ & Hdocs & _).
  unfold count_documents, Py.len. rewrite Hdocs, length_app.
  rewrite (filter_length_unique _ _ Hnd). simpl.
  destruct (existsb _ (documents db)) eqn:Ex; [|lia].
  apply existsb_exists in Ex as (e & He & _).
  destruct (documents db); [destruct He|simpl; lia].
Qed.

Lemma process_pdf_document_count_witness :
  count_documents Scenario.db_aa
  = if existsb (fun d => String.eqb (filename d) (Py.basename "A.pdf"))
               (documents Scenario.db_a)
    then count_documents Scenario.db_a
    else (count_documents Scenario.db_a + 1)%Z.
Proof.
  apply (@process_pdf_document_count Scenario.fs_two Scenario.reliable "A.pdf"
           Scenario.db_a Scenario.db_aa).
  - vm_compute. constructor; [intros []|constructor].
  - vm_compute. reflexivity.
Defined.

(** X11. Every state of the store reached from a fresh database by calls
    of [process_pdf], failed ones included, is consistent: file names and
    rowids are unique, every rowid in use was handed out, and the stored
    TF scores are positive. *)
Theorem reachable_store_consistent (db : database) :
  reachable db -> consistent db.
Proof.
  induction 1; [apply init_database_consistent|now apply process_pdf_consistent].
Qed.

Lemma reachable_store_consistent_witness : consistent Scenario.db_ab.
Proof.
  apply reachable_store_consistent.
  apply reachable_step, reachable_step, reachable_init.
Defined.

(** X12. In a consistent store a successful [process_pdf] only appends
    to [term_frequency]: every row that was there is still there, in
    place, the rows of a replaced document included. *)
Theorem process_pdf_appends_term_rows
    (fs : filesystem) (io_error : nat -> bool) (pdf_path : string)
    (db db' : database) :
  consistent db ->
  process_pdf fs io_error pdf_path db = (true, db') ->
  exists rows,
    term_frequency db' = (term_frequency db ++ rows)%list
    /\ Forall (fun r => (documents_seq db < document_id r)%Z) rows.
Proof.
  intros Hc E. apply process_pdf_true in E as (f & _ & _ & Hing).
  destruct Hing as (rowid & Hnext & _ & _ & rows & Hrows & _ & Hall).
  destruct (next_rowid_fresh _ _ Hnext) as [Hlt _].
  exists rows. split.
  - rewrite Hrows. f_equal. apply filter_all.
    eapply Forall_impl; [|exact (refs_allocated Hc)]. simpl.
    intros r Hr. apply negb_true_iff, Z.eqb_neq. lia.
  - eapply Forall_impl; [|exact Hall]. simpl. intros r ->. exact Hlt.
Qed.

Lemma process_pdf_appends_term_rows_witness :
  exists rows,
    term_frequency Scenario.db_a_revised
    = (term_frequency Scenario.db_a ++ rows)%list
    /\ Forall (fun r => (documents_seq Scenario.db_a < document_id r)%Z) rows.
Proof.
  apply (@process_pdf_appends_term_rows Scenario.fs_revised Scenario.reliable
           "A.pdf" Scenario.db_a Scenario.db_a_revised).
  - apply process_pdf_consistent, init_database_consistent.
  - vm_compute. reflexivity.
Defined.

(** ** More on the IDF weights *)

Section IdfMore.
Local Open Scope R_scope.

Lemma fst_emit (A : Type) (e : event) (a : A) : fst (emit e a) = [e].
Proof. reflexivity. Qed.

(** The divisions of [calculate_idf]: one per row of the grouping. *)
Lemma calculate_idf_trace db :
  fst (calculate_idf db)
  = if (count_documents db =? 0)%Z then [Select_count_documents]
    else Select_count_documents :: Select_doc_freq
           :: map (fun '(t, df) => Divide (count_documents db) df) (doc_freq db).
Proof.
  unfold calculate_idf. rewrite fst_and_then, fst_emit, snd_emit.
  destruct (count_documents db =? 0)%Z; [reflexivity|].
  rewrite fst_and_then, fst_emit, snd_emit. simpl app. do 2 f_equal.
  generalize (@nil (string * R)) as acc.
  induction (doc_freq db) as [|[t df] rows IH]; intros acc; cbn [for_loop map].
  - reflexivity.
  - rewrite fst_and_then. cbn [fst snd app]. f_equal. apply IH.
Qed.

Lemma distinct_document_ids_nonempty db t :
  In t (map term (term_frequency db)) -> distinct_document_ids t db <> [].
Proof.
  intros Hin. apply in_map_iff in Hin as (r & Ht & Hr).
  pose proof (In_distinct_document_ids db r Hr) as H. rewrite Ht in H.
  intros E. rewrite E in H. destruct H.
Qed.

Lemma In_doc_freq db t df :
  In (t, df) (doc_freq db) ->
  In t (map term (term_frequency db))
  /\ df = Py.len (distinct_document_ids t db).
Proof.
  unfold doc_freq. intros Hin. apply in_map_iff in Hin as (u & E & Hu).
  injection E as -> <-. split; [|reflexivity].
  now apply nodup_In, In_terms_by_term in Hu.
Qed.

Lemma keys_calculate_idf db :
  documents db <> [] ->
  Py.keys (idf_scores_of db)
  = nodup string_dec (map term (term_frequency_by_term db)).
Proof.
  intros Hne. rewrite calculate_idf_value.
  assert (E : (count_documents db =? 0)%Z = false).
  { apply Z.eqb_neq. unfold count_documents, Py.len.
    destruct (documents db); [congruence|]. simpl. lia. }
  rewrite E. unfold Py.keys, doc_freq. rewrite !map_map. simpl.
  apply map_id.
Qed.

Lemma ln_monotone x y : 0 < x -> x <= y -> ln x <= ln y.
Proof.
  intros Hx [Hlt| ->]; [left; now apply ln_increasing|right; reflexivity].
Qed.
End IdfMore.

(** X13. With at least one document stored, [calculate_idf] returns one
    weight for each distinct term of [term_frequency] and no other, and
    the weight of a term is [ln (N / df)], [N] the number of documents
    and [df] the number of distinct [document_id] values among the rows
    of the term. *)
Theorem calculate_idf_mapping (db : database) :
  documents db <> [] ->
  NoDup (Py.keys (idf_scores_of db))
  /\ (forall t, In t (Py.keys (idf_scores_of db))
                <-> In t (map term (term_frequency db)))
  /\ (forall t, In t (map term (term_frequency db)) ->
                Py.dict_get (idf_scores_of db) t
                = Some (ln (IZR (count_documents db)
                            / IZR (Py.len (distinct_document_ids t db))))).
Proof.
  intros Hne. rewrite (keys_calculate_idf db Hne). split; [apply NoDup_nodup|].
  split.
  - intros t. rewrite nodup_In. apply In_terms_by_term.
  - intros t Ht. now apply calculate_idf_get.
Qed.

Lemma calculate_idf_mapping_witness :
  NoDup (Py.keys (idf_scores_of Scenario.db_ab))
  /\ (forall t, In t (Py.keys (idf_scores_of Scenario.db_ab))
                <-> In t (map term (term_frequency Scenario.db_ab)))
  /\ (forall t, In t (map term (term_frequency Scenario.db_ab)) ->
                Py.dict_get (idf_scores_of Scenario.db_ab) t
                = Some (ln (IZR (count_documents Scenario.db_ab)
                            / IZR (Py.len (distinct_document_ids t Scenario.db_ab))))).
Proof. apply calculate_idf_mapping. vm_compute. discriminate. Defined.

(** X14. [calculate_idf] never divides by zero and never takes the
    logarithm of zero: in every division it evaluates, in whatever state
    of the store, numerator and denominator are positive. *)
Theorem calculate_idf_divisions_safe (db : database) (n d : Z) :
  In (Divide n d) (fst (calculate_idf db)) -> (0 < n)%Z /\ (0 < d)%Z.
Proof.
  rewrite calculate_idf_trace.
  destruct (count_documents db =? 0)%Z eqn:E.
  - intros [H|[]]. discriminate H.
  - intros [H|[H|Hin]]; [discriminate H|discriminate H|].
    apply in_map_iff in Hin as ([t df] & Heq & Hin).
    injection Heq as <- <-. apply Z.eqb_neq in E.
    apply In_doc_freq in Hin as [Ht ->]. split.
    + unfold count_documents, Py.len in *. lia.
    + pose proof (distinct_document_ids_nonempty db t Ht) as Hne.
      unfold Py.len. destruct (distinct_document_ids t db); [congruence|].
      simpl. lia.
Qed.

Lemma calculate_idf_divisions_safe_witness : (0 < 2)%Z /\ (0 < 1)%Z.
Proof.
  apply (@calculate_idf_divisions_safe Scenario.db_ab 2 1).
  vm_compute. tauto.
Defined.

Lemma db_ab_referential : referential Scenario.db_ab.
Proof.
  unfold referential. vm_compute.
  repeat (apply Forall_cons; [auto 6|]). apply Forall_nil.
Qed.

(** X15. In a consistent store where every term row belongs to a current
    document, the weight of a stored term is [ln (N / n)] with [n] the
    number of documents containing it: 0 for a term of every document,
    [ln N] for a term of exactly one. *)
Theorem calculate_idf_document_frequency (db : database) (t : string) :
  consistent db ->
  referential db ->
  documents db <> [] ->
  In t (map term (term_frequency db)) ->
  Py.dict_get (idf_scores_of db) t
  = Some (ln (IZR (count_documents db)
              / IZR (Py.len (documents_containing t db))))
  /\ (documents_containing t db = documents db ->
      Py.dict_get (idf_scores_of db) t = Some 0%R)
  /\ (Py.len (documents_containing t db) = 1%Z ->
      Py.dict_get (idf_scores_of db) t = Some (ln (IZR (count_documents db)))).
Proof. intros Hc Href. now apply calculate_idf_formula. Qed.

Lemma calculate_idf_document_frequency_witness :
  Py.dict_get (idf_scores_of Scenario.db_ab) "data"
  = Some (ln (IZR (count_documents Scenario.db_ab)
              / IZR (Py.len (documents_containing "data" Scenario.db_ab))))
  /\ (documents_containing "data" Scenario.db_ab = documents Scenario.db_ab ->
      Py.dict_get (idf_scores_of Scenario.db_ab) "data" = Some 0%R)
  /\ (Py.len (documents_containing "data" Scenario.db_ab) = 1%Z ->
      Py.dict_get (idf_scores_of Scenario.db_ab) "data"
      = Some (ln (IZR (count_documents Scenario.db_ab)))).
Proof.
  apply calculate_idf_document_frequency.
  - exact db_ab_consistent.
  - exact db_ab_referential.
  - vm_compute. discriminate.
  - vm_compute. tauto.
Defined.

(** X16. In a store where every term row belongs to a current document
    no weight is negative and none exceeds [ln N]. *)
Theorem calculate_idf_bounds (db : database) (t : string) (w : R) :
  referential db ->
  In (t, w) (idf_scores_of db) ->
  (0 <= w <= ln (IZR (count_documents db)))%R.
Proof.
  intros Href. rewrite calculate_idf_value.
  destruct (count_documents db =? 0)%Z eqn:E; [intros []|].
  intros Hin. apply in_map_iff in Hin as ([u df] & Heq & Hin).
  injection Heq as -> <-. apply In_doc_freq in Hin as [Ht ->].
  destruct (@document_frequency_bounds db Href t Ht) as [H1 HN].
  apply IZR_le in H1, HN.
  set (N := IZR (count_documents db)) in *.
  set (D := IZR (Py.len (distinct_document_ids t db))) in *.
  assert (HD : (N / D * D = N)%R).
  { unfold Rdiv. rewrite Rmult_assoc, Rinv_l; lra. }
  assert (Hlow : (1 <= N / D)%R).
  { apply Rmult_le_reg_r with (r := D); lra. }
  assert (Hup : (N / D <= N)%R).
  { apply Rmult_le_reg_r with (r := D); [lra|]. rewrite HD. nra. }
  split; [now apply ln_nonneg|apply ln_monotone; lra].
Qed.

Lemma calculate_idf_bounds_witness :
  (0 <= ln (2 / 1) <= ln (IZR (count_documents Scenario.db_ab)))%R.
Proof.
  apply (@calculate_idf_bounds Scenario.db_ab "data").
  - exact db_ab_referential.
  - apply dict_get_Some_In. rewrite calculate_idf_get.
    + vm_compute. reflexivity.
    + vm_compute. discriminate.
    + vm_compute. tauto.
Defined.

(** ** More on the ranking *)

Section RankingMore.
Local Open Scope R_scope.

Lemma Permutation_insert_desc (A : Type) (key : A -> R) x l :
  Permutation (Py.insert_desc key x l) (x :: l).
Proof.
  induction l as [|y l IH]; simpl; [reflexivity|].
  destruct (Rlt_dec (key x) (key y)); [|reflexivity].
  rewrite IH. apply perm_swap.
Qed.

Lemma Permutation_sorted_reverse (A : Type) (key : A -> R) l :
  Permutation (Py.sorted_reverse key l) l.
Proof.
  induction l as [|x l IH]; simpl; [reflexivity|].
  rewrite Permutation_insert_desc. now constructor.
Qed.

Lemma NoDup_firstn_keeps (A : Type) n (l : list A) :
  NoDup l -> NoDup (firstn n l).
Proof.
  intros H. rewrite <- (firstn_skipn n l) in H.
  now apply NoDup_app_remove_r in H.
Qed.

Lemma slice_to_firstn (A : Type) (l : list A) n :
  exists k, Py.slice_to l n = firstn k l.
Proof. unfold Py.slice_to. destruct (0 <=? n)%Z; eexists; reflexivity. Qed.

(** The keys of [doc_scores] are file names of the store, each once. *)
Lemma doc_scores_keys db query_words :
  NoDup (Py.keys (doc_scores_of db query_words))
  /\ incl (Py.keys (doc_scores_of db query_words))
          (map filename (documents db)).
Proof.
  unfold doc_scores_of, select_documents.
  assert (H : forall docs acc,
             NoDup (Py.keys acc) ->
             incl (Py.keys acc) (map filename (documents db)) ->
             incl docs (documents db) ->
             let r := fold_left
                        (fun doc_scores '(doc_id, fname) =>
                           if Rlt_dec 0 (score_of db query_words doc_id)
                           then Py.dict_set doc_scores fname
                                            (score_of db query_words doc_id)
                           else doc_scores)
                        (map (fun d => (id d, filename d)) docs) acc in
             NoDup (Py.keys r)
             /\ incl (Py.keys r) (map filename (documents db))).
  { induction docs as [|d docs IH]; intros acc Hnd Hincl Hdocs; simpl.
    - now split.
    - apply IH.
      + destruct (Rlt_dec 0 (score_of db query_words (id d)));
          [now apply NoDup_keys_dict_set|assumption].
      + destruct (Rlt_dec 0 (score_of db query_words (id d))); [|assumption].
        intros k Hk. apply In_keys_dict_set in Hk as [->|Hk]; [|auto].
        apply in_map, Hdocs. now left.
      + intros e He. apply Hdocs. now right. }
  apply (H (documents_by_filename db) []); [constructor|intros ? []|].
  intros d. apply In_documents_by_filename.
Qed.

Lemma tfidf_single_document db d t doc_id :
  consistent db -> documents db = [d] -> tfidf db doc_id t <= 0.
Proof.
  intros Hc Hdocs.
  destruct (select_tf_score db doc_id t) as [tf|] eqn:E;
    [|rewrite (tfidf_absent _ _ _ E); lra].
  assert (Hcount : count_documents db = 1%Z).
  { unfold count_documents. now rewrite Hdocs. }
  pose proof E as E'.
  apply select_tf_score_Some in E' as (r & Hin & _ & Ht & <-).
  assert (Hterm : In t (map term (term_frequency db))).
  { rewrite <- Ht. now apply in_map. }
  rewrite (@tfidf_present db doc_id t (tf_score r)
             (Py.len (distinct_document_ids t db)) E).
  - rewrite Hcount.
    pose proof (scores_positive Hc) as Hp. rewrite Forall_forall in Hp.
    specialize (Hp r Hin). simpl in Hp.
    pose proof (distinct_document_ids_nonempty db t Hterm) as Hne.
    assert (Hdf : 1 <= IZR (Py.len (distinct_document_ids t db))).
    { apply IZR_le. unfold Py.len.
      destruct (distinct_document_ids t db); [congruence|simpl; lia]. }
    assert (Hln : ln (1 / IZR (Py.len (distinct_document_ids t db))) <= 0).
    { apply ln_nonpos. split.
      - apply Rdiv_lt_0_compat; lra.
      - apply Rmult_le_reg_r
          with (r := IZR (Py.len (distinct_document_ids t db))); [lra|].
        unfold Rdiv. rewrite Rmult_assoc, Rinv_l; lra. }
    nra.
  - rewrite Hcount. discriminate.
  - rewrite dict_get_doc_freq.
    destruct (in_dec string_dec t (map term (term_frequency db)));
      [reflexivity|contradiction].
Qed.

Lemma fst_pure (A : Type) (a : A) : fst (pure a) = [].
Proof. reflexivity. Qed.

Lemma document_score_trace db idf_scores query_words doc_id :
  fst (document_score db idf_scores query_words doc_id)
  = map (Select_tf_score doc_id) query_words.
Proof.
  unfold document_score. generalize 0 as score.
  induction query_words as [|w ws IH]; intros score; cbn [for_loop map].
  - reflexivity.
  - rewrite fst_and_then. rewrite (fst_and_then (emit _ _)), fst_emit, fst_pure.
    cbn [app]. f_equal. apply IH.
Qed.
End RankingMore.

(** X17. [search] returns file names of stored documents, and none
    twice. *)
Theorem search_returns_documents (db : database) (query : string) (top_n : Z) :
  NoDup (map fst (snd (search db query top_n)))
  /\ incl (map fst (snd (search db query top_n))) (map filename (documents db)).
Proof.
  rewrite search_value.
  destruct (preprocess_text query) as [|w ws];
    [split; [constructor|intros ? []]|].
  destruct (doc_scores_keys db (w :: ws)) as [Hnd Hincl].
  destruct (slice_to_firstn
              (Py.sorted_reverse snd (doc_scores_of db (w :: ws))) top_n)
    as [k ->].
  pose proof (Permutation_map fst
                (Permutation_sorted_reverse snd (doc_scores_of db (w :: ws))))
    as Hperm.
  rewrite <- firstn_map. split.
  - apply NoDup_firstn_keeps.
    eapply Permutation_NoDup; [symmetry; exact Hperm|exact Hnd].
  - intros f Hf. apply Hincl.
    eapply Permutation_in; [exact Hperm|].
    rewrite <- (firstn_skipn k (map fst _)). apply in_or_app. now left.
Qed.



(** X19. With unique file names and a bound [top_n] not below the number
    of documents, every document of positive score is returned, with its
    score. *)
Theorem search_complete (db : database) (query : string) (top_n : Z)
        (d : document) :
  NoDup (map filename (documents db)) ->
  (count_documents db <= top_n)%Z ->
  In d (documents db) ->
  (0 < score_of db (preprocess_text query) (id d))%R ->
  In (filename d, score_of db (preprocess_text query) (id d))
     (snd (search db query top_n)).
Proof.
  intros Hnd Hn Hd Hpos. rewrite search_value.
  destruct (preprocess_text query) as [|w ws] eqn:Eq.
  - rewrite score_of_nil in Hpos. now apply Rlt_irrefl in Hpos.
  - assert (Hin : In (filename d, score_of db (w :: ws) (id d))
                     (doc_scores_of db (w :: ws))).
    { rewrite (doc_scores_of_unique db (w :: ws) Hnd).
      apply in_map_iff. exists d. split; [reflexivity|].
      apply filter_In. split; [now apply In_documents_by_filename|].
      unfold positive_score.
      destruct (Rlt_dec 0 (score_of db (w :: ws) (id d))); [reflexivity|contradiction]. }
    assert (Hlen : (List.length (Py.sorted_reverse snd (doc_scores_of db (w :: ws)))
                    <= List.length (documents db))%nat).
    { rewrite (Permutation_length (Permutation_sorted_reverse snd _)).
      rewrite (doc_scores_of_unique db (w :: ws) Hnd), length_map.
      rewrite <- (Permutation_length (Permutation_documents_by_filename db)).
      apply filter_length_le. }
    unfold Py.slice_to, count_documents, Py.len in *.
    assert (H0 : (0 <=? top_n)%Z = true) by (apply Z.leb_le; lia).
    rewrite H0, firstn_all2 by lia.
    now apply In_sorted_reverse.
Qed.

Lemma search_complete_witness :
  In ("A.pdf", score_of Scenario.db_ab (preprocess_text "data science") 1)
     (snd (search Scenario.db_ab "data science" 10)).
Proof.
  apply (@search_complete Scenario.db_ab "data science" 10
           {| id := 1; filename := "A.pdf";
              content := "machine learning data"; word_count := 3 |}).
  - exact (unique_filenames db_ab_consistent).
  - vm_compute. discriminate.
  - rewrite db_ab_documents. now left.
  - replace (preprocess_text "data science") with ["data"; "science"]
      by (vm_compute; reflexivity).
    cbn [id]. rewrite db_ab_score_A.
    assert (0 < ln 2)%R by (apply ln_pos; lra). lra.
Defined.

(** X20. A smaller bound returns a prefix: for [0 <= m <= n] the result
    for [top_n = m] is the first [m] entries of the result for
    [top_n = n]. *)
Theorem search_prefix (db : database) (query : string) (m n : Z) :
  (0 <= m <= n)%Z ->
  snd (search db query m) = firstn (Z.to_nat m) (snd (search db query n)).
Proof.
  intros [Hm Hn]. rewrite !search_value.
  destruct (preprocess_text query) as [|w ws]; [now rewrite firstn_nil|].
  unfold Py.slice_to.
  assert (H1 : (0 <=? m)%Z = true) by (apply Z.leb_le; lia).
  assert (H2 : (0 <=? n)%Z = true) by (apply Z.leb_le; lia).
  rewrite H1, H2, firstn_firstn. f_equal. lia.
Qed.

Lemma search_prefix_witness :
  snd (search Scenario.db_ab "data science" 1)
  = firstn (Z.to_nat 1) (snd (search Scenario.db_ab "data science" 10)).
Proof. apply search_prefix. lia. Defined.

(** X21. In a consistent store that holds exactly one document [search]
    returns nothing, whatever the query: every weight is [ln (1 / df)],
    which is not positive. *)
Theorem search_single_document
    (db : database) (d : document) (query : string) (top_n : Z) :
  consistent db ->
  documents db = [d] ->
  snd (search db query top_n) = [].
Proof.
  intros Hc Hdocs. apply search_nothing_positive;
    [exact (unique_filenames Hc)|].
  intros e _. rewrite score_of_total. apply total_nonpos.
  apply Forall_forall. intros x Hx.
  apply in_map_iff in Hx as (w & <- & _).
  eapply tfidf_single_document; eassumption.
Qed.

Lemma search_single_document_witness :
  snd (search Scenario.db_a "machine learning" 10) = [].
Proof.
  apply (@search_single_document Scenario.db_a
           {| id := 1; filename := "A.pdf";
              content := "machine learning data"; word_count := 3 |}).
  - apply process_pdf_consistent, init_database_consistent.
  - vm_compute. reflexivity.
Defined.

(** X22. An empty store and a bound of 0 both give the empty result. *)
Theorem search_nothing_to_return (db : database) (query : string) (top_n : Z) :
  documents db = [] \/ top_n = 0%Z ->
  snd (search db query top_n) = [].
Proof.
  intros H. rewrite search_value.
  destruct (preprocess_text query) as [|w ws]; [reflexivity|].
  destruct H as [Hdocs| ->].
  - unfold doc_scores_of, select_documents, documents_by_filename.
    rewrite Hdocs. simpl.
    unfold Py.slice_to. destruct (0 <=? top_n)%Z; apply firstn_nil.
  - reflexivity.
Qed.

Lemma search_nothing_to_return_witness :
  snd (search Scenario.db_ab "data science" 0) = [].
Proof. apply search_nothing_to_return. now right. Defined.

(** X23. What [search] asks of the database for a query with valid
    terms: the two statements of [calculate_idf] with its divisions, the
    list of documents, and then one TF lookup for every row of that list
    and every word of the query, row by row: the documents are visited
    in the order of their file names, not of their rowids. *)
Theorem search_statements (db : database) (query : string) (top_n : Z) :
  preprocess_text query <> [] ->
  fst (search db query top_n)
  = (fst (calculate_idf db)
     ++ Select_documents
        :: flat_map
             (fun '(doc_id, _) =>
                map (Select_tf_score doc_id) (preprocess_text query))
             (select_documents db))%list.
Proof.
  intros Hne. unfold search.
  destruct (preprocess_text query) as [|w ws]; [congruence|].
  rewrite fst_and_then. f_equal.
  rewrite fst_and_then, fst_emit, snd_emit. cbn [app]. f_equal.
  rewrite fst_and_then, fst_pure, app_nil_r.
  generalize (@nil (string * R)) as acc.
  induction (select_documents db) as [|[doc_id fname] docs IH]; intros acc;
    cbn [for_loop map flat_map].
  - reflexivity.
  - rewrite fst_and_then. rewrite (fst_and_then (document_score _ _ _ _)).
    rewrite document_score_trace, fst_pure, app_nil_r. f_equal. apply IH.
Qed.

Lemma search_statements_witness :
  fst (search Scenario.db_ba "data" 10)
  = [Select_count_documents; Select_doc_freq;
     Divide 2 1; Divide 2 2; Divide 2 2; Divide 2 1;
     Select_documents;
     Select_tf_score 2 "data"; Select_tf_score 1 "data"].
Proof.
  rewrite (@search_statements Scenario.db_ba "data" 10);
    [|vm_compute; discriminate].
  rewrite calculate_idf_trace. vm_compute. reflexivity.
Defined.

(** ** Query words that do not count *)

Section UncountedWords.

(** One round of the inner loop leaves the score as it is when the word
    does not count for the document. *)
Lemma document_score_filter db query_words doc_id :
  forall score0 : R,
    fold_left
      (fun score t =>
         snd (result <~ emit (Select_tf_score doc_id t)
                             (select_tf_score db doc_id t) ;;
              pure (match result, Py.dict_get (idf_scores_of db) t with
                    | Some tf_score, Some idf_score =>
                        score + tf_score * idf_score
                    | _, _ => score
                    end)%R))
      query_words score0
    = fold_left
        (fun score t =>
           snd (result <~ emit (Select_tf_score doc_id t)
                               (select_tf_score db doc_id t) ;;
                pure (match result, Py.dict_get (idf_scores_of db) t with
                      | Some tf_score, Some idf_score =>
                          score + tf_score * idf_score
                      | _, _ => score
                      end)%R))
        (filter (counted db doc_id) query_words) score0.
Proof.
  induction query_words as [|t ws IH]; intros score0; [reflexivity|].
  cbn [filter]. destruct (counted db doc_id t) eqn:E; cbn [fold_left].
  - apply IH.
  - rewrite <- IH. f_equal. rewrite snd_and_then, snd_emit.
    unfold counted, Py.dict_mem in E. unfold pure, snd.
    destruct (select_tf_score db doc_id t); [|reflexivity].
    destruct (Py.dict_get (idf_scores_of db) t); [discriminate|reflexivity].
Qed.

Lemma doc_scores_of_ext db ws1 ws2 :
  (forall d, In d (documents db) ->
             score_of db ws1 (id d) = score_of db ws2 (id d)) ->
  doc_scores_of db ws1 = doc_scores_of db ws2.
Proof.
  intros H. unfold doc_scores_of, select_documents.
  assert (H' : forall d, In d (documents_by_filename db) ->
                         score_of db ws1 (id d) = score_of db ws2 (id d))
    by (intros d Hd; now apply H, In_documents_by_filename).
  clear H. revert H'. generalize (@nil (string * R)) as acc.
  induction (documents_by_filename db) as [|d docs IH]; intros acc H;
    [reflexivity|].
  cbn [map fold_left]. rewrite (H d (or_introl eq_refl)).
  apply IH. intros e He. apply H. now right.
Qed.

Lemma doc_scores_of_nil db : doc_scores_of db [] = [].
Proof.
  unfold doc_scores_of. generalize (select_documents db) as rows.
  induction rows as [|[doc_id fname] rows IH]; [reflexivity|].
  cbn [fold_left].
  destruct (Rlt_dec 0 (score_of db [] doc_id)) as [Hlt|_]; [|exact IH].
  exfalso. revert Hlt. apply Rlt_irrefl.
Qed.

Lemma search_value_any db query top_n :
  snd (search db query top_n)
  = Py.slice_to
      (Py.sorted_reverse snd (doc_scores_of db (preprocess_text query))) top_n.
Proof.
  rewrite search_value.
  destruct (preprocess_text query) as [|w ws] eqn:E; [|reflexivity].
  rewrite doc_scores_of_nil. unfold Py.slice_to. cbn [Py.sorted_reverse fold_right].
  destruct (0 <=? top_n)%Z; now rewrite firstn_nil.
Qed.

End UncountedWords.

(** X24. A query word counts for a document only if the document has a
    row for it and the word has a weight ([if result and term in
    idf_scores]); the other words of the query leave the accumulated
    score as it is, so the score of a document is the score of the
    query words that count for it, in their order. *)
Theorem score_skips_uncounted_words
    (db : database) (query_words : list string) (doc_id : Z) :
  score_of db query_words doc_id
  = score_of db (filter (counted db doc_id) query_words) doc_id.
Proof.
  unfold score_of, document_score. rewrite !snd_for_loop.
  apply document_score_filter.
Qed.

(** X29. Two queries return the same entries when, for every stored
    document, they have the same words that count for it, in the same
    order: words that no document carries do not change a result, not
    even a query made of such words only. *)
Theorem search_ignores_uncounted_words
    (db : database) (query1 query2 : string) (top_n : Z) :
  (forall d, In d (documents db) ->
             filter (counted db (id d)) (preprocess_text query1)
             = filter (counted db (id d)) (preprocess_text query2)) ->
  snd (search db query1 top_n) = snd (search db query2 top_n).
Proof.
  intros H. rewrite !search_value_any. do 2 f_equal.
  apply doc_scores_of_ext. intros d Hd.
  unfold score_of, document_score. rewrite !snd_for_loop.
  rewrite (document_score_filter db (preprocess_text query1)).
  rewrite (document_score_filter db (preprocess_text query2)).
  now rewrite (H d Hd).
Qed.

Lemma search_ignores_uncounted_words_witness :
  snd (search Scenario.db_ab "data science" 10)
  = snd (search Scenario.db_ab "data quantum science" 10).
Proof.
  apply search_ignores_uncounted_words.
  rewrite db_ab_documents. intros d [<-|[<-|[]]]; vm_compute; reflexivity.
Defined.

(** X25. In a consistent store where every term row belongs to a current
    document, repeating a word of the query does not change which
    documents have a positive score. *)
Theorem repeated_word_keeps_matches
    (db : database) (w : string) (ws : list string) (d : document) :
  consistent db ->
  referential db ->
  In w ws ->
  positive_score db (w :: ws) d = positive_score db ws d.
Proof.
  intros Hc Href Hin. unfold positive_score.
  pose proof (@duplicate_keeps_matches db Hc Href w ws (id d) Hin) as H.
  destruct (Rlt_dec 0 (score_of db (w :: ws) (id d))) as [H1|H1];
    destruct (Rlt_dec 0 (score_of db ws (id d))) as [H2|H2];
    try reflexivity; tauto.
Qed.

Lemma repeated_word_keeps_matches_witness :
  positive_score Scenario.db_ab ["data"; "data"; "science"]
    {| id := 1; filename := "A.pdf";
       content := "machine learning data"; word_count := 3 |}
  = positive_score Scenario.db_ab ["data"; "science"]
      {| id := 1; filename := "A.pdf";
         content := "machine learning data"; word_count := 3 |}.
Proof.
  apply repeated_word_keeps_matches.
  - exact db_ab_consistent.
  - exact db_ab_referential.
  - now left.
Defined.

(** ** The reports *)

Section ReportFacts.

Lemma Sorted_insert_by_filename d l :
  Sorted (fun a b => String.leb (filename a) (filename b) = true) l ->
  Sorted (fun a b => String.leb (filename a) (filename b) = true)
         (insert_by_filename d l).
Proof.
  induction 1 as [|e l Hl IH He]; simpl.
  - repeat constructor.
  - destruct (String.leb (filename d) (filename e)) eqn:E.
    + constructor; [now constructor|now constructor].
    + constructor; [exact IH|].
      assert (Hed : String.leb (filename e) (filename d) = true).
      { destruct (String.leb_total (filename e) (filename d)); congruence. }
      destruct l as [|e' l']; simpl; [now constructor|].
      destruct (String.leb (filename d) (filename e')); constructor;
        [assumption|now inversion He].
Qed.

Lemma Sorted_order_by_filename l :
  Sorted (fun a b => String.leb (filename a) (filename b) = true)
         (fold_right insert_by_filename [] l).
Proof.
  induction l as [|d l IH]; simpl; [constructor|].
  now apply Sorted_insert_by_filename.
Qed.

Lemma Permutation_insert_by_frequency r l :
  Permutation (insert_by_frequency r l) (r :: l).
Proof.
  induction l as [|e l IH]; simpl; [reflexivity|].
  destruct (frequency r <? frequency e)%Z; [|reflexivity].
  rewrite IH. apply perm_swap.
Qed.

Lemma Permutation_order_by_frequency l :
  Permutation (fold_right insert_by_frequency [] l) l.
Proof.
  induction l as [|r l IH]; simpl; [reflexivity|].
  rewrite Permutation_insert_by_frequency. now constructor.
Qed.

Lemma Sorted_insert_by_frequency r l :
  Sorted (fun a b => (frequency b <= frequency a)%Z) l ->
  Sorted (fun a b => (frequency b <= frequency a)%Z) (insert_by_frequency r l).
Proof.
  induction 1 as [|e l Hl IH He]; simpl.
  - repeat constructor.
  - destruct (Z.ltb_spec (frequency r) (frequency e)) as [Hlt|Hge].
    + constructor; [exact IH|].
      destruct l as [|e' l']; simpl; [constructor; lia|].
      destruct (frequency r <? frequency e')%Z; constructor;
        [now inversion He|lia].
    + constructor; [now constructor|constructor; lia].
Qed.

Lemma Sorted_order_by_frequency l :
  Sorted (fun a b => (frequency b <= frequency a)%Z)
         (fold_right insert_by_frequency [] l).
Proof.
  induction l as [|r l IH]; simpl; [constructor|].
  now apply Sorted_insert_by_frequency.
Qed.

Lemma Sorted_firstn_keeps (A : Type) (R : A -> A -> Prop) n l :
  Sorted R l -> Sorted R (firstn n l).
Proof.
  intros H. revert n. induction H as [|x l Hl IH Hx]; intros [|n]; simpl;
    try constructor; [apply IH|].
  destruct Hx as [|y l' Hxy]; destruct n; simpl; constructor. assumption.
Qed.

Lemma Sorted_map_keeps (A B : Type) (f : A -> B)
      (R : B -> B -> Prop) (l : list A) :
  Sorted (fun a b => R (f a) (f b)) l -> Sorted R (map f l).
Proof.
  induction 1 as [|x l Hl IH Hx]; simpl; constructor; [assumption|].
  destruct Hx; simpl; constructor. assumption.
Qed.

Lemma filter_none (A : Type) (p : A -> bool) l :
  Forall (fun x => p x = false) l -> filter p l = [].
Proof. induction 1 as [|x l Hx _ IH]; simpl; [reflexivity|]. now rewrite Hx. Qed.

Lemma existsb_none (A : Type) (p : A -> bool) l :
  Forall (fun x => p x = false) l -> existsb p l = false.
Proof. induction 1 as [|x l Hx _ IH]; simpl; [reflexivity|]. now rewrite Hx. Qed.

(** The number of keys of a [Counter] is the number of distinct words. *)
Lemma Counter_length words :
  List.length (Py.Counter words) = List.length (nodup string_dec words).
Proof.
  rewrite <- (length_map fst (Py.Counter words)).
  apply Permutation_length, NoDup_Permutation.
  - apply Counter_counts.
  - apply NoDup_nodup.
  - intros t. rewrite nodup_In. apply In_keys_Counter.
Qed.
End ReportFacts.

Section StoredFrequencies.
Variable io_error : nat -> bool.

(** A property of rows that every inserted row has holds of all rows
    after the loop of INSERTs. *)
Lemma insert_loop_keeps (P : term_row -> Prop) doc_id (freq : string -> Z) entries :
  (forall i t s, P {| tf_id := i; document_id := doc_id; term := t;
                      frequency := freq t; tf_score := s |}) ->
  forall c c',
    Forall P (term_frequency (view c)) ->
    for_each entries
      (fun '(t, s) =>
         execute io_error (insert_term_frequency doc_id t (freq t) s)) c
    = (Ok tt, c') ->
    Forall P (term_frequency (view c')).
Proof.
  intros HP. induction entries as [|[t s] entries IH]; intros c c' Hc; simpl.
  - unfold ret. now intros [= <-].
  - unfold bind.
    destruct (execute io_error (insert_term_frequency doc_id t (freq t) s) c)
      as [[[]|e] c1] eqn:E1; [|discriminate].
    apply IH. apply execute_ok_view in E1.
    unfold insert_term_frequency in E1.
    destruct (existsb _ _); [discriminate|].
    destruct (next_rowid _ _) as [rowid|e]; [|discriminate].
    injection E1 as E1. rewrite <- E1. simpl.
    apply Forall_app. split; [assumption|]. constructor; [apply HP|constructor].
Qed.

(** After a successful ingestion the rows under the new rowid carry the
    number of occurrences of their term. *)
Lemma store_document_frequencies fname text words db c' :
  store_document io_error fname text words
                 (calculate_term_frequency words) (connect db) = (Ok tt, c') ->
  Forall (fun r => document_id r = documents_seq (close c') ->
                   frequency r = Z.of_nat (count_occ string_dec words (term r)))
         (term_frequency (close c')).
Proof.
  unfold store_document, bind at 1.
  destruct (execute io_error
              (insert_or_replace_document fname text (Py.len words)) (connect db))
    as [[doc_id|e] c1] eqn:E1; [|discriminate].
  apply execute_ok_view in E1. unfold bind at 1.
  destruct (execute io_error (delete_term_frequency doc_id) c1)
    as [[[]|e] c2] eqn:E2; [|discriminate].
  apply execute_ok_view in E2. unfold bind at 1.
  match goal with
  | |- context [for_each ?xs ?body c2] =>
      destruct (for_each xs body c2) as [[[]|e] c3] eqn:E3; [|discriminate]
  end.
  intros E4. destruct (commit_requests _ _ E4) as [_ Hok].
  destruct (Hok tt eq_refl) as [_ Hfile]. unfold close. rewrite Hfile.
  pose proof E3 as E3'.
  apply (@insert_loop_appends io_error doc_id
           (fun t => Py.Counter_get (Py.Counter words) t)) in E3'.
  destruct E3' as (_ & Hseq & _).
  unfold insert_or_replace_document in E1.
  destruct (next_rowid _ _) as [rowid|e]; [|discriminate].
  injection E1 as E1 <-.
  unfold delete_term_frequency in E2. injection E2 as E2.
  assert (Hid : documents_seq (view c3) = rowid).
  { rewrite Hseq, <- E2. simpl. now rewrite <- E1. }
  rewrite Hid.
  eapply (@insert_loop_keeps
            (fun r => document_id r = rowid ->
                      frequency r = Z.of_nat (count_occ string_dec words (term r)))
            rowid (fun t => Py.Counter_get (Py.Counter words) t));
    [| |exact E3].
  - intros i t s _. simpl. unfold Py.Counter_get.
    destruct (Counter_counts words) as [_ H]. rewrite H. unfold occurrences.
    destruct (count_occ string_dec words t); reflexivity.
  - rewrite <- E2. simpl. apply Forall_forall. intros r Hr Hd.
    apply filter_In in Hr as [_ Hne].
    apply negb_true_iff, Z.eqb_neq in Hne. contradiction.
Qed.
End StoredFrequencies.

Lemma process_pdf_frequencies fs io_error pdf_path db db' f :
  fs pdf_path = Some f ->
  process_pdf fs io_error pdf_path db = (true, db') ->
  Forall (fun r => document_id r = documents_seq db' ->
                   frequency r
                   = Z.of_nat (count_occ string_dec
                                 (preprocess_text (extract_text_from_pdf f))
                                 (term r)))
         (term_frequency db').
Proof.
  intros Hfs. unfold process_pdf. rewrite Hfs.
  destruct (negb (Py.truthy (extract_text_from_pdf f))); [discriminate|].
  destruct (preprocess_text (extract_text_from_pdf f)) as [|w ws] eqn:Ew;
    [discriminate|].
  match goal with
  | |- context [store_document ?io ?a ?b ?c ?d ?e] =>
      destruct (store_document io a b c d e) as [[[]|e'] c'] eqn:E;
        [|discriminate]
  end.
  intros [= <-]. eapply store_document_frequencies, E.
Qed.

(** The stored numbers of occurrences are the counts of the [Counter],
    term by term. *)
Lemma stored_frequencies_total (words : list string) (rows : list term_row) :
  map (fun r => (term r, tf_score r)) rows = calculate_term_frequency words ->
  Forall (fun r => frequency r = Z.of_nat (count_occ string_dec words (term r)))
         rows ->
  fold_right Z.add 0%Z (map frequency rows) = Py.len words.
Proof.
  intros Hmap Hfreq. rewrite <- sum_Counter. f_equal.
  assert (Hterms : map term rows = Py.keys (Py.Counter words)).
  { rewrite <- keys_calculate_term_frequency, <- Hmap.
    unfold Py.keys. now rewrite map_map. }
  transitivity (map (fun t => Z.of_nat (count_occ string_dec words t))
                    (map term rows)).
  - rewrite map_map. apply map_ext_in. intros r Hr.
    rewrite Forall_forall in Hfreq. now apply Hfreq.
  - rewrite Hterms. unfold Py.keys. rewrite map_map.
    apply map_ext_in. intros [w c] Hin. cbn [fst snd].
    destruct (Counter_counts words) as [Hnd Hget].
    pose proof (In_dict_get _ _ _ Hnd Hin) as Hc. rewrite Hget in Hc.
    unfold occurrences in Hc.
    destruct (Nat.eqb (count_occ string_dec words w) 0);
      [discriminate|now injection Hc].
Qed.

(** X5. After a successful [process_pdf] the numbers of occurrences
    stored for the document, one row per distinct term under its rowid,
    add up to its [word_count]: every token is counted in exactly one
    row.  Rows that earlier versions of the file left behind carry
    another rowid and are not part of the sum. *)
Theorem process_pdf_frequencies_total
    (fs : filesystem) (io_error : nat -> bool) (pdf_path : string)
    (db db' : database) :
  process_pdf fs io_error pdf_path db = (true, db') ->
  exists d,
    In d (documents db')
    /\ filename d = Py.basename pdf_path
    /\ fold_right Z.add 0%Z
         (map frequency
              (filter (fun r => (document_id r =? id d)%Z) (term_frequency db')))
       = word_count d.
Proof.
  intros E. pose proof E as E0.
  apply process_pdf_true in E as (f & Hfs & _ & Hing).
  pose proof (process_pdf_frequencies _ _ _ _ Hfs E0) as Hfreq.
  destruct Hing as (rowid & _ & Hdocs & Hseq & rows & Hrows & Hmap & Hall).
  assert (Hmine : filter (fun r => (document_id r =? rowid)%Z) (term_frequency db')
                  = rows).
  { rewrite Hrows, filter_app. rewrite filter_none.
    - simpl. apply filter_all. eapply Forall_impl; [|exact Hall].
      simpl. intros r ->. apply Z.eqb_refl.
    - apply Forall_forall. intros r Hr. apply filter_In in Hr as [_ Hne].
      now apply negb_true_iff in Hne. }
  eexists. split; [rewrite Hdocs; apply in_or_app; right; now left|].
  split; [reflexivity|]. cbn [id word_count]. rewrite Hmine.
  apply stored_frequencies_total; [exact Hmap|].
  rewrite Forall_forall in Hfreq, Hall. apply Forall_forall. intros r Hr.
  apply Hfreq.
  - rewrite Hrows. apply in_or_app. now right.
  - rewrite Hseq. now apply Hall.
Qed.

Lemma process_pdf_frequencies_total_witness :
  exists d,
    In d (documents Scenario.db_a_revised)
    /\ filename d = Py.basename "A.pdf"
    /\ fold_right Z.add 0%Z
         (map frequency
              (filter (fun r => (document_id r =? id d)%Z)
                      (term_frequency Scenario.db_a_revised)))
       = word_count d.
Proof.
  apply (@process_pdf_frequencies_total Scenario.fs_revised Scenario.reliable
           "A.pdf" Scenario.db_a Scenario.db_a_revised).
  vm_compute. reflexivity.
Defined.

(** X26. [list_documents] prints the notice "No documents in database"
    for an empty store, and otherwise a header, a rule of 50 dashes and
    one line [name (n words)] for each stored document, in ascending
    order of the file names. *)
Theorem list_documents_report (db : database) :
  list_documents db
  = match documents db with
    | [] => ["No documents in database"]
    | _ =>
        (newline ++ "Documents in database:")
          :: rule 50
          :: map (fun '(fname, wc) => fname ++ " (" ++ str_of_int wc ++ " words)")
                 (select_documents_by_filename db)
    end
  /\ Permutation (select_documents_by_filename db)
                 (map (fun d => (filename d, word_count d)) (documents db))
  /\ Sorted (fun a b => String.leb (fst a) (fst b) = true)
            (select_documents_by_filename db).
Proof.
  assert (Hperm : Permutation (select_documents_by_filename db)
                    (map (fun d => (filename d, word_count d)) (documents db))).
  { unfold select_documents_by_filename.
    apply Permutation_map, Permutation_order_by_filename. }
  split; [|split; [exact Hperm|]].
  - unfold list_documents.
    destruct (documents db) as [|d docs] eqn:Ed.
    + apply Permutation_sym, Permutation_nil in Hperm. now rewrite Hperm.
    + destruct (select_documents_by_filename db) as [|row rows] eqn:Es;
        [|reflexivity].
      apply Permutation_nil in Hperm. discriminate Hperm.
  - unfold select_documents_by_filename.
    apply Sorted_map_keeps
      with (f := fun d => (filename d, word_count d))
           (R := fun a b : string * Z => String.leb (fst a) (fst b) = true).
    apply Sorted_order_by_filename.
Qed.

(** X27. [get_document_stats] reports that the document is not in the
    database exactly when no stored document has the file name. *)
Theorem get_document_stats_not_found (db : database) (fname : string) :
  get_document_stats db fname = None
  <-> ~ In fname (map filename (documents db)).
Proof.
  unfold get_document_stats.
  destruct (find (fun d => String.eqb (filename d) fname) (documents db))
    as [d|] eqn:E.
  - split; [discriminate|]. intros Hn. elim Hn.
    apply find_some in E as [Hd Hf]. apply String.eqb_eq in Hf.
    rewrite <- Hf. now apply in_map.
  - split; [|reflexivity]. intros _ Hin.
    apply in_map_iff in Hin as (d & Hf & Hd).
    pose proof (find_none _ _ E d Hd) as Hne. simpl in Hne.
    rewrite Hf, String.eqb_refl in Hne. discriminate.
Qed.

(** X28. After a successful [process_pdf] the statistics of the file
    report the number of its tokens, the number of its distinct tokens
    (rows left by earlier versions of the file are not counted), the
    first 200 characters of its text, and at most ten of its terms, each
    with its number of occurrences and its TF score, by descending
    number of occurrences. *)
Theorem get_document_stats_after_ingestion
    (fs : filesystem) (io_error : nat -> bool) (pdf_path : string)
    (db db' : database) :
  process_pdf fs io_error pdf_path db = (true, db') ->
  exists f stats,
    fs pdf_path = Some f
    /\ get_document_stats db' (Py.basename pdf_path) = Some stats
    /\ total_words stats = Py.len (preprocess_text (extract_text_from_pdf f))
    /\ unique_terms stats
       = Py.len (nodup string_dec (preprocess_text (extract_text_from_pdf f)))
    /\ content_preview stats = substring 0 200 (extract_text_from_pdf f)
    /\ (List.length (top_terms stats) <= 10)%nat
    /\ Sorted (fun a b => (snd (fst b) <= snd (fst a))%Z) (top_terms stats)
    /\ forall t k s,
        In (t, k, s) (top_terms stats) ->
        k = Z.of_nat (count_occ string_dec
                        (preprocess_text (extract_text_from_pdf f)) t)
        /\ Py.dict_get
             (calculate_term_frequency
                (preprocess_text (extract_text_from_pdf f))) t = Some s.
Proof.
  intros E. pose proof E as E0.
  apply process_pdf_true in E as (f & Hfs & _ & Hing).
  pose proof (process_pdf_frequencies _ _ _ _ Hfs E0) as Hfreq.
  destruct Hing as (rowid & _ & Hdocs & Hseq & rows & Hrows & Hmap & Hall).
  set (words := preprocess_text (extract_text_from_pdf f)) in *.
  set (fname := Py.basename pdf_path) in *.
  set (others := filter (fun d => negb (String.eqb (filename d) fname))
                        (documents db)) in *.
  assert (Hothers : Forall (fun d => String.eqb (filename d) fname = false) others).
  { apply Forall_forall. intros d Hd. apply filter_In in Hd as [_ Hne].
    now apply negb_true_iff in Hne. }
  assert (Hold : Forall (fun r => (document_id r =? rowid)%Z = false)
                        (filter (fun r => negb (document_id r =? rowid)%Z)
                                (term_frequency db))).
  { apply Forall_forall. intros r Hr. apply filter_In in Hr as [_ Hne].
    now apply negb_true_iff in Hne. }
  assert (Hmine : filter (fun r => (document_id r =? rowid)%Z) (term_frequency db')
                  = rows).
  { rewrite Hrows, filter_app, (filter_none _ Hold). simpl.
    apply filter_all. eapply Forall_impl; [|exact Hall].
    simpl. intros r ->. apply Z.eqb_refl. }
  assert (Hjoin : Permutation (term_rows_of db' fname) rows).
  { unfold term_rows_of.
    rewrite (Permutation_filter_keeps _ (Permutation_term_frequency_by_term db')).
    rewrite <- Hmine. apply Permutation_refl'. apply filter_ext. intros r.
    rewrite Hdocs, existsb_app. simpl. rewrite existsb_none.
    - rewrite String.eqb_refl, orb_false_r. simpl. apply Z.eqb_sym.
    - eapply Forall_impl; [|exact Hothers]. simpl. now intros d ->. }
  exists f. eexists. split; [exact Hfs|]. split.
  { unfold get_document_stats. rewrite Hdocs, find_app_none by exact Hothers.
    cbn [find filename]. rewrite String.eqb_refl. reflexivity. }
  cbn [total_words unique_terms content_preview top_terms
       word_count content id].
  rewrite Hmine.
  split; [reflexivity|]. split.
  { unfold Py.len. f_equal.
    rewrite <- (length_map (fun r => (term r, tf_score r)) rows), Hmap.
    rewrite calculate_term_frequency_map, length_map. apply Counter_length. }
  split; [reflexivity|]. split.
  { rewrite length_map. apply firstn_le_length. }
  split.
  { apply Sorted_map_keeps
      with (f := fun r => (term r, frequency r, tf_score r))
           (R := fun a b : string * Z * R => (snd (fst b) <= snd (fst a))%Z).
    cbn [fst snd]. apply Sorted_firstn_keeps, Sorted_order_by_frequency. }
  intros t k s Hin. apply in_map_iff in Hin as (r & Heq & Hr).
  injection Heq as <- <- <-.
  assert (Hrow : In r rows).
  { eapply Permutation_in; [exact Hjoin|].
    eapply Permutation_in; [apply Permutation_order_by_frequency|].
    rewrite <- (firstn_skipn 10 (fold_right _ _ _)). apply in_or_app. now left. }
  split.
  - rewrite Forall_forall in Hfreq, Hall. apply Hfreq.
    + rewrite Hrows. apply in_or_app. now right.
    + rewrite Hseq. now apply Hall.
  - apply In_dict_get.
    + rewrite keys_calculate_term_frequency. apply Counter_counts.
    + change (In (term r, tf_score r) (calculate_term_frequency words)).
      rewrite <- Hmap. apply in_map_iff. now exists r.
Qed.

Lemma get_document_stats_after_ingestion_witness :
  exists f stats,
    Scenario.fs_revised "A.pdf" = Some f
    /\ get_document_stats Scenario.db_a_revised (Py.basename "A.pdf") = Some stats
    /\ total_words stats = Py.len (preprocess_text (extract_text_from_pdf f))
    /\ unique_terms stats
       = Py.len (nodup string_dec (preprocess_text (extract_text_from_pdf f)))
    /\ content_preview stats = substring 0 200 (extract_text_from_pdf f)
    /\ (List.length (top_terms stats) <= 10)%nat
    /\ Sorted (fun a b => (snd (fst b) <= snd (fst a))%Z) (top_terms stats)
    /\ forall t k s,
        In (t, k, s) (top_terms stats) ->
        k = Z.of_nat (count_occ string_dec
                        (preprocess_text (extract_text_from_pdf f)) t)
        /\ Py.dict_get
             (calculate_term_frequency
                (preprocess_text (extract_text_from_pdf f))) t = Some s.
Proof.
  apply (@get_document_stats_after_ingestion Scenario.fs_revised Scenario.reliable
           "A.pdf" Scenario.db_a Scenario.db_a_revised).
  vm_compute. reflexivity.
Defined.
